(** * BSE scraper: the IPO process-status spider and the compact persistence pipeline

    A shallow embedding of
    - [bse_scraper/pipelines_compact_r2.py]: [slugify], [to_iso_date],
      [coerce_float], [guess_ext_from_url],
      [R2FilesPipeline.get_media_requests] and [file_path],
      [IssuesCompactDBPipeline.__init__] and [process_item];
    - [bse_scraper/spiders/bse_ipo_process_status.py]: [_norm],
      [_clean_header], [_parse_table], [_pick_section_table],
      [_extract_pager], [_make_postback_request] and the three callbacks;
    - [bse_scraper/spiders/bse_public_issues_with_detail.py]: [to_iso] and
      [split_price_band], whose results the pipeline reads.

    Python [str] values are modelled by [string]; a character is a code point
    in the range 0..255 and the character classes below are Python's own
    ([str.isspace], [\w], [\d], [str.lower]) on that range.  Functions of the
    Python standard library whose behaviour depends on the interpreter
    version or the locale are operations of the classes [PyLib] and
    [PyFormat], and the URL that a [scrapy.Request] keeps is the operation
    of the class [Scrapy]. *)

From Stdlib Require Import ZArith NArith Ascii String List DecimalString DecimalNat
  Floats SpecFloat Lia.
From stdpp Require Import base option list strings gmap sorting.

Local Open Scope string_scope.
Local Open Scope Z_scope.
Local Open Scope list_scope.

(** ** Results of Python computations *)

Inductive exn : Type :=
| ValueError
| TypeError
| AttributeError
| IntegrityError
| DataError
| MultipleResultsFound.

Inductive res (A : Type) : Type :=
| Ret (a : A)
| Raise (e : exn).

Arguments Ret {A} a.
Arguments Raise {A} e.

#[global] Instance res_ret : MRet res := fun A a => Ret a.

#[global] Instance res_bind : MBind res := fun A B k m =>
  match m with
  | Ret a => k a
  | Raise e => Raise e
  end.

(** [try: m  except Exception: h] *)
Definition try_except {A} (m : res A) (h : res A) : res A :=
  match m with
  | Ret a => Ret a
  | Raise _ => h
  end.

(** ** Characters and strings *)

Definition code (c : ascii) : N := N_of_ascii c.

Definition in_range (lo hi : N) (c : ascii) : bool :=
  ((lo <=? code c) && (code c <=? hi))%N.

(** [str.isspace] and the class [\s] of [re] on code points below 256. *)
Definition isspace (c : ascii) : bool :=
  in_range 9 13 c || in_range 28 32 c
  || (code c =? 133)%N || (code c =? 160)%N.

(** XML white space, as XPath's [normalize-space] strips it. *)
Definition xml_space (c : ascii) : bool :=
  (code c =? 32)%N || (code c =? 9)%N || (code c =? 10)%N || (code c =? 13)%N.

(** The class [\d]. *)
Definition isdecimal (c : ascii) : bool := in_range 48 57 c.

(** The class [[A-Za-z]]. *)
Definition ascii_letter (c : ascii) : bool :=
  in_range 65 90 c || in_range 97 122 c.

(** [str.isalnum] on code points below 256: letters, decimal digits and
    the numeric characters of Latin-1. *)
Definition isalnum (c : ascii) : bool :=
  isdecimal c || ascii_letter c
  || (code c =? 170)%N || in_range 178 179 c || (code c =? 181)%N
  || in_range 185 186 c || in_range 188 190 c
  || in_range 192 214 c || in_range 216 246 c || in_range 248 255 c.

(** The class [\w]. *)
Definition isword (c : ascii) : bool := isalnum c || (code c =? 95)%N.

Definition hyphen : ascii := "-"%char.
Definition is_hyphen (c : ascii) : bool := (code c =? 45)%N.

(** [str.lower] on one character. *)
Definition lower_char (c : ascii) : ascii :=
  if in_range 65 90 c || in_range 192 214 c || in_range 216 222 c
  then ascii_of_N (code c + 32) else c.

Fixpoint str_map (f : ascii -> ascii) (s : string) : string :=
  match s with
  | EmptyString => EmptyString
  | String c r => String (f c) (str_map f r)
  end.

Definition lower (s : string) : string := str_map lower_char s.

Fixpoint str_all (p : ascii -> bool) (s : string) : bool :=
  match s with
  | EmptyString => true
  | String c r => p c && str_all p r
  end.

Fixpoint str_any (p : ascii -> bool) (s : string) : bool :=
  match s with
  | EmptyString => false
  | String c r => p c || str_any p r
  end.

Fixpoint str_filter (p : ascii -> bool) (s : string) : string :=
  match s with
  | EmptyString => EmptyString
  | String c r => if p c then String c (str_filter p r) else str_filter p r
  end.

Definition is_empty (s : string) : bool :=
  match s with
  | EmptyString => true
  | String _ _ => false
  end.

(** Truth value of a [str]. *)
Definition nonempty (s : string) : bool := negb (is_empty s).

Fixpoint lstrip (p : ascii -> bool) (s : string) : string :=
  match s with
  | EmptyString => EmptyString
  | String c r => if p c then lstrip p r else s
  end.

Fixpoint rstrip (p : ascii -> bool) (s : string) : string :=
  match s with
  | EmptyString => EmptyString
  | String c r =>
      let r' := rstrip p r in
      if is_empty r' && p c then EmptyString else String c r'
  end.

(** [s.strip()] is [strip isspace s]; [s.strip("-")] is [strip is_hyphen s]. *)
Definition strip (p : ascii -> bool) (s : string) : string :=
  rstrip p (lstrip p s).

(** [re.sub(r"\s+", rep, s)] is [sub_runs isspace rep false s]: every maximal
    run of characters of the class [p] becomes [rep]; [in_run] tells that the
    previous character was in the class. *)
Fixpoint sub_runs (p : ascii -> bool) (rep : string) (in_run : bool)
    (s : string) : string :=
  match s with
  | EmptyString => EmptyString
  | String c r =>
      if p c
      then (if in_run then sub_runs p rep true r
            else rep +:+ sub_runs p rep true r)
      else String c (sub_runs p rep false r)
  end.

Fixpoint starts_with (p s : string) : bool :=
  match p, s with
  | EmptyString, _ => true
  | String a p', String b s' => bool_decide (a = b) && starts_with p' s'
  | String _ _, EmptyString => false
  end.

(** [sub in s] *)
Fixpoint contains (sub s : string) : bool :=
  starts_with sub s ||
  match s with
  | EmptyString => false
  | String _ r => contains sub r
  end.

(** [s.endswith(suf)] *)
Fixpoint ends_with (suf s : string) : bool :=
  bool_decide (s = suf) ||
  match s with
  | EmptyString => false
  | String _ r => ends_with suf r
  end.

Fixpoint str_take (n : nat) (s : string) : string :=
  match n, s with
  | S n', String c r => String c (str_take n' r)
  | _, _ => EmptyString
  end.

(** [s[n:]] *)
Fixpoint str_drop (n : nat) (s : string) : string :=
  match n, s with
  | S n', String _ r => str_drop n' r
  | _, _ => s
  end.

Fixpoint join (sep : string) (l : list string) : string :=
  match l with
  | [] => EmptyString
  | [x] => x
  | x :: r => x +:+ sep +:+ join sep r
  end.

(** The longest prefix of characters of the class [p], and the rest. *)
Fixpoint span (p : ascii -> bool) (s : string) : string * string :=
  match s with
  | EmptyString => (EmptyString, EmptyString)
  | String c r =>
      if p c then let '(a, b) := span p r in (String c a, b)
      else (EmptyString, s)
  end.

(** [s] without the prefix [p], when it starts with it. *)
Fixpoint after_prefix (p s : string) : option string :=
  match p, s with
  | EmptyString, _ => Some s
  | String a p', String b s' =>
      if bool_decide (a = b) then after_prefix p' s' else None
  | String _ _, EmptyString => None
  end.

(** [int] of a string of decimal digits, after the value [acc] of the
    digits already read. *)
Fixpoint int_of_digits (acc : Z) (s : string) : Z :=
  match s with
  | EmptyString => acc
  | String c r => int_of_digits (10 * acc + (Z.of_N (code c) - 48)) r
  end.

(** Decimal numeral of a natural number, as [str(n)] and [f"{n}"]. *)
Definition str_of_nat (n : nat) : string :=
  NilZero.string_of_uint (Nat.to_uint n).

(** [s or d] on an optional string: [None] and [""] are both false. *)
Definition or_str (s : option string) (d : string) : string :=
  match s with
  | Some x => if nonempty x then x else d
  | None => d
  end.

(** ** Dates *)

Record date : Type := mkDate { year : Z; month : Z; day : Z }.

#[global] Instance date_eq_dec : EqDecision date.
Proof. solve_decision. Defined.

Fixpoint zeros (n : nat) : string :=
  match n with
  | O => EmptyString
  | S k => String "0" (zeros k)
  end.

(** [%0<width>d] applied to the numeral [s]. *)
Definition zero_pad (width : nat) (s : string) : string :=
  zeros (width - String.length s) +:+ s.

(** [date.isoformat()]: [%04d-%02d-%02d]. *)
Definition isoformat (d : date) : string :=
  zero_pad 4 (str_of_nat (Z.to_nat (year d))) +:+ "-" +:+
  zero_pad 2 (str_of_nat (Z.to_nat (month d))) +:+ "-" +:+
  zero_pad 2 (str_of_nat (Z.to_nat (day d))).

(** ** JSON values

    The values that [json.loads] returns: [None], [bool], [int], [float],
    [str], [list] and [dict] (whose keys are strings). *)

#[warnings="-register-all"] Inductive json : Type :=
| JNull
| JBool (b : bool)
| JInt (n : Z)
| JFloat (f : float)
| JStr (s : string)
| JArr (l : list json)
| JObj (m : gmap string json).

(** Truth value of a JSON value: [None], [False], zero and the empty
    string, list and dict are false. *)
Definition truthy_json (v : json) : bool :=
  match v with
  | JNull => false
  | JBool b => b
  | JInt n => negb (n =? 0)
  | JFloat f => negb (PrimFloat.eqb f 0%float)
  | JStr s => nonempty s
  | JArr l => match l with [] => false | _ :: _ => true end
  | JObj m => negb (bool_decide (m = ∅))
  end.

(** An optional string as a JSON value. *)
Definition json_of_str (v : option string) : json :=
  match v with
  | Some s => JStr s
  | None => JNull
  end.

(** ** The Python standard library

    The parsers of [datetime] and [float], [urllib.parse], [json] and the
    text of a value in an f-string are operations of this class: a
    computation that can raise returns a [res].  The laws are the
    documented one of [unquote], that a string with no percent sign has no
    escape and is returned as it is, and that the text of a string is the
    string. *)

Class PyLib : Type := {
  (** [datetime.strptime(s, fmt).date()] *)
  strptime : string -> string -> res date;
  (** [datetime.fromisoformat(s).date()] *)
  fromisoformat : string -> res date;
  (** [float(t)] *)
  py_float : string -> res float;
  (** [json.loads(s)] *)
  json_loads : string -> res json;
  (** [f"{v}"] *)
  py_str : json -> string;
  (** [urllib.parse.unquote] *)
  unquote : string -> string;
  (** [urllib.parse.urlparse(url).path] *)
  urlparse_path : string -> string;
  unquote_plain : forall s, contains "%" s = false -> unquote s = s;
  py_str_str : forall s, py_str (JStr s) = s
}.

(** ** SHA-1 ([hashlib.sha1]) over bytes, words as [Z] modulo 2^32 *)

Module SHA1.

Definition w32 (x : Z) : Z := x mod 2 ^ 32.

Definition rotl (n : Z) (x : Z) : Z :=
  w32 (Z.lor (Z.shiftl x n) (Z.shiftr x (32 - n))).

Definition lnot32 (x : Z) : Z := Z.lxor x (2 ^ 32 - 1).

(** Big-endian bytes of [x], [n] of them. *)
Fixpoint be_bytes (n : nat) (x : Z) : list Z :=
  match n with
  | O => []
  | S n' => Z.shiftr x (8 * Z.of_nat n') mod 256 :: be_bytes n' x
  end.

Definition pad (msg : list Z) : list Z :=
  let len := Z.of_nat (length msg) in
  let zeros := Z.to_nat ((55 - len) mod 64) in
  msg ++ [128] ++ repeat 0 zeros ++ be_bytes 8 (8 * len).

Fixpoint be_word (bs : list Z) : Z :=
  match bs with
  | [] => 0
  | b :: r => Z.lor (Z.shiftl b (8 * Z.of_nat (length r))) (be_word r)
  end.

(** The 16 words of a 64-byte block. *)
Fixpoint block_words (n : nat) (bs : list Z) : list Z :=
  match n with
  | O => []
  | S n' => be_word (take 4 bs) :: block_words n' (drop 4 bs)
  end.

(** Message schedule; [rev_w] holds the words so far, the latest first. *)
Fixpoint schedule (n : nat) (rev_w : list Z) : list Z :=
  match n with
  | O => rev rev_w
  | S n' =>
      let w :=
        rotl 1 (Z.lxor (Z.lxor (nth 2 rev_w 0) (nth 7 rev_w 0))
                       (Z.lxor (nth 13 rev_w 0) (nth 15 rev_w 0))) in
      schedule n' (w :: rev_w)
  end.

Definition state : Type := Z * Z * Z * Z * Z.

Definition round (t : Z) (st : state) (w : Z) : state :=
  let '(a, b, c, d, e) := st in
  let '(f, k) :=
    if t <? 20 then (Z.lor (Z.land b c) (Z.land (lnot32 b) d), 1518500249)
    else if t <? 40 then (Z.lxor (Z.lxor b c) d, 1859775393)
    else if t <? 60 then
      (Z.lor (Z.lor (Z.land b c) (Z.land b d)) (Z.land c d), 2400959708)
    else (Z.lxor (Z.lxor b c) d, 3395469782) in
  (w32 (rotl 5 a + f + e + k + w), a, rotl 30 b, c, d).

Fixpoint rounds (t : Z) (st : state) (ws : list Z) : state :=
  match ws with
  | [] => st
  | w :: r => rounds (t + 1) (round t st w) r
  end.

Definition compress (h : state) (block : list Z) : state :=
  let ws := schedule 64 (rev (block_words 16 block)) in
  let '(a, b, c, d, e) := rounds 0 h ws in
  let '(h0, h1, h2, h3, h4) := h in
  (w32 (h0 + a), w32 (h1 + b), w32 (h2 + c), w32 (h3 + d), w32 (h4 + e)).

Fixpoint blocks (n : nat) (h : state) (bs : list Z) : state :=
  match n with
  | O => h
  | S n' => blocks n' (compress h (take 64 bs)) (drop 64 bs)
  end.

Definition init : state :=
  (1732584193, 4023233417, 2562383102, 271733878, 3285377520).

Definition digest (msg : list Z) : state :=
  let p := pad msg in blocks (length p / 64)%nat init p.

Definition hex_digit (x : Z) : ascii :=
  if x <? 10 then ascii_of_N (Z.to_N (48 + x))
  else ascii_of_N (Z.to_N (87 + x)).

Fixpoint hex (n : nat) (x : Z) : string :=
  match n with
  | O => EmptyString
  | S n' =>
      String (hex_digit (Z.shiftr x (4 * Z.of_nat n') mod 16)) (hex n' x)
  end.

(** [hashlib.sha1(msg).hexdigest()] *)
Definition hexdigest (msg : list Z) : string :=
  let '(h0, h1, h2, h3, h4) := digest msg in
  hex 8 h0 +:+ hex 8 h1 +:+ hex 8 h2 +:+ hex 8 h3 +:+ hex 8 h4.

End SHA1.

(** [s.encode("utf-8")] for code points below 256. *)
Fixpoint encode_utf8 (s : string) : list Z :=
  match s with
  | EmptyString => []
  | String c r =>
      let n := Z.of_N (code c) in
      if n <? 128 then n :: encode_utf8 r
      else Z.lor 192 (Z.shiftr n 6) :: Z.lor 128 (Z.land n 63)
             :: encode_utf8 r
  end.

(** ** Items, as [ItemAdapter(item).asdict()] gives them to the pipeline *)

(** The value under ["files"]: the list the files pipeline stored, or its
    JSON serialisation. *)
Inductive files_value : Type :=
| FilesList (l : list (gmap string string))
| FilesStr (s : string).

Module Item.

Record t : Type := mk {
  security_name : option string;
  exchange_platform : option string;
  type_of_issue : option string;
  type_of_issue_long : option string;
  issue_status : option string;
  security_type : option string;
  start_date : option string;
  end_date : option string;
  offer_price : option string;
  price_min : option string;
  price_max : option string;
  face_value : option string;
  list_url : option string;
  detail_url : option string;
  details : gmap string string;
  pdf_links : list (gmap string string);
  links : list (gmap string string);
  files : files_value
}.

End Item.

(** ** [pipelines_compact_r2.py] *)

Module Pipeline.

Section WithLibrary.
Context `{PyLib}.

(** [slugify]: strip, delete every character that is neither a word
    character, white space nor a hyphen, turn each white-space run into one
    hyphen, strip hyphens, and fall back to ["unknown"]. *)
Definition slugify (s : option string) : string :=
  let s := strip isspace (or_str s "") in
  let s := str_filter (fun c => isword c || isspace c || is_hyphen c) s in
  let s := strip is_hyphen (sub_runs isspace "-" false s) in
  or_str (Some s) "unknown".

Definition date_formats : list string :=
  ["%Y-%m-%d"; "%d-%m-%Y"; "%d/%m/%Y"; "%d %b %Y"; "%d %B %Y"].

(** The loop [for fmt in (...): try: return strptime(s, fmt).date()
    except Exception: pass], followed by [rest]. *)
Fixpoint try_formats (s : string) (fmts : list string)
    (rest : res (option date)) : res (option date) :=
  match fmts with
  | [] => rest
  | fmt :: fmts' =>
      try_except (d ← strptime s fmt; mret (Some d)) (try_formats s fmts' rest)
  end.

Definition to_iso_date (s : option string) : res (option date) :=
  match s with
  | None => mret None
  | Some s =>
      if is_empty s then mret None
      else
        let s := strip isspace s in
        try_formats s date_formats
          (try_except (d ← fromisoformat s; mret (Some d)) (mret None))
  end.

Definition coerce_float (s : option string) : res (option float) :=
  match s with
  | None => mret None
  | Some s =>
      let t :=
        str_filter
          (fun c => isdecimal c || bool_decide (c = "."%char) || is_hyphen c) s in
      try_except
        (if nonempty t then f ← py_float t; mret (Some f) else mret None)
        (mret None)
  end.

Definition guess_ext_from_url (url : string) : string :=
  let path := lower (urlparse_path url) in
  if ends_with ".pdf" path then ".pdf"
  else if ends_with ".docx" path then ".docx"
  else if ends_with ".xlsx" path then ".xlsx"
  else if ends_with ".xls" path then ".xls"
  else ".bin".

(** The [ctx] dictionary that [get_media_requests] puts in a request's
    meta, and the download request itself. *)
Record ctx : Type := mkCtx {
  parent_type : option string;
  company : option string;
  dt : option string
}.

Record media_request : Type := mkMedia {
  url : string;
  meta_ctx : option ctx;
  meta_label : option string
}.

Definition empty_ctx : ctx :=
  {| parent_type := None; company := None; dt := None |}.

(** [R2FilesPipeline.file_path]; [response], [info] and [item] are the
    keyword arguments the method receives and does not read. *)
Definition file_path {R I T : Type} (request : media_request)
    (response : option R) (info : option I) (item : option T) : res string :=
  let ctx := default empty_ctx (meta_ctx request) in
  let label := or_str (Some (strip isspace (or_str (meta_label request) ""))) "document" in
  let company := or_str (company ctx) "Unknown" in
  d ← to_iso_date (dt ctx);
  let date_folder :=
    match d with
    | Some d => isoformat d
    | None => "undated"
    end in
  let comp_slug := slugify (Some company) in
  let label_slug := slugify (Some label) in
  let ext := guess_ext_from_url (url request) in
  let sh := str_take 6 (SHA1.hexdigest (encode_utf8 (url request))) in
  mret ("issues/" +:+ comp_slug +:+ "/" +:+ date_folder +:+ "/" +:+
        label_slug +:+ "_" +:+ sh +:+ ext).

(** The JSONB payload: [{"details", "pdfs", "links", "files"}]. *)
Record payload_t : Type := mkPayload {
  details : gmap string string;
  pdfs : list (gmap string json);
  links : list (gmap string string);
  files : files_value
}.

(** The mapped class [IssueCompact] (table [issues]); [id] is the serial
    primary key, [None] until the row is inserted. *)
Record IssueCompact : Type := mkIssue {
  id : option Z;
  security_name : option string;
  exchange_platform : option string;
  type_of_issue : option string;
  type_of_issue_long : option string;
  issue_status : option string;
  security_type : option string;
  start_date : option date;
  end_date : option date;
  offer_price_raw : option string;
  price_min : option float;
  price_max : option float;
  face_value : option string;
  list_url : option string;
  detail_url : option string;
  payload : payload_t
}.

Definition set_id (v : option Z) (r : IssueCompact) : IssueCompact :=
  {| id := v;
     security_name := security_name r;
     exchange_platform := exchange_platform r;
     type_of_issue := type_of_issue r;
     type_of_issue_long := type_of_issue_long r;
     issue_status := issue_status r;
     security_type := security_type r;
     start_date := start_date r;
     end_date := end_date r;
     offer_price_raw := offer_price_raw r;
     price_min := price_min r;
     price_max := price_max r;
     face_value := face_value r;
     list_url := list_url r;
     detail_url := detail_url r;
     payload := payload r |}.

Definition set_exchange_platform (v : option string) (r : IssueCompact) : IssueCompact :=
  {| id := id r;
     security_name := security_name r;
     exchange_platform := v;
     type_of_issue := type_of_issue r;
     type_of_issue_long := type_of_issue_long r;
     issue_status := issue_status r;
     security_type := security_type r;
     start_date := start_date r;
     end_date := end_date r;
     offer_price_raw := offer_price_raw r;
     price_min := price_min r;
     price_max := price_max r;
     face_value := face_value r;
     list_url := list_url r;
     detail_url := detail_url r;
     payload := payload r |}.

Definition set_type_of_issue (v : option string) (r : IssueCompact) : IssueCompact :=
  {| id := id r;
     security_name := security_name r;
     exchange_platform := exchange_platform r;
     type_of_issue := v;
     type_of_issue_long := type_of_issue_long r;
     issue_status := issue_status r;
     security_type := security_type r;
     start_date := start_date r;
     end_date := end_date r;
     offer_price_raw := offer_price_raw r;
     price_min := price_min r;
     price_max := price_max r;
     face_value := face_value r;
     list_url := list_url r;
     detail_url := detail_url r;
     payload := payload r |}.

Definition set_type_of_issue_long (v : option string) (r : IssueCompact) : IssueCompact :=
  {| id := id r;
     security_name := security_name r;
     exchange_platform := exchange_platform r;
     type_of_issue := type_of_issue r;
     type_of_issue_long := v;
     issue_status := issue_status r;
     security_type := security_type r;
     start_date := start_date r;
     end_date := end_date r;
     offer_price_raw := offer_price_raw r;
     price_min := price_min r;
     price_max := price_max r;
     face_value := face_value r;
     list_url := list_url r;
     detail_url := detail_url r;
     payload := payload r |}.

Definition set_issue_status (v : option string) (r : IssueCompact) : IssueCompact :=
  {| id := id r;
     security_name := security_name r;
     exchange_platform := exchange_platform r;
     type_of_issue := type_of_issue r;
     type_of_issue_long := type_of_issue_long r;
     issue_status := v;
     security_type := security_type r;
     start_date := start_date r;
     end_date := end_date r;
     offer_price_raw := offer_price_raw r;
     price_min := price_min r;
     price_max := price_max r;
     face_value := face_value r;
     list_url := list_url r;
     detail_url := detail_url r;
     payload := payload r |}.

Definition set_security_type (v : option string) (r : IssueCompact) : IssueCompact :=
  {| id := id r;
     security_name := security_name r;
     exchange_platform := exchange_platform r;
     type_of_issue := type_of_issue r;
     type_of_issue_long := type_of_issue_long r;
     issue_status := issue_status r;
     security_type := v;
     start_date := start_date r;
     end_date := end_date r;
     offer_price_raw := offer_price_raw r;
     price_min := price_min r;
     price_max := price_max r;
     face_value := face_value r;
     list_url := list_url r;
     detail_url := detail_url r;
     payload := payload r |}.

Definition set_offer_price_raw (v : option string) (r : IssueCompact) : IssueCompact :=
  {| id := id r;
     security_name := security_name r;
     exchange_platform := exchange_platform r;
     type_of_issue := type_of_issue r;
     type_of_issue_long := type_of_issue_long r;
     issue_status := issue_status r;
     security_type := security_type r;
     start_date := start_date r;
     end_date := end_date r;
     offer_price_raw := v;
     price_min := price_min r;
     price_max := price_max r;
     face_value := face_value r;
     list_url := list_url r;
     detail_url := detail_url r;
     payload := payload r |}.

Definition set_price_min (v : option float) (r : IssueCompact) : IssueCompact :=
  {| id := id r;
     security_name := security_name r;
     exchange_platform := exchange_platform r;
     type_of_issue := type_of_issue r;
     type_of_issue_long := type_of_issue_long r;
     issue_status := issue_status r;
     security_type := security_type r;
     start_date := start_date r;
     end_date := end_date r;
     offer_price_raw := offer_price_raw r;
     price_min := v;
     price_max := price_max r;
     face_value := face_value r;
     list_url := list_url r;
     detail_url := detail_url r;
     payload := payload r |}.

Definition set_price_max (v : option float) (r : IssueCompact) : IssueCompact :=
  {| id := id r;
     security_name := security_name r;
     exchange_platform := exchange_platform r;
     type_of_issue := type_of_issue r;
     type_of_issue_long := type_of_issue_long r;
     issue_status := issue_status r;
     security_type := security_type r;
     start_date := start_date r;
     end_date := end_date r;
     offer_price_raw := offer_price_raw r;
     price_min := price_min r;
     price_max := v;
     face_value := face_value r;
     list_url := list_url r;
     detail_url := detail_url r;
     payload := payload r |}.

Definition set_face_value (v : option string) (r : IssueCompact) : IssueCompact :=
  {| id := id r;
     security_name := security_name r;
     exchange_platform := exchange_platform r;
     type_of_issue := type_of_issue r;
     type_of_issue_long := type_of_issue_long r;
     issue_status := issue_status r;
     security_type := security_type r;
     start_date := start_date r;
     end_date := end_date r;
     offer_price_raw := offer_price_raw r;
     price_min := price_min r;
     price_max := price_max r;
     face_value := v;
     list_url := list_url r;
     detail_url := detail_url r;
     payload := payload r |}.

Definition set_list_url (v : option string) (r : IssueCompact) : IssueCompact :=
  {| id := id r;
     security_name := security_name r;
     exchange_platform := exchange_platform r;
     type_of_issue := type_of_issue r;
     type_of_issue_long := type_of_issue_long r;
     issue_status := issue_status r;
     security_type := security_type r;
     start_date := start_date r;
     end_date := end_date r;
     offer_price_raw := offer_price_raw r;
     price_min := price_min r;
     price_max := price_max r;
     face_value := face_value r;
     list_url := v;
     detail_url := detail_url r;
     payload := payload r |}.

Definition set_payload (v : payload_t) (r : IssueCompact) : IssueCompact :=
  {| id := id r;
     security_name := security_name r;
     exchange_platform := exchange_platform r;
     type_of_issue := type_of_issue r;
     type_of_issue_long := type_of_issue_long r;
     issue_status := issue_status r;
     security_type := security_type r;
     start_date := start_date r;
     end_date := end_date r;
     offer_price_raw := offer_price_raw r;
     price_min := price_min r;
     price_max := price_max r;
     face_value := face_value r;
     list_url := list_url r;
     detail_url := detail_url r;
     payload := v |}.

(** Truth value of an attribute: [None], [""] and [0.0] are false. *)
Definition truthy_str (v : option string) : bool :=
  match v with
  | Some s => nonempty s
  | None => false
  end.

Definition truthy_float (v : option float) : bool :=
  match v with
  | Some f => negb (PrimFloat.eqb f 0%float)
  | None => false
  end.

(** The names in the tuple that the update loop of [process_item] walks. *)
Inductive column : Type :=
| c_exchange_platform
| c_type_of_issue
| c_type_of_issue_long
| c_issue_status
| c_security_type
| c_offer_price_raw
| c_price_min
| c_price_max
| c_face_value
| c_list_url.

Definition overwritten_columns : list column :=
  [c_exchange_platform;
   c_type_of_issue;
   c_type_of_issue_long;
   c_issue_status;
   c_security_type;
   c_offer_price_raw;
   c_price_min;
   c_price_max;
   c_face_value;
   c_list_url].

(** One turn of the loop: [val = getattr(obj, f)] and
    [if val: setattr(existing, f, val)]. *)
Definition overwrite (obj existing : IssueCompact) (f : column) : IssueCompact :=
  match f with
  | c_exchange_platform =>
      if truthy_str (exchange_platform obj) then set_exchange_platform (exchange_platform obj) existing else existing
  | c_type_of_issue =>
      if truthy_str (type_of_issue obj) then set_type_of_issue (type_of_issue obj) existing else existing
  | c_type_of_issue_long =>
      if truthy_str (type_of_issue_long obj) then set_type_of_issue_long (type_of_issue_long obj) existing else existing
  | c_issue_status =>
      if truthy_str (issue_status obj) then set_issue_status (issue_status obj) existing else existing
  | c_security_type =>
      if truthy_str (security_type obj) then set_security_type (security_type obj) existing else existing
  | c_offer_price_raw =>
      if truthy_str (offer_price_raw obj) then set_offer_price_raw (offer_price_raw obj) existing else existing
  | c_price_min =>
      if truthy_float (price_min obj) then set_price_min (price_min obj) existing else existing
  | c_price_max =>
      if truthy_float (price_max obj) then set_price_max (price_max obj) existing else existing
  | c_face_value =>
      if truthy_str (face_value obj) then set_face_value (face_value obj) existing else existing
  | c_list_url =>
      if truthy_str (list_url obj) then set_list_url (list_url obj) existing else existing
  end.

(** The table [issues]: its rows and the next value of the [id] sequence. *)
Record database : Type := mkDb {
  rows : list IssueCompact;
  next_id : Z
}.

Definition empty_db : database := {| rows := []; next_id := 1 |}.

(** The identity of a row: the four columns of [uq_issue_identity]. *)
Definition identity (r : IssueCompact)
  : option string * option date * option date * option string :=
  (security_name r, start_date r, end_date r, detail_url r).

(** [sess.query(IssueCompact).filter(...)]: the four comparisons with
    [obj]'s attributes.  A comparison with a value selects the rows whose
    column equals it, one with [None] the rows whose column is null, so the
    conjunction is equality of identities. *)
Definition query_identity (obj : IssueCompact) (db : database)
  : list IssueCompact :=
  filter (fun r => identity r = identity obj) (rows db).

(** [Query.one_or_none] *)
Definition one_or_none {A} (l : list A) : res (option A) :=
  match l with
  | [] => mret None
  | [x] => mret (Some x)
  | _ :: _ :: _ => Raise MultipleResultsFound
  end.

(** The unique constraint [uq_issue_identity] refuses a row whose identity,
    all four parts non-null, is already stored; null parts never conflict. *)
Definition unique_conflict (obj : IssueCompact) (db : database) : bool :=
  bool_decide (is_Some (security_name obj)) && bool_decide (is_Some (start_date obj))
  && bool_decide (is_Some (end_date obj)) && bool_decide (is_Some (detail_url obj))
  && bool_decide (Exists (fun r => identity r = identity obj) (rows db)).

Definition is_space (c : ascii) : bool := bool_decide (c = " "%char).

(** The value that a column declared [String(n)] (VARCHAR(n)) takes from a
    text: the text when it has at most [n] characters; its first [n]
    characters when all the characters after them are spaces; the statement
    is refused otherwise ("value too long for type character varying"). *)
Definition varchar (n : nat) (v : option string) : res (option string) :=
  match v with
  | None => mret None
  | Some s =>
      if (String.length s <=? n)%nat then mret (Some s)
      else if str_all is_space (str_drop n s) then mret (Some (str_take n s))
      else Raise DataError
  end.

(** The values of a row as the columns of [issues] take them: the eight
    [String(n)] columns at their declared lengths; [Text], [Date], [Float]
    and [JSONB] columns keep what they are given. *)
Definition column_values (r : IssueCompact) : res IssueCompact :=
  security_name' ← varchar 512 (security_name r);
  exchange_platform' ← varchar 128 (exchange_platform r);
  type_of_issue' ← varchar 64 (type_of_issue r);
  type_of_issue_long' ← varchar 128 (type_of_issue_long r);
  issue_status' ← varchar 128 (issue_status r);
  security_type' ← varchar 64 (security_type r);
  offer_price_raw' ← varchar 64 (offer_price_raw r);
  face_value' ← varchar 64 (face_value r);
  mret {| id := id r;
          security_name := security_name';
          exchange_platform := exchange_platform';
          type_of_issue := type_of_issue';
          type_of_issue_long := type_of_issue_long';
          issue_status := issue_status';
          security_type := security_type';
          start_date := start_date r;
          end_date := end_date r;
          offer_price_raw := offer_price_raw';
          price_min := price_min r;
          price_max := price_max r;
          face_value := face_value';
          list_url := list_url r;
          detail_url := detail_url r;
          payload := payload r |}.

(** [sess.add(obj); sess.commit()]: the INSERT, and the value it leaves in
    the sequence of [id].  A text that is too long for its column is
    refused when the statement is planned, before a value is taken from
    the sequence.  Otherwise the row takes the next value, and the
    constraints are checked on it: [security_name] is [nullable=False],
    and [uq_issue_identity]; a value taken by a refused row is not given
    back. *)
Definition insert (obj : IssueCompact) (db : database) : res database * Z :=
  match column_values obj with
  | Raise e => (Raise e, next_id db)
  | Ret row =>
      let row := set_id (Some (next_id db)) row in
      if negb (bool_decide (is_Some (security_name row)))
      then (Raise IntegrityError, next_id db + 1)
      else if unique_conflict row db then (Raise IntegrityError, next_id db + 1)
      else (Ret {| rows := rows db ++ [row]; next_id := next_id db + 1 |},
            next_id db + 1)
  end.

(** [sess.commit()] after the attributes of a loaded row were set: the
    UPDATE of the row with that primary key, refused when a text is too
    long for its column. *)
Definition update (existing : IssueCompact) (db : database) : res database :=
  row ← column_values existing;
  mret {| rows := (fun r => if bool_decide (id r = id row) then row else r)
                    <$> rows db;
          next_id := next_id db |}.

Record pipeline : Type := mkPipeline { r2_public_baseurl : string }.

(** [for f in files_info]: the values that the loop walks.  A list gives
    its elements, a dict its keys and a string its characters; the other
    values are not iterable. *)
Definition iterate (v : json) : res (list json) :=
  match v with
  | JArr l => mret l
  | JObj m => mret (JStr <$> (map_to_list m).*1)
  | JStr s => mret ((fun c => JStr (String c EmptyString)) <$> list_ascii_of_string s)
  | JNull | JBool _ | JInt _ | JFloat _ => Raise TypeError
  end.

(** One turn of the loop: [url, key = f.get("url"), f.get("path")] and
    [if url and key: url_to_key[url] = key].  Only a dict has [get]; a list
    or a dict is no key of a dict.  The dictionary is read at the URLs of
    the PDF links, which are strings: the model keeps its entries under
    strings, and leaves out an entry under a number or [True], which no
    string equals. *)
Definition record_file (url_to_key : gmap string json) (f : json)
  : res (gmap string json) :=
  match f with
  | JObj m =>
      match m !! "url", m !! "path" with
      | Some url, Some key =>
          if truthy_json url && truthy_json key then
            match url with
            | JStr u => mret (<[u := key]> url_to_key)
            | JArr _ | JObj _ => Raise TypeError
            | JNull | JBool _ | JInt _ | JFloat _ => mret url_to_key
            end
          else mret url_to_key
      | _, _ => mret url_to_key
      end
  | JNull | JBool _ | JInt _ | JFloat _ | JStr _ | JArr _ => Raise AttributeError
  end.

Fixpoint walk_files (url_to_key : gmap string json) (files_info : list json)
  : res (gmap string json) :=
  match files_info with
  | [] => mret url_to_key
  | f :: r => url_to_key ← record_file url_to_key f; walk_files url_to_key r
  end.

(** The value under ["files"] as the loop of [_url_to_key] sees it: the
    list that the files pipeline stored, or what [json.loads] reads in its
    serialisation, [[]] when it reads nothing. *)
Definition files_json (v : files_value) : json :=
  match v with
  | FilesList l => JArr ((fun f : gmap string string => JObj (JStr <$> f)) <$> l)
  | FilesStr s =>
      if is_empty s then JArr []
      else match json_loads s with
           | Ret v => v
           | Raise _ => JArr []
           end
  end.

Definition _url_to_key (item : Item.t) : res (gmap string json) :=
  files_info ← iterate (files_json (Item.files item));
  walk_files ∅ files_info.

Definition pdf_entry (self : pipeline) (url_to_key : gmap string json)
    (d : gmap string string) : gmap string json :=
  let u := d !! "url" in
  let key := u ≫= (fun u => url_to_key !! u) in
  let cloud_url :=
    match key with
    | Some k =>
        if truthy_json k && nonempty (r2_public_baseurl self)
        then JStr (r2_public_baseurl self +:+ "/" +:+ py_str k) else JNull
    | None => JNull
    end in
  <["label" := json_of_str (d !! "label")]>
    (<["url" := json_of_str u]>
       (<["cloud_key" := default JNull key]> {["cloud_url" := cloud_url]})).

(** [files or []] *)
Definition files_or_empty (v : files_value) : files_value :=
  match v with
  | FilesStr s => if is_empty s then FilesList [] else v
  | FilesList _ => v
  end.

Definition build_payload (self : pipeline) (item : Item.t) : res payload_t :=
  url_to_key ← _url_to_key item;
  mret {| details := Item.details item;
          pdfs := pdf_entry self url_to_key <$> Item.pdf_links item;
          links := Item.links item;
          files := files_or_empty (Item.files item) |}.

(** The [IssueCompact(...)] object that [process_item] builds from the item. *)
Definition build_obj (self : pipeline) (item : Item.t) : res IssueCompact :=
  payload ← build_payload self item;
  sd ← to_iso_date (Item.start_date item);
  ed ← to_iso_date (Item.end_date item);
  pmin ← coerce_float (Item.price_min item);
  pmax ← coerce_float (Item.price_max item);
  mret {| id := None;
          security_name := Item.security_name item;
          exchange_platform := Item.exchange_platform item;
          type_of_issue := Item.type_of_issue item;
          type_of_issue_long := Item.type_of_issue_long item;
          issue_status := Item.issue_status item;
          security_type := Item.security_type item;
          start_date := sd;
          end_date := ed;
          offer_price_raw := Item.offer_price item;
          price_min := pmin;
          price_max := pmax;
          face_value := Item.face_value item;
          list_url := Item.list_url item;
          detail_url := Item.detail_url item;
          payload := payload |}.

(** The branch [if existing: ...]: the loop over the allow-listed columns
    and [existing.payload = obj.payload]. *)
Definition merge_existing (obj existing : IssueCompact) : IssueCompact :=
  set_payload (payload obj) (foldl (overwrite obj) existing overwritten_columns).

(** The object and the row that the query finds for it. *)
Definition lookup (self : pipeline) (item : Item.t) (db : database)
  : res (IssueCompact * option IssueCompact) :=
  obj ← build_obj self item;
  existing ← one_or_none (query_identity obj db);
  mret (obj, existing).

(** The body of the [try] block, up to [sess.commit()]: the table that is
    committed or the exception, and the value left in the sequence. *)
Definition upsert (self : pipeline) (item : Item.t) (db : database)
  : res database * Z :=
  match lookup self item db with
  | Ret (obj, Some existing) => (update (merge_existing obj existing) db, next_id db)
  | Ret (obj, None) => insert obj db
  | Raise e => (Raise e, next_id db)
  end.

(** [IssuesCompactDBPipeline.process_item]: the item comes back when the
    transaction commits; on an exception the session is rolled back, which
    leaves the rows as they were (the sequence is outside the
    transaction), and the exception is raised again. *)
Definition process_item (self : pipeline) (item : Item.t) (db : database)
  : res Item.t * database :=
  match upsert self item db with
  | (Ret db', _) => (Ret item, db')
  | (Raise e, seq) => (Raise e, {| rows := rows db; next_id := seq |})
  end.

End WithLibrary.

End Pipeline.

(** ** [scrapy.Request]

    [Request(url, ...)] keeps the URL in escaped form ([safe_url_string]
    of w3lib, then [escape_ajax]) and raises [ValueError] when that form
    has no scheme.  What the escaping changes depends on the versions of
    Scrapy and w3lib: the URL that a request keeps, or the exception, is
    the operation of this class. *)

Class Scrapy : Type := {
  request_url : string -> res string
}.

(** ** [R2FilesPipeline.get_media_requests] *)

Module R2FilesPipeline.

(** The item as the files pipeline reads it: besides the keys of [Item.t],
    the keys ["documents"] and ["file_urls"]; a key that is absent or
    [None] is the empty list. *)
Record item : Type := mkItem {
  fields : Item.t;
  documents : list (gmap string string);
  file_urls : list string
}.

(** The loops [for k in ("pdf_links", "documents"): for d in ...:
    if d.get("url"): label_for_url[d["url"]] = d.get("label") or ""]. *)
Definition label_for_url (it : item) : gmap string string :=
  foldl (fun (label_for_url : gmap string string) (d : gmap string string) =>
           match d !! "url" with
           | Some u =>
               if nonempty u then <[u := or_str (d !! "label") ""]> label_for_url
               else label_for_url
           | None => label_for_url
           end)
        ∅ (Item.pdf_links (fields it) ++ documents it).

(** The order of [str]: code point by code point. *)
Definition str_le (a b : string) : Prop := String.leb a b = true.

#[global] Instance str_le_dec : RelDecision str_le.
Proof. intros a b. unfold str_le. apply _. Defined.

(** [sorted] of a set of strings. *)
Definition sorted (s : gset string) : list string := merge_sort str_le (elements s).

(** What a generator with the body [for x in l: yield f(x)] gives to the
    one that walks it: the values yielded, and the exception that ends the
    walk when a call of [f] raises. *)
Fixpoint yield_each {A B} (f : A -> res B) (l : list A) : list B * option exn :=
  match l with
  | [] => ([], None)
  | x :: r =>
      match f x with
      | Ret y => let '(ys, e) := yield_each f r in (y :: ys, e)
      | Raise e => ([], Some e)
      end
  end.

Section WithScrapy.
Context `{Scrapy}.

(** [get_media_requests]: a request for each distinct non-empty URL under
    ["file_urls"], in ascending order, as long as [Request] accepts the
    URLs. *)
Definition get_media_requests (it : item)
  : list Pipeline.media_request * option exn :=
  let label_for_url := label_for_url it in
  let file_urls : gset string := list_to_set (List.filter nonempty (file_urls it)) in
  let ctx :=
    {| Pipeline.parent_type := Some "issue";
       Pipeline.company := Some (or_str (Item.security_name (fields it)) "Unknown");
       Pipeline.dt :=
         Some (or_str (Item.start_date (fields it))
                 (or_str (Item.end_date (fields it)) "")) |} in
  yield_each
    (fun url =>
       kept ← request_url url;
       mret {| Pipeline.url := kept;
               Pipeline.meta_ctx := Some ctx;
               Pipeline.meta_label := Some (or_str (label_for_url !! url) "") |})
    (sorted file_urls).

End WithScrapy.

End R2FilesPipeline.

(** ** [IssuesCompactDBPipeline.__init__] *)

Module IssuesCompactDBPipeline.

(** The two attributes that [__init__] sets; [process_item] reads the
    second. *)
Record t : Type := mk {
  database_url : option string;
  settings : Pipeline.pipeline
}.

(** [a or b] on two optional strings. *)
Definition or_opt (a b : option string) : option string :=
  if Pipeline.truthy_str a then a else b.

Definition is_slash (c : ascii) : bool := bool_decide (c = "/"%char).

(** [__init__]; [getenv] is [os.getenv]. *)
Definition __init__ (getenv : string -> option string)
    (database_url r2_public_baseurl : option string) : t :=
  {| database_url := or_opt database_url (getenv "DATABASE_URL");
     settings :=
       {| Pipeline.r2_public_baseurl :=
            rstrip is_slash
              (or_str (or_opt r2_public_baseurl (getenv "R2_PUBLIC_BASEURL")) "") |} |}.

End IssuesCompactDBPipeline.

(** ** [spiders/bse_public_issues_with_detail.py]: [to_iso] and [split_price_band] *)

(** [d.strftime("%Y-%m-%d")], which the C library writes. *)
Class PyFormat : Type := {
  strftime_ymd : date -> string
}.

Module IssuesSpider.

Section WithLibrary.
Context `{PyLib} `{PyFormat}.

Definition to_iso (dmy : string) : string :=
  match strptime (strip isspace dmy) "%d-%m-%Y" with
  | Ret d => strftime_ymd d
  | Raise _ => strip isspace dmy
  end.

End WithLibrary.

(** The class [[-â€“]] of the source: of its four characters, the hyphen
    and U+00E2 are code points below 256. *)
Definition is_band_separator (c : ascii) : bool :=
  is_hyphen c || (code c =? 226)%N.

(** [re.split] on a class of single characters: the pieces between the
    characters of the class. *)
Fixpoint split_on (p : ascii -> bool) (s : string) : list string :=
  match s with
  | EmptyString => [EmptyString]
  | String c r =>
      if p c then EmptyString :: split_on p r
      else match split_on p r with
           | x :: l => String c x :: l
           | [] => [String c EmptyString]
           end
  end.

(** [split_price_band]: the two ends of the band, [None] for Python's
    [None]. *)
Definition split_price_band (s : option string) : option string * option string :=
  let s := strip isspace (or_str s "") in
  if is_empty s then (None, None)
  else
    let parts := strip isspace <$> split_on is_band_separator s in
    match parts with
    | [x] => (Some x, Some x)
    | _ => (head parts, last parts)
    end.

End IssuesSpider.

(** ** [spiders/bse_ipo_process_status.py] *)

Module Spider.

(** *** The document

    A selector on a [table] element is modelled by the rows of the table
    and the links in it: a row is its [th] and [td] cells in document order,
    a cell the text nodes below it, a link its [href] attribute. *)

Inductive cell_tag : Type := Th | Td.

Record cell : Type := mkCell { tag : cell_tag; texts : list string }.

Record table : Type := mkTable {
  trs : list (list cell);
  anchors : list string
}.

(** A response: its URL, the hidden [input] elements that have a [name]
    (with their [value] attribute, if any), and the elements of the page in
    document order, each either an element with its string value or a
    table. *)
Inductive node : Type :=
| Element (string_value : string)
| Table (t : table).

Record response : Type := mkResponse {
  url : string;
  hidden_inputs : list (string * option string);
  body : list node
}.

Definition is_th (c : cell) : bool :=
  match tag c with Th => true | Td => false end.

Definition is_td (c : cell) : bool :=
  match tag c with Td => true | Th => false end.

(** XPath's [normalize-space]. *)
Definition normalize_space (s : string) : string :=
  sub_runs xml_space " " false (strip xml_space s).

(** The predicate [[normalize-space()]] on a text node. *)
Definition not_blank (s : string) : bool := nonempty (normalize_space s).

Definition _norm (s : string) : string :=
  sub_runs isspace " " false (strip isspace s).

(** [re.sub(r":\s*$", "", s)]: the leftmost colon that only white space
    follows is removed with what follows it. *)
Fixpoint drop_final_colon (s : string) : string :=
  match s with
  | EmptyString => EmptyString
  | String c r =>
      if bool_decide (c = ":"%char) && str_all isspace r then EmptyString
      else String c (drop_final_colon r)
  end.

Definition _clean_header (s : string) : string :=
  drop_final_colon (sub_runs isspace " " false (strip isspace s)).

(** *** [_parse_table] *)

Inductive value : Type :=
| VStr (s : string)
| VInt (n : Z).

(** [.//tr[th]//th//text()[normalize-space()]] *)
Definition th_texts (t : table) : list string :=
  r ← List.filter (existsb is_th) (trs t);
  c ← List.filter is_th r;
  List.filter not_blank (texts c).

(** [.//tr[td]] *)
Definition data_rows (t : table) : list (list cell) :=
  List.filter (existsb is_td) (trs t).

(** [./td] of a row *)
Definition tds (r : list cell) : list cell := List.filter is_td r.

(** [rows[0].xpath("./td//text()[normalize-space()]")], cleaned. *)
Definition first_row_candidates (rows : list (list cell)) : list string :=
  match rows with
  | [] => []
  | r :: _ =>
      _clean_header <$> (c ← tds r; List.filter not_blank (texts c))
  end.

(** The header names [_parse_table] settles on: the [th] texts, or else
    the texts of the first row when one of them has a letter. *)
Definition resolve_headers (t : table) : list string :=
  let headers := _clean_header <$> th_texts t in
  match headers with
  | _ :: _ => headers
  | [] =>
      let cand := first_row_candidates (data_rows t) in
      if existsb (str_any ascii_letter) cand then cand else headers
  end.

(** [all(first_cells[i].lower() == headers[i].lower() for i in range(len(headers)))]
    for two lists of the same length. *)
Fixpoint all_equal_lower (first_cells headers : list string) : bool :=
  match first_cells, headers with
  | a :: r, b :: r' => bool_decide (lower a = lower b) && all_equal_lower r r'
  | _, _ => true
  end.

Definition first_cells (r : list cell) : list string :=
  (fun td => _clean_header (join " " (texts td))) <$> tds r.

Definition drop_first (headers : list string) (rows : list (list cell)) : bool :=
  match headers, rows with
  | _ :: _, r :: _ =>
      bool_decide (length (first_cells r) = length headers)
      && all_equal_lower (first_cells r) headers
  | _, _ => false
  end.

Definition row_cells (r : list cell) : list string :=
  (fun td => _norm (join " " (texts td))) <$> tds r.

(** [headers[i] if i < len(headers) and headers[i] else f"col_{i+1}"] *)
Definition key_for (headers : list string) (i : nat) : string :=
  match headers !! i with
  | Some h => if nonempty h then h else "col_" +:+ str_of_nat (i + 1)
  | None => "col_" +:+ str_of_nat (i + 1)
  end.

(** The loop [for i, val in enumerate(cells): item[key] = val], from
    position [i] on. *)
Fixpoint fill_columns (headers : list string) (i : nat) (cells : list string)
    (item : gmap string value) : gmap string value :=
  match cells with
  | [] => item
  | val :: r =>
      fill_columns headers (S i) r (<[key_for headers i := VStr val]> item)
  end.

Definition row_columns (headers cells : list string) : gmap string value :=
  fill_columns headers 0 cells ∅.

Definition add_provenance (section_index : Z) (section_title : string)
    (page_index : Z) (source_url : string) (item : gmap string value)
  : gmap string value :=
  <["source_url" := VStr source_url]>
    (<["page_index" := VInt page_index]>
       (<["section_title" := VStr section_title]>
          (<["section" := VInt section_index]> item))).

(** The rows that the loop of [_parse_table] walks: [rows[start_idx:]]. *)
Definition walked_rows (t : table) : list (list cell) :=
  let rows := data_rows t in
  if drop_first (resolve_headers t) rows then drop 1 rows else rows.

(** [if not any(cells): continue] keeps the rows with a non-empty cell. *)
Definition not_blank_row (r : list cell) : bool :=
  existsb nonempty (row_cells r).

Definition _parse_table (table_sel : table) (section_index : Z)
    (section_title : string) (page_index : Z) (resp : response)
  : list (gmap string value) :=
  let headers := resolve_headers table_sel in
  (fun r => add_provenance section_index section_title page_index (url resp)
              (row_columns headers (row_cells r)))
    <$> List.filter not_blank_row (walked_rows table_sel).

(** *** [_pick_section_table] *)

(** The attributes of the spider object that the callbacks write:
    [_fallback_table_chosen] is [None] as long as the attribute is not set
    ([hasattr] is false). *)
Record spider : Type := mkSpider { _fallback_table_chosen : option table }.

Definition new_spider : spider := {| _fallback_table_chosen := None |}.

(** Truth value of a list. *)
Definition nonnil {A} (l : list A) : bool :=
  match l with
  | [] => false
  | _ :: _ => true
  end.

(** [.//a[contains(@href, '__doPostBack')]/@href] *)
Definition postback_hrefs (t : table) : list string :=
  List.filter (contains "__doPostBack") (anchors t).

Definition has_rows (t : table) : bool := nonnil (data_rows t).
Definition has_pager (t : table) : bool := nonnil (postback_hrefs t).

(** The tables after the first node of [nodes], at most [n] of them:
    [following::table[position()<=n]]. *)
Fixpoint following_tables (n : nat) (nodes : list node) : list table :=
  match n, nodes with
  | O, _ => []
  | _, [] => []
  | S n', Table t :: r => t :: following_tables n' r
  | _, Element _ :: r => following_tables n r
  end.

(** [(//*[normalize-space(.)='<title>'])[1]/following::table[position()<=4]] *)
Fixpoint candidates (title : string) (nodes : list node) : list table :=
  match nodes with
  | [] => []
  | Element v :: r =>
      if bool_decide (normalize_space v = title) then following_tables 4 r
      else candidates title r
  | Table _ :: r => candidates title r
  end.

(** The heading is on the page. *)
Definition heading_present (title : string) (resp : response) : Prop :=
  Exists (fun n => match n with
                   | Element v => normalize_space v = title
                   | Table _ => False
                   end) (body resp).

(** The loop over the candidates and the final [getattr(self,
    "_fallback_table_chosen", None)]. *)
Fixpoint pick_loop (self : spider) (cands : list table)
  : option table * spider :=
  match cands with
  | [] => (_fallback_table_chosen self, self)
  | t :: r =>
      if has_rows t then
        if has_pager t then (Some t, self)
        else
          match _fallback_table_chosen self with
          | None => pick_loop {| _fallback_table_chosen := Some t |} r
          | Some _ => pick_loop self r
          end
      else pick_loop self r
  end.

Definition _pick_section_table (self : spider) (resp : response)
    (section_title : string) : option table * spider :=
  pick_loop self (candidates (_norm section_title) (body resp)).

(** *** [_extract_pager] *)

Definition is_quote (c : ascii) : bool :=
  bool_decide (c = "'"%char) || bool_decide (c = "034"%char).

Definition after_quote (s : string) : option string :=
  match s with
  | String c r => if is_quote c then Some r else None
  | EmptyString => None
  end.

(** A group [([^'\x22]+)] and the quote that closes it. *)
Definition quoted_group (s : string) : option (string * string) :=
  let '(g, r) := span (fun c => negb (is_quote c)) s in
  if nonempty g then r' ← after_quote r; Some (g, r') else None.

(** The pattern
    [__doPostBack\((?:'|\x22)([^'\x22]+)(?:'|\x22),(?:'|\x22)([^'\x22]+)(?:'|\x22)\)]
    matched at the start of [s]: the two groups. *)
Definition match_postback (s : string) : option (string * string) :=
  r ← after_prefix "__doPostBack(" s;
  r ← after_quote r;
  '(g1, r) ← quoted_group r;
  r ← after_prefix "," r;
  r ← after_quote r;
  '(g2, r) ← quoted_group r;
  _ ← after_prefix ")" r;
  Some (g1, g2).

(** [re.search] of that pattern: the leftmost match. *)
Fixpoint search_postback (s : string) : option (string * string) :=
  match match_postback s with
  | Some m => Some m
  | None =>
      match s with
      | EmptyString => None
      | String _ r => search_postback r
      end
  end.

(** [re.search(r"Page\$(\d+)", arg)]: the digits of the leftmost match. *)
Fixpoint search_page_number (arg : string) : option string :=
  match after_prefix "Page$" arg with
  | Some r =>
      let '(digits, _) := span isdecimal r in
      if nonempty digits then Some digits
      else match arg with
           | EmptyString => None
           | String _ r' => search_page_number r'
           end
  | None =>
      match arg with
      | EmptyString => None
      | String _ r' => search_page_number r'
      end
  end.

Record pager : Type := mkPager {
  target : option string;
  pages : list Z;
  has_next : bool
}.

(** [sorted] of a set of integers. *)
Definition sorted (s : gset Z) : list Z := merge_sort Z.le (elements s).

Section WithLibrary.
Context `{PyLib}.

Fixpoint _extract_target_from_postback_list (hrefs : list string)
  : option string :=
  match hrefs with
  | [] => None
  | href :: r =>
      match search_postback href with
      | Some (g1, _) => Some (unquote g1)
      | None => _extract_target_from_postback_list r
      end
  end.

(** One turn of the loop over the links: the page set and the flag. *)
Definition scan_href (st : gset Z * bool) (href : string) : gset Z * bool :=
  let '(pages, has_next) := st in
  match search_postback href with
  | None => (pages, has_next)
  | Some (_, g2) =>
      let arg := unquote g2 in
      let pages :=
        match search_page_number arg with
        | Some digits => {[ int_of_digits 0 digits ]} ∪ pages
        | None => pages
        end in
      (pages, if contains "Page$Next" arg then true else has_next)
  end.

Definition _extract_pager (table_sel : table) : pager :=
  let hrefs := postback_hrefs table_sel in
  let target := _extract_target_from_postback_list hrefs in
  let '(pages, has_next) := foldl scan_href (∅, false) hrefs in
  let pages := if bool_decide (pages = ∅) then {[ 1 ]} else pages in
  {| target := target; pages := sorted pages; has_next := has_next |}.

(** *** Requests *)

Inductive callback : Type :=
| cb_parse_section_page
| cb_parse_section_next.

(** The [cb_kwargs] of a request; [seen] is the set object that the
    requests of one Next chain share, absent from the numeric requests. *)
Record cb_kwargs : Type := mkKwargs {
  section_index : Z;
  section_title : string;
  gv_target : string;
  page_index : Z;
  seen : option (gset Z)
}.

Record request : Type := mkRequest {
  req_url : string;
  formdata : gmap string string;
  req_callback : callback;
  req_kwargs : cb_kwargs
}.

(** [val(name)]: the [value] of the first hidden input of that name that
    has one, or [""]. *)
Fixpoint hidden_val (name : string) (inputs : list (string * option string))
  : string :=
  match inputs with
  | [] => ""
  | (n, Some v) :: r => if bool_decide (n = name) then v else hidden_val name r
  | (_, None) :: r => hidden_val name r
  end.

Definition is_state_field (n : string) : bool :=
  bool_decide (n = "__VIEWSTATE") || bool_decide (n = "__VIEWSTATEGENERATOR")
  || bool_decide (n = "__EVENTVALIDATION").

Definition _collect_aspnet_hidden_fields (resp : response)
  : gmap string string :=
  let data : gmap string string :=
    <["__EVENTVALIDATION" := hidden_val "__EVENTVALIDATION" (hidden_inputs resp)]>
      (<["__VIEWSTATEGENERATOR" := hidden_val "__VIEWSTATEGENERATOR" (hidden_inputs resp)]>
         {["__VIEWSTATE" := hidden_val "__VIEWSTATE" (hidden_inputs resp)]}) in
  foldl (fun (data : gmap string string) (inp : string * option string) =>
           let '(n, v) := inp in
           if is_state_field n then data
           else if nonempty n && bool_decide (data !! n = None)
                then <[n := default "" v]> data else data)
        data (hidden_inputs resp).

Definition _make_postback_request (resp : response) (event_target : string)
    (event_argument : string) (cb : callback) (kwargs : cb_kwargs) : request :=
  let formdata := _collect_aspnet_hidden_fields resp in
  let formdata := <["__EVENTTARGET" := or_str (Some event_target) ""]> formdata in
  let formdata := <["__EVENTARGUMENT" := or_str (Some event_argument) ""]> formdata in
  {| req_url := url resp; formdata := formdata;
     req_callback := cb; req_kwargs := kwargs |}.

(** [f"Page${p}"] *)
Definition str_of_Z (n : Z) : string :=
  if n <? 0 then "-" +:+ str_of_nat (Z.to_nat (- n)) else str_of_nat (Z.to_nat n).

Definition page_argument (p : Z) : string := "Page$" +:+ str_of_Z p.

(** What a callback yields. *)
Inductive output : Type :=
| Item (item : gmap string value)
| Req (r : request).

Definition SECTION_TITLES : list string :=
  ["1. Draft offer document under process at BSE:";
   "2. Draft Offer Document in relation to which clarifications are sought by the Exchange and respond BSE from Issuer is awaited:";
   "3. Document in relation to which in-principal Approval issued during the fortnight:";
   "4. List of documents which have been withdrawn/ returned by the Exchange during the fortnight."].

(** The request for the numeric page [p] of a section. *)
Definition numeric_request (resp : response) (section_index : Z)
    (section_title gv_target : string) (p : Z) : request :=
  _make_postback_request resp gv_target (page_argument p)
    cb_parse_section_page
    {| section_index := section_index; section_title := section_title;
       gv_target := gv_target; page_index := p; seen := None |}.

Definition next_request (resp : response) (section_index : Z)
    (section_title gv_target : string) (p : Z) (seen : gset Z) : request :=
  _make_postback_request resp gv_target "Page$Next"
    cb_parse_section_next
    {| section_index := section_index; section_title := section_title;
       gv_target := gv_target; page_index := p; seen := Some seen |}.

(** The body of the loop of [parse] for one section.  ([parse] first puts
    an empty set under ["seen_pages"] in the response's meta; nothing reads
    it.) *)
Definition parse_section (self : spider) (resp : response)
    (section_index : Z) (title : string) : list output * spider :=
  let '(table, self) := _pick_section_table self resp title in
  match table with
  | None => ([], self)
  | Some table =>
      let items := Item <$> _parse_table table section_index title 1 resp in
      let pager := _extract_pager table in
      match target pager with
      | None => (items, self)
      | Some tgt =>
          if is_empty tgt then (items, self)
          else
            let numeric :=
              (fun p => Req (numeric_request resp section_index title tgt p))
                <$> List.filter (fun p => 1 <? p) (pages pager) in
            let next :=
              if has_next pager
              then [Req (next_request resp section_index title tgt 2 {[ 1 ]})]
              else [] in
            ((items ++ numeric ++ next)%list, self)
      end
  end.

(** [for section_index, title in enumerate(titles, start=section_index)] *)
Fixpoint parse_sections (self : spider) (resp : response) (section_index : Z)
    (titles : list string) : list output * spider :=
  match titles with
  | [] => ([], self)
  | title :: r =>
      let '(out, self) := parse_section self resp section_index title in
      let '(out', self) := parse_sections self resp (section_index + 1) r in
      ((out ++ out')%list, self)
  end.

Definition parse (self : spider) (resp : response) : list output * spider :=
  parse_sections self resp 1 SECTION_TITLES.

Definition _parse_section_page (self : spider) (resp : response)
    (section_index : Z) (section_title gv_target : string) (page_index : Z)
  : list output * spider :=
  let '(table, self) := _pick_section_table self resp section_title in
  match table with
  | None => ([], self)
  | Some table =>
      let items :=
        Item <$> _parse_table table section_index section_title page_index resp in
      let pager := _extract_pager table in
      let numeric :=
        (fun p => Req (numeric_request resp section_index section_title gv_target p))
          <$> List.filter (fun p => page_index <? p) (pages pager) in
      ((items ++ numeric)%list, self)
  end.

(** The loop [for p in pager["pages"]: if p not in seen: seen.add(p); if p
    != page_index: yield ...] of [_parse_section_next]: the requests and
    the set afterwards. *)
Fixpoint next_numeric (resp : response) (section_index : Z)
    (section_title gv_target : string) (page_index : Z) (seen : gset Z)
    (ps : list Z) : list request * gset Z :=
  match ps with
  | [] => ([], seen)
  | p :: r =>
      if bool_decide (p ∈ seen)
      then next_numeric resp section_index section_title gv_target page_index seen r
      else
        let '(reqs, seen') :=
          next_numeric resp section_index section_title gv_target page_index
            ({[ p ]} ∪ seen) r in
        if bool_decide (p = page_index) then (reqs, seen')
        else (numeric_request resp section_index section_title gv_target p :: reqs,
              seen')
  end.

Definition _parse_section_next (self : spider) (resp : response)
    (section_index : Z) (section_title gv_target : string) (page_index : Z)
    (seen : gset Z) : list output * spider :=
  let '(table, self) := _pick_section_table self resp section_title in
  match table with
  | None => ([], self)
  | Some table =>
      let items :=
        Item <$> _parse_table table section_index section_title page_index resp in
      let pager := _extract_pager table in
      let '(numeric, seen) :=
        next_numeric resp section_index section_title gv_target page_index seen
          (pages pager) in
      let next :=
        if has_next pager then
          let next_page_index := page_index + 1 in
          let seen := {[ next_page_index ]} ∪ seen in
          [Req (next_request resp section_index section_title gv_target
                  next_page_index seen)]
        else [] in
      ((items ++ (Req <$> numeric) ++ next)%list, self)
  end.

(** *** The crawl

    The engine sends each request that a callback yields and calls the
    request's callback on the response; [serve] is the site. *)

Definition handle (self : spider) (r : request) (resp : response)
  : list output * spider :=
  let k := req_kwargs r in
  match req_callback r with
  | cb_parse_section_page =>
      _parse_section_page self resp (section_index k) (section_title k)
        (gv_target k) (page_index k)
  | cb_parse_section_next =>
      _parse_section_next self resp (section_index k) (section_title k)
        (gv_target k) (page_index k) (default ∅ (seen k))
  end.

Definition requests_of (out : list output) : list request :=
  out ≫= (fun o => match o with Req r => [r] | Item _ => [] end).

Definition items_of (out : list output) : list (gmap string value) :=
  out ≫= (fun o => match o with Item i => [i] | Req _ => [] end).

(** The requests in [queue] and all that follow from them, in the order in
    which they are sent, as far as [fuel] requests. *)
Fixpoint crawl (fuel : nat) (serve : request -> response) (self : spider)
    (queue : list request) : list request * list (gmap string value) :=
  match fuel, queue with
  | O, _ => ([], [])
  | _, [] => ([], [])
  | S fuel', r :: queue' =>
      let '(out, self) := handle self r (serve r) in
      let '(sent, items) :=
        crawl fuel' serve self (queue' ++ requests_of out)%list in
      (r :: sent, (items_of out ++ items)%list)
  end.

(** A run: [parse] on the start page, then the crawl of what it yields. *)
Definition run (fuel : nat) (serve : request -> response) (start : response)
  : list request * list (gmap string value) :=
  let '(out, self) := parse new_spider start in
  let '(sent, items) := crawl fuel serve self (requests_of out) in
  (sent, (items_of out ++ items)%list).

End WithLibrary.

End Spider.

(** ** A concrete library

    An instance of [PyLib] on which the model runs: the parsers of the C
    locale for the five date formats and for ISO dates, [float] on decimal
    numerals by exact rounding to binary64, percent-decoding of ASCII
    escapes, the path of a URL, and [json] and the f-string on the values
    that the runs below use. *)

Module PyRef.

(** *** [datetime] *)

Inductive tok : Type :=
| TDay | TMonth | TYear | TMonAbbr | TMonFull | TSpaces | TLit (c : ascii) | TBad.

Fixpoint tokens (fmt : string) : list tok :=
  match fmt with
  | EmptyString => []
  | String c r =>
      if bool_decide (c = "%"%char) then
        match r with
        | EmptyString => [TBad]
        | String d r' =>
            (if bool_decide (d = "d"%char) then TDay
             else if bool_decide (d = "m"%char) then TMonth
             else if bool_decide (d = "Y"%char) then TYear
             else if bool_decide (d = "b"%char) then TMonAbbr
             else if bool_decide (d = "B"%char) then TMonFull
             else TBad) :: tokens r'
        end
      else (if isspace c then TSpaces else TLit c) :: tokens r
  end.

Definition digit_in (lo hi : N) (c : ascii) : bool := in_range (48 + lo) (48 + hi) c.
Definition digit_val (c : ascii) : Z := Z.of_N (code c) - 48.

(** The alternatives of [%d], in the order of the pattern
    [3[0-1]|[1-2]\d|0[1-9]|[1-9]| [1-9]]: the value and what is left. *)
Definition day_alts (s : string) : list (Z * string) :=
  match s with
  | String a (String b r) =>
      (if digit_in 3 3 a && digit_in 0 1 b then [(30 + digit_val b, r)] else [])
      ++ (if digit_in 1 2 a && digit_in 0 9 b then [(10 * digit_val a + digit_val b, r)] else [])
      ++ (if digit_in 0 0 a && digit_in 1 9 b then [(digit_val b, r)] else [])
      ++ (if digit_in 1 9 a then [(digit_val a, String b r)] else [])
      ++ (if bool_decide (a = " "%char) && digit_in 1 9 b then [(digit_val b, r)] else [])
  | String a EmptyString => if digit_in 1 9 a then [(digit_val a, EmptyString)] else []
  | EmptyString => []
  end%list.

(** [1[0-2]|0[1-9]|[1-9]] *)
Definition month_alts (s : string) : list (Z * string) :=
  match s with
  | String a (String b r) =>
      (if digit_in 1 1 a && digit_in 0 2 b then [(10 + digit_val b, r)] else [])
      ++ (if digit_in 0 0 a && digit_in 1 9 b then [(digit_val b, r)] else [])
      ++ (if digit_in 1 9 a then [(digit_val a, String b r)] else [])
  | String a EmptyString => if digit_in 1 9 a then [(digit_val a, EmptyString)] else []
  | EmptyString => []
  end%list.

(** [\d\d\d\d] *)
Definition year_alts (s : string) : list (Z * string) :=
  match s with
  | String a (String b (String c (String d r))) =>
      if isdecimal a && isdecimal b && isdecimal c && isdecimal d
      then [(1000 * digit_val a + 100 * digit_val b + 10 * digit_val c + digit_val d, r)]
      else []
  | _ => []
  end.

Definition month_names : list string :=
  ["january"; "february"; "march"; "april"; "may"; "june"; "july"; "august";
   "september"; "october"; "november"; "december"].

(** The names that are a prefix of [s], compared without case, each with
    its month number and what is left. *)
Fixpoint name_alts (names : list string) (n : Z) (s : string) : list (Z * string) :=
  match names with
  | [] => []
  | name :: r =>
      (if starts_with name (lower s)
       then [(n, string_of_list_ascii (drop (String.length name) (list_ascii_of_string s)))]
       else []) ++ name_alts r (n + 1) s
  end%list.

Definition days_in_month (y m : Z) : Z :=
  if bool_decide (m = 2) then
    if (bool_decide (y mod 4 = 0) && negb (bool_decide (y mod 100 = 0)))
       || bool_decide (y mod 400 = 0) then 29 else 28
  else if bool_decide (m = 4) || bool_decide (m = 6) || bool_decide (m = 9)
          || bool_decide (m = 11) then 30
  else 31.

(** [datetime.date(y, m, d)] *)
Definition make_date (y m d : Z) : res date :=
  if (1 <=? y) && (y <=? 9999) && (1 <=? m) && (m <=? 12) && (1 <=? d)
     && (d <=? days_in_month y m)
  then Ret {| year := y; month := m; day := d |}
  else Raise ValueError.

(** The first alternative after which [k] succeeds. *)
Fixpoint first_alt {A} (alts : list (Z * string)) (k : Z -> string -> option A)
  : option A :=
  match alts with
  | [] => None
  | (v, r) :: alts' =>
      match k v r with
      | Some x => Some x
      | None => first_alt alts' k
      end
  end.

(** The match of the format's pattern at the start of [s]: year, month,
    day and what is left of [s]. *)
Fixpoint match_tokens (ts : list tok) (y m d : Z) (s : string)
  : option (Z * Z * Z * string) :=
  match ts with
  | [] => Some (y, m, d, s)
  | TDay :: ts' => first_alt (day_alts s) (fun v r => match_tokens ts' y m v r)
  | TMonth :: ts' => first_alt (month_alts s) (fun v r => match_tokens ts' y v d r)
  | TYear :: ts' => first_alt (year_alts s) (fun v r => match_tokens ts' v m d r)
  | TMonAbbr :: ts' =>
      first_alt (name_alts (str_take 3 <$> month_names) 1 s)
        (fun v r => match_tokens ts' y v d r)
  | TMonFull :: ts' =>
      first_alt (name_alts month_names 1 s) (fun v r => match_tokens ts' y v d r)
  | TSpaces :: ts' =>
      match s with
      | String c _ => if isspace c then match_tokens ts' y m d (lstrip isspace s) else None
      | EmptyString => None
      end
  | TLit c :: ts' =>
      match s with
      | String c' r =>
          if bool_decide (lower_char c' = lower_char c) then match_tokens ts' y m d r
          else None
      | EmptyString => None
      end
  | TBad :: _ => None
  end.

Definition strptime (s fmt : string) : res date :=
  match match_tokens (tokens fmt) 1900 1 1 s with
  | Some (y, m, d, EmptyString) => make_date y m d
  | _ => Raise ValueError
  end.

(** [YYYY-MM-DD] *)
Definition fromisoformat (s : string) : res date :=
  match s with
  | String y1 (String y2 (String y3 (String y4 (String h1
      (String m1 (String m2 (String h2 (String d1 (String d2 EmptyString))))))))) =>
      if isdecimal y1 && isdecimal y2 && isdecimal y3 && isdecimal y4
         && is_hyphen h1 && isdecimal m1 && isdecimal m2 && is_hyphen h2
         && isdecimal d1 && isdecimal d2
      then make_date
             (1000 * digit_val y1 + 100 * digit_val y2 + 10 * digit_val y3 + digit_val y4)
             (10 * digit_val m1 + digit_val m2) (10 * digit_val d1 + digit_val d2)
      else Raise ValueError
  | _ => Raise ValueError
  end.

(** *** [float] *)

(** [n / 10^k] rounded to the nearest binary64 number, ties to even. *)
Definition decimal_float (negative : bool) (n : Z) (k : nat) : float :=
  match n with
  | Z.pos m =>
      SF2Prim (SFdiv 53 1024 (S754_finite negative m 0)
                 (S754_finite false (Z.to_pos (10 ^ Z.of_nat k)) 0))
  | _ => SF2Prim (S754_zero negative)
  end.

(** [float(t)] for a numeral [[-]digits[.digits]] with a digit in it. *)
Definition py_float (t : string) : res float :=
  let '(negative, t) :=
    match t with
    | String c r => if is_hyphen c then (true, r) else (false, t)
    | EmptyString => (false, t)
    end in
  let '(int_part, r) := span isdecimal t in
  let '(frac_part, r) :=
    match r with
    | String c r' => if bool_decide (c = "."%char) then span isdecimal r' else (EmptyString, r)
    | EmptyString => (EmptyString, r)
    end in
  if is_empty r && nonempty (int_part +:+ frac_part)
  then Ret (decimal_float negative (int_of_digits 0 (int_part +:+ frac_part))
              (String.length frac_part))
  else Raise ValueError.

(** *** [urllib.parse] *)

Definition hex_val (c : ascii) : option N :=
  if isdecimal c then Some (code c - 48)%N
  else if in_range 65 70 c then Some (code c - 55)%N
  else if in_range 97 102 c then Some (code c - 87)%N
  else None.

(** Percent-decoding of the escapes [%00] to [%7F]. *)
Fixpoint unquote (s : string) : string :=
  match s with
  | EmptyString => EmptyString
  | String c t =>
      match t with
      | String a (String b r) =>
          match (if bool_decide (c = "%"%char) then
                   x ← hex_val a; y ← hex_val b;
                   if (16 * x + y <? 128)%N then Some (ascii_of_N (16 * x + y)) else None
                 else None) with
          | Some d => String d (unquote r)
          | None => String c (unquote t)
          end
      | _ => String c (unquote t)
      end
  end.

Definition scheme_char (c : ascii) : bool :=
  ascii_letter c || isdecimal c || bool_decide (c = "+"%char) || is_hyphen c
  || bool_decide (c = "."%char).

Definition uses_params : list string :=
  [""; "ftp"; "hdl"; "prospero"; "http"; "imap"; "https"; "shttp"; "rtsp";
   "rtspu"; "sip"; "sips"; "mms"; "sftp"; "tel"].

(** [url[:i]] of [_splitparams]: the part before the first semicolon of
    the last segment. *)
Fixpoint without_params (s : string) : string :=
  match s with
  | EmptyString => EmptyString
  | String c r =>
      if contains "/" s then String c (without_params r)
      else fst (span (fun c => negb (bool_decide (c = ";"%char))) s)
  end.

(** [urlparse(url).path]: the URL without its scheme, network location,
    fragment, query and parameters. *)
Definition urlparse_path (url : string) : string :=
  let '(scheme, rest) :=
    let '(sch, r) := span scheme_char url in
    match sch, r with
    | String c _, String colon r' =>
        if ascii_letter c && bool_decide (colon = ":"%char) then (lower sch, r')
        else (EmptyString, url)
    | _, _ => (EmptyString, url)
    end in
  let rest :=
    match after_prefix "//" rest with
    | Some r =>
        snd (span (fun c => negb (bool_decide (c = "/"%char) || bool_decide (c = "?"%char)
                                  || bool_decide (c = "#"%char))) r)
    | None => rest
    end in
  let rest := fst (span (fun c => negb (bool_decide (c = "#"%char))) rest) in
  let rest := fst (span (fun c => negb (bool_decide (c = "?"%char))) rest) in
  if bool_decide (scheme ∈ uses_params) then without_params rest else rest.

(** [json.loads] on the texts [[]] and [{}] between white space of JSON
    (space, tab, line feed and carriage return, which is that of XML);
    other texts are not decoded. *)
Definition json_loads (s : string) : res json :=
  if bool_decide (strip xml_space s = "[]") then Ret (JArr [])
  else if bool_decide (strip xml_space s = "{}") then Ret (JObj ∅)
  else Raise ValueError.

Definition bool_text (b : bool) : string := if b then "True" else "False".

Definition int_text (n : Z) : string :=
  match n with
  | Z.neg p => "-" +:+ str_of_nat (Pos.to_nat p)
  | _ => str_of_nat (Z.to_nat n)
  end.

(** [f"{v}"] for [None], a [bool], an [int] and a [str]; the texts of the
    other values are not written. *)
Definition py_str (v : json) : string :=
  match v with
  | JNull => "None"
  | JBool b => bool_text b
  | JInt n => int_text n
  | JStr s => s
  | JFloat _ | JArr _ | JObj _ => ""
  end.

Lemma unquote_plain (s : string) : contains "%" s = false -> unquote s = s.
Proof.
  induction s as [|c t IH]; [reflexivity|].
  cbn [contains starts_with]. intros Hc.
  apply orb_false_elim in Hc as [Hc Ht].
  rewrite andb_true_r in Hc. apply bool_decide_eq_false in Hc.
  assert (Hne : bool_decide (c = "%"%char) = false)
    by (apply bool_decide_eq_false; congruence).
  cbn [unquote]. rewrite Hne.
  destruct t as [|a [|b r]]; rewrite ?IH; auto.
Qed.

Definition lib : PyLib :=
  Build_PyLib strptime fromisoformat py_float json_loads py_str unquote
    urlparse_path unquote_plain (fun s => eq_refl).

(** *** [strftime]

    [strftime("%Y-%m-%d")] as glibc writes it: the year is not padded. *)

Definition strftime_ymd (d : date) : string :=
  str_of_nat (Z.to_nat (year d)) +:+ "-" +:+
  zero_pad 2 (str_of_nat (Z.to_nat (month d))) +:+ "-" +:+
  zero_pad 2 (str_of_nat (Z.to_nat (day d))).

Definition format_lib : PyFormat := Build_PyFormat strftime_ymd.

End PyRef.

(** ** Vocabulary of the statements *)

(** The parsers that [to_iso_date] tries on [s], in its order. *)
Definition attempts `{PyLib} (s : string) : list (res date) :=
  (strptime s <$> Pipeline.date_formats) ++ [fromisoformat s].

(** The value of the first attempt that does not raise. *)
Fixpoint first_ok {A} (l : list (res A)) : option A :=
  match l with
  | [] => None
  | Ret a :: _ => Some a
  | Raise _ :: r => first_ok r
  end.

Definition raises {A} (m : res A) : Prop := exists e, m = Raise e.

(** The states of the table that the statements range over: primary keys
    are set, distinct and below the sequence, [security_name] is not null,
    and every text is as its column keeps it. *)
Record db_ok (db : Pipeline.database) : Prop := mk_db_ok {
  ok_ids : NoDup (Pipeline.id <$> Pipeline.rows db);
  ok_seq : forall r, r ∈ Pipeline.rows db ->
             exists i, Pipeline.id r = Some i /\ i < Pipeline.next_id db;
  ok_name : forall r, r ∈ Pipeline.rows db -> is_Some (Pipeline.security_name r);
  ok_values : forall r, r ∈ Pipeline.rows db -> Pipeline.column_values r = Ret r
}.

(** No two rows of the table have the same identity. *)
Definition identity_unique (db : Pipeline.database) : Prop :=
  NoDup (Pipeline.identity <$> Pipeline.rows db).

(** The stored rows of an identity. *)
Definition stored (k : option string * option date * option date * option string)
    (db : Pipeline.database) : list Pipeline.IssueCompact :=
  filter (fun r => Pipeline.identity r = k) (Pipeline.rows db).

#[global] Instance column_eq_dec : EqDecision Pipeline.column.
Proof. solve_decision. Defined.

(** The value of an allow-listed column, and its truth value. *)
Inductive attr : Type :=
| AStr (v : option string)
| AFloat (v : option float).

Definition getattr (r : Pipeline.IssueCompact) (f : Pipeline.column) : attr :=
  match f with
  | Pipeline.c_exchange_platform => AStr (Pipeline.exchange_platform r)
  | Pipeline.c_type_of_issue => AStr (Pipeline.type_of_issue r)
  | Pipeline.c_type_of_issue_long => AStr (Pipeline.type_of_issue_long r)
  | Pipeline.c_issue_status => AStr (Pipeline.issue_status r)
  | Pipeline.c_security_type => AStr (Pipeline.security_type r)
  | Pipeline.c_offer_price_raw => AStr (Pipeline.offer_price_raw r)
  | Pipeline.c_price_min => AFloat (Pipeline.price_min r)
  | Pipeline.c_price_max => AFloat (Pipeline.price_max r)
  | Pipeline.c_face_value => AStr (Pipeline.face_value r)
  | Pipeline.c_list_url => AStr (Pipeline.list_url r)
  end.

Definition truthy (a : attr) : bool :=
  match a with
  | AStr v => Pipeline.truthy_str v
  | AFloat v => Pipeline.truthy_float v
  end.

(** An incoming value that is null or the empty string. *)
Definition empty_attr (a : attr) : Prop := a = AStr None \/ a = AStr (Some "") \/ a = AFloat None.

(** The declared length of an allow-listed column: [String(n)] has one,
    [Float] and [Text] have none. *)
Definition width (f : Pipeline.column) : option nat :=
  match f with
  | Pipeline.c_exchange_platform => Some 128%nat
  | Pipeline.c_type_of_issue => Some 64%nat
  | Pipeline.c_type_of_issue_long => Some 128%nat
  | Pipeline.c_issue_status => Some 128%nat
  | Pipeline.c_security_type => Some 64%nat
  | Pipeline.c_offer_price_raw => Some 64%nat
  | Pipeline.c_price_min => None
  | Pipeline.c_price_max => None
  | Pipeline.c_face_value => Some 64%nat
  | Pipeline.c_list_url => None
  end.

(** The value that the column [f] takes from [a], or the refusal. *)
Definition store (f : Pipeline.column) (a : attr) : res attr :=
  match width f, a with
  | Some n, AStr v =>
      match Pipeline.varchar n v with
      | Ret v' => Ret (AStr v')
      | Raise e => Raise e
      end
  | _, _ => Ret a
  end.

(** The text has at most [n] characters. *)
Definition within (n : nat) (v : option string) : Prop :=
  forall s, v = Some s -> (String.length s <= n)%nat.

(** The value fits the column [f]. *)
Definition fits (f : Pipeline.column) (a : attr) : Prop :=
  match width f, a with
  | Some n, AStr v => within n v
  | _, _ => True
  end.

(** The name of the item is not longer than the column [security_name]. *)
Definition name_fits (item : Item.t) : Prop := within 512 (Item.security_name item).

(** The row holds the record [obj] as the columns keep it: the row is as
    stored, its payload is the record's, and each true value of the record
    is in its column. *)
Definition settled (obj row : Pipeline.IssueCompact) : Prop :=
  Pipeline.column_values row = Ret row
  /\ Pipeline.payload row = Pipeline.payload obj
  /\ forall f, truthy (getattr obj f) = true ->
       store f (getattr obj f) = Ret (getattr row f).

(** The columns that the update loop never writes. *)
Definition key_columns (r : Pipeline.IssueCompact)
  : option Z * option string * option date * option date * option string :=
  (Pipeline.id r, Pipeline.security_name r, Pipeline.start_date r,
   Pipeline.end_date r, Pipeline.detail_url r).

(** What a postback link says: [links_page href n] when its argument, once
    unquoted, holds the page number [n]; [links_next href] when it holds
    [Page$Next]. *)
Definition links_page `{PyLib} (href : string) (n : Z) : Prop :=
  exists g1 g2 digits,
    Spider.search_postback href = Some (g1, g2)
    /\ Spider.search_page_number (unquote g2) = Some digits
    /\ n = int_of_digits 0 digits.

Definition links_next `{PyLib} (href : string) : Prop :=
  exists g1 g2,
    Spider.search_postback href = Some (g1, g2)
    /\ contains "Page$Next" (unquote g2) = true.

(** The record that [_parse_table] yields for the row [r]. *)
Definition row_record (headers : list string) (section_index : Z)
    (section_title : string) (page_index : Z) (source_url : string)
    (r : list Spider.cell) : gmap string Spider.value :=
  Spider.add_provenance section_index section_title page_index source_url
    (Spider.row_columns headers (Spider.row_cells r)).

Definition provenance_keys : list string :=
  ["section"; "section_title"; "page_index"; "source_url"].

(** The keys that the cells at positions [0 .. n-1] are stored under. *)
Definition cell_keys (headers : list string) (n : nat) : list string :=
  Spider.key_for headers <$> seq 0 n.

(** [re.search(r"[A-Za-z]", c)] finds a letter. *)
Definition has_letter (c : string) : bool := str_any ascii_letter c.

(** The heading of a section is on the page. *)
Definition heading_present_on (section_title : string) (resp : Spider.response)
  : Prop :=
  Spider.heading_present (Spider._norm section_title) resp.

(** The page that a request asks for, as its callback will label it. *)
Definition page_of (r : Spider.request) : Z := Spider.page_index (Spider.req_kwargs r).

(** The table after the pipeline processed [items] in turn. *)
Definition process_items `{PyLib} (self : Pipeline.pipeline) (items : list Item.t)
    (db : Pipeline.database) : Pipeline.database :=
  foldl (fun db item => snd (Pipeline.process_item self item db)) db items.

Definition is_hex (c : ascii) : bool := isdecimal c || in_range 97 102 c.

Definition known_suffixes : list string := [".pdf"; ".docx"; ".xlsx"; ".xls"].


(** The last element of [l] that satisfies [p]. *)
Definition last_with {A} (p : A -> bool) (l : list A) : option A :=
  last (List.filter p l).

(** The entry [d] names the URL [u]. *)
Definition names_url (u : string) (d : gmap string string) : bool :=
  bool_decide (d !! "url" = Some u).

Definition str_lt (a b : string) : Prop := String.ltb a b = true.

(** The text has no [/]: as a path it is one component. *)
Definition no_slash (s : string) : bool :=
  str_all (fun c => negb (bool_decide (c = "/"%char))) s.





(** Every white-space character of [s] is a space that a character other
    than white space follows. *)
Fixpoint spaced (s : string) : bool :=
  match s with
  | EmptyString => true
  | String c r =>
      (if isspace c
       then bool_decide (c = " "%char)
            && match r with
               | String c' _ => negb (isspace c')
               | EmptyString => false
               end
       else true)
      && spaced r
  end.

(** The text is in the form [_norm] gives: no white space at either end,
    and no white space inside but single spaces. *)
Definition single_spaced (t : string) : Prop :=
  strip isspace t = t
  /\ str_all (fun c => negb (isspace c) || bool_decide (c = " "%char)) t = true
  /\ contains "  " t = false.

(** A table that [_pick_section_table] returns at once: it has data rows
    and pager links. *)
Definition paged (t : Spider.table) : bool := Spider.has_rows t && Spider.has_pager t.

(** The section index [si] and the title [st] belong together. *)
Definition labelled (si : Z) (st : string) : Prop :=
  1 <= si /\ Spider.SECTION_TITLES !! Z.to_nat (si - 1) = Some st.

Definition request_labelled (r : Spider.request) : Prop :=
  labelled (Spider.section_index (Spider.req_kwargs r))
    (Spider.section_title (Spider.req_kwargs r)).

Definition item_labelled (item : gmap string Spider.value) : Prop :=
  exists si st,
    item !! "section" = Some (Spider.VInt si)
    /\ item !! "section_title" = Some (Spider.VStr st)
    /\ labelled si st.

(** A request of the Next chain of the section titled [st]. *)
Definition next_of (st : string) (r : Spider.request) : Prop :=
  Spider.req_callback r = Spider.cb_parse_section_next
  /\ Spider.section_title (Spider.req_kwargs r) = st.

(** What a callback yields for a labelled section is labelled. *)
Definition outputs_labelled (out : list Spider.output) : Prop :=
  Forall request_labelled (Spider.requests_of out)
  /\ Forall item_labelled (Spider.items_of out).

(** The link of a pager to the page [p], as ASP.NET writes it and as
    [_make_postback_request] posts it. *)
Definition page_link (event_target : string) (p : Z) : string :=
  "javascript:__doPostBack('" +:+ event_target +:+ "','"
  +:+ Spider.page_argument p +:+ "')".

(** The text can stand between quotes and needs no escape. *)
Definition plain (s : string) : bool :=
  str_all (fun c => negb (Spider.is_quote c) && negb (bool_decide (c = "%"%char))) s.

(** The pager of every table of the page shows no page above [N]. *)
Definition pages_up_to `{PyLib} (N : Z) (t : Spider.table) : Prop :=
  Forall (fun p => p <= N) (Spider.pages (Spider._extract_pager t)).

Definition page_up_to `{PyLib} (N : Z) (resp : Spider.response) : Prop :=
  forall t, Spider.Table t ∈ Spider.body resp -> pages_up_to N t.

(** A bound on the requests that follow from a numeric request for page
    [p] when no pager shows a page above [N]: each page above [p] can be
    asked for from each page below it. *)
Definition weight (N : Z) (r : Spider.request) : nat :=
  2 ^ Z.to_nat (N - page_of r).

(** A character that does not separate the ends of a price band. *)
Definition in_band (c : ascii) : bool := negb (IssuesSpider.is_band_separator c).

(** [s] ends with a character of the class [p]. *)
Fixpoint ends_in (p : ascii -> bool) (s : string) : bool :=
  match s with
  | EmptyString => false
  | String c EmptyString => p c
  | String _ r => ends_in p r
  end.

(** The characters that [coerce_float] keeps: the class [[\d.\-]]. *)
Definition numeric_char (c : ascii) : bool :=
  isdecimal c || bool_decide (c = "."%char) || is_hyphen c.



(** The words [w], [w1], [w2], ... written one after the other, each of
    the later ones after its white space. *)
Fixpoint spaced_words (w : string) (rest : list (string * string)) : string :=
  match rest with
  | [] => w
  | (gap, w') :: rest' => w +:+ gap +:+ spaced_words w' rest'
  end.

(** A non-empty text of word characters, and one of white space. *)
Definition is_word (w : string) : Prop := w <> "" /\ str_all isword w = true.

Definition is_gap (g : string) : Prop := g <> "" /\ str_all isspace g = true.

(** ** Sample inputs *)

Module Examples.

Definition self : Pipeline.pipeline :=
  {| Pipeline.r2_public_baseurl := "https://files.example.org" |}.

(** An issue with an end date that no parser reads and no detail page. *)
Definition item_acme : Item.t :=
  {| Item.security_name := Some "ACME Ltd";
     Item.exchange_platform := Some "BSE SME";
     Item.type_of_issue := Some "IPO";
     Item.type_of_issue_long := Some "IPO";
     Item.issue_status := Some "Live";
     Item.security_type := None;
     Item.start_date := Some "2024-03-05";
     Item.end_date := Some "n/a";
     Item.offer_price := Some "100 - 120";
     Item.price_min := Some "100";
     Item.price_max := Some "120";
     Item.face_value := Some "10";
     Item.list_url := None;
     Item.detail_url := None;
     Item.details := {[ "Issue Size" := "1000" ]};
     Item.pdf_links := [];
     Item.links := [];
     Item.files := FilesList [] |}.

(** The same issue scraped again: a new status, an empty platform, a price
    of zero and other details. *)
Definition item_acme_later : Item.t :=
  {| Item.security_name := Some "ACME Ltd";
     Item.exchange_platform := Some "";
     Item.type_of_issue := None;
     Item.type_of_issue_long := Some "IPO";
     Item.issue_status := Some "Closed";
     Item.security_type := None;
     Item.start_date := Some "05-03-2024";
     Item.end_date := Some "n/a";
     Item.offer_price := Some "100 - 120";
     Item.price_min := Some "0";
     Item.price_max := Some "125";
     Item.face_value := Some "10";
     Item.list_url := None;
     Item.detail_url := None;
     Item.details := {[ "Registrar" := "R" ]};
     Item.pdf_links := [];
     Item.links := [];
     Item.files := FilesList [] |}.

(** The same issue scraped once more, with a face value that is longer than
    the 64 characters of its column. *)
Definition item_acme_overlong : Item.t :=
  {| Item.security_name := Some "ACME Ltd";
     Item.exchange_platform := Some "";
     Item.type_of_issue := None;
     Item.type_of_issue_long := Some "IPO";
     Item.issue_status := Some "Closed";
     Item.security_type := None;
     Item.start_date := Some "05-03-2024";
     Item.end_date := Some "n/a";
     Item.offer_price := Some "100 - 120";
     Item.price_min := Some "0";
     Item.price_max := Some "125";
     Item.face_value :=
       Some "Rs. 10 per equity share, fully paid up, ranking pari passu in all respects";
     Item.list_url := None;
     Item.detail_url := None;
     Item.details := {[ "Registrar" := "R" ]};
     Item.pdf_links := [];
     Item.links := [];
     Item.files := FilesList [] |}.

(** An issue whose name has three spaces after its 512th character, and
    no dates. *)
Definition item_padded : Item.t :=
  {| Item.security_name := Some (zeros 512 +:+ "   ");
     Item.exchange_platform := None;
     Item.type_of_issue := None;
     Item.type_of_issue_long := None;
     Item.issue_status := None;
     Item.security_type := None;
     Item.start_date := None;
     Item.end_date := None;
     Item.offer_price := None;
     Item.price_min := None;
     Item.price_max := None;
     Item.face_value := None;
     Item.list_url := None;
     Item.detail_url := Some "https://www.bseindia.com/d/3";
     Item.details := ∅;
     Item.pdf_links := [];
     Item.links := [];
     Item.files := FilesList [] |}.

(** An item with no name. *)
Definition item_nameless : Item.t :=
  {| Item.security_name := None;
     Item.exchange_platform := Some "BSE";
     Item.type_of_issue := Some "IPO";
     Item.type_of_issue_long := None;
     Item.issue_status := None;
     Item.security_type := None;
     Item.start_date := Some "2024-03-05";
     Item.end_date := None;
     Item.offer_price := None;
     Item.price_min := None;
     Item.price_max := None;
     Item.face_value := None;
     Item.list_url := None;
     Item.detail_url := Some "https://www.bseindia.com/d/1";
     Item.details := ∅;
     Item.pdf_links := [];
     Item.links := [];
     Item.files := FilesList [] |}.


(** The row of [item_acme] once stored, and the table that holds it. *)
Definition row_acme : Pipeline.IssueCompact :=
  {| Pipeline.id := Some 1;
     Pipeline.security_name := Some "ACME Ltd";
     Pipeline.exchange_platform := Some "BSE SME";
     Pipeline.type_of_issue := Some "IPO";
     Pipeline.type_of_issue_long := Some "IPO";
     Pipeline.issue_status := Some "Live";
     Pipeline.security_type := None;
     Pipeline.start_date := Some {| year := 2024; month := 3; day := 5 |};
     Pipeline.end_date := None;
     Pipeline.offer_price_raw := Some "100 - 120";
     Pipeline.price_min := Some 100%float;
     Pipeline.price_max := Some 120%float;
     Pipeline.face_value := Some "10";
     Pipeline.list_url := None;
     Pipeline.detail_url := None;
     Pipeline.payload :=
       {| Pipeline.details := {[ "Issue Size" := "1000" ]};
          Pipeline.pdfs := [];
          Pipeline.links := [];
          Pipeline.files := FilesList [] |} |}.

Definition db_acme : Pipeline.database :=
  {| Pipeline.rows := [row_acme]; Pipeline.next_id := 2 |}.

(** The object that [process_item] builds from [item_acme_later]. *)
Definition obj_acme_later : Pipeline.IssueCompact :=
  {| Pipeline.id := None;
     Pipeline.security_name := Some "ACME Ltd";
     Pipeline.exchange_platform := Some "";
     Pipeline.type_of_issue := None;
     Pipeline.type_of_issue_long := Some "IPO";
     Pipeline.issue_status := Some "Closed";
     Pipeline.security_type := None;
     Pipeline.start_date := Some {| year := 2024; month := 3; day := 5 |};
     Pipeline.end_date := None;
     Pipeline.offer_price_raw := Some "100 - 120";
     Pipeline.price_min := Some 0%float;
     Pipeline.price_max := Some 125%float;
     Pipeline.face_value := Some "10";
     Pipeline.list_url := None;
     Pipeline.detail_url := None;
     Pipeline.payload :=
       {| Pipeline.details := {[ "Registrar" := "R" ]};
          Pipeline.pdfs := [];
          Pipeline.links := [];
          Pipeline.files := FilesList [] |} |}.

(** A table whose pager links to page 2 and to the next page. *)
Definition pager_table : Spider.table :=
  {| Spider.trs := [];
     Spider.anchors :=
       ["javascript:__doPostBack('pager1','Page$2')";
        "javascript:__doPostBack('pager1','Page$Next')"] |}.

Definition td (s : string) : Spider.cell :=
  {| Spider.tag := Spider.Td; Spider.texts := [s] |}.

Definition th (s : string) : Spider.cell :=
  {| Spider.tag := Spider.Th; Spider.texts := [s] |}.

Definition page : Spider.response :=
  {| Spider.url := "https://www.bseindia.com/markets/PublicIssues/IPOProcess_Status.aspx";
     Spider.hidden_inputs := [];
     Spider.body := [] |}.

(** Five header names over a row of seven cells. *)
Definition table_shortfall : Spider.table :=
  {| Spider.trs :=
       [[th "Sr"; th "Name"; th "Type"; th "Size"; th "Date"];
        [td "1"; td "ACME"; td "IPO"; td "100"; td "05-03-2024"; td "x"; td "y"]];
     Spider.anchors := [] |}.

(** Two columns with the same header name. *)
Definition table_same_names : Spider.table :=
  {| Spider.trs := [[th "Name"; th "Name"]; [td "ACME"; td "Beta"]];
     Spider.anchors := [] |}.

(** No header cells; a first row of two labels over a row of three cells. *)
Definition table_ragged : Spider.table :=
  {| Spider.trs := [[td "Name"; td "Code"]; [td "ACME"; td "500"; td "x"]];
     Spider.anchors := [] |}.



Definition title1 : string := "1. Draft offer document under process at BSE:".

Definition title2 : string :=
  "2. Draft Offer Document in relation to which clarifications are sought by the Exchange and respond BSE from Issuer is awaited:".

(** A data table without pager links. *)
Definition table_no_pager : Spider.table :=
  {| Spider.trs := [[th "Company"]; [td "ACME"]]; Spider.anchors := [] |}.

Definition table_no_pager_2 : Spider.table :=
  {| Spider.trs := [[th "Company"]; [td "Beta"]]; Spider.anchors := [] |}.

(** A page that has the first section only. *)
Definition page_one_section : Spider.response :=
  {| Spider.url := Spider.url page;
     Spider.hidden_inputs := [];
     Spider.body := [Spider.Element title1; Spider.Table table_no_pager] |}.

(** A page with the first two sections, each with its own table and
    neither with a pager. *)
Definition page_two_sections : Spider.response :=
  {| Spider.url := Spider.url page;
     Spider.hidden_inputs := [];
     Spider.body :=
       [Spider.Element title1; Spider.Table table_no_pager;
        Spider.Element title2; Spider.Table table_no_pager_2] |}.

(** A section of three pages whose pager links to the other two pages. *)
Definition pager_link (argument : string) : string :=
  "javascript:__doPostBack('ctl00$gv','" +:+ argument +:+ "')".

Definition table_page (company : string) (others : list string) : Spider.table :=
  {| Spider.trs := [[th "Company"]; [td company]];
     Spider.anchors := pager_link <$> others |}.

Definition site_page (company : string) (others : list string) : Spider.response :=
  {| Spider.url := Spider.url page;
     Spider.hidden_inputs := [("__VIEWSTATE", Some company)];
     Spider.body := [Spider.Element title1; Spider.Table (table_page company others)] |}.

Definition site_page1 : Spider.response := site_page "ACME" ["Page$2"; "Page$3"].
Definition site_page2 : Spider.response := site_page "Beta" ["Page$1"; "Page$3"].
Definition site_page3 : Spider.response := site_page "Gamma" ["Page$1"; "Page$2"].

(** The site: the page that the posted event argument asks for. *)
Definition site (r : Spider.request) : Spider.response :=
  match Spider.formdata r !! "__EVENTARGUMENT" with
  | Some arg =>
      if bool_decide (arg = "Page$2") then site_page2
      else if bool_decide (arg = "Page$3") then site_page3
      else site_page1
  | None => site_page1
  end.




(** A table with a data row and the link of the next page, and a page that
    shows it under the first title whatever is asked. *)
Definition table_with_next : Spider.table :=
  {| Spider.trs := [[th "Company"]; [td "ACME"]];
     Spider.anchors := [pager_link "Page$Next"] |}.

Definition page_with_next : Spider.response :=
  {| Spider.url := Spider.url page;
     Spider.hidden_inputs := [];
     Spider.body := [Spider.Element title1; Spider.Table table_with_next] |}.

End Examples.

(** * Properties *)

(** ** Characters *)

Lemma isspace_not_word c : isspace c = true -> isword c = false.
Proof. destruct c as [[] [] [] [] [] [] [] []]; vm_compute; congruence. Qed.

Lemma isspace_not_hyphen c : isspace c = true -> is_hyphen c = false.
Proof. destruct c as [[] [] [] [] [] [] [] []]; vm_compute; congruence. Qed.

Lemma hyphen_not_word c : is_hyphen c = true -> isword c = false.
Proof. destruct c as [[] [] [] [] [] [] [] []]; vm_compute; congruence. Qed.

(** ** Strings *)

Lemma is_empty_iff s : is_empty s = true <-> s = "".
Proof. destruct s; simpl; split; congruence. Qed.

Lemma nonempty_iff s : nonempty s = true <-> s <> "".
Proof. unfold nonempty. destruct s; simpl; split; congruence. Qed.

Lemma str_all_app p s t : str_all p (s +:+ t) = str_all p s && str_all p t.
Proof. induction s as [|c s IH]; simpl; [reflexivity|]. rewrite IH. apply andb_assoc. Qed.

Lemma str_filter_app p s t :
  str_filter p (s +:+ t) = str_filter p s +:+ str_filter p t.
Proof.
  induction s as [|c s IH]; simpl; [reflexivity|].
  destruct (p c); simpl; rewrite IH; reflexivity.
Qed.

Lemma str_length_app s t : String.length (s +:+ t) = (String.length s + String.length t)%nat.
Proof. induction s as [|c s IH]; simpl; [reflexivity|]. rewrite IH. reflexivity. Qed.

Lemma str_all_impl (p q : ascii -> bool) s :
  (forall c, p c = true -> q c = true) -> str_all p s = true -> str_all q s = true.
Proof.
  intros Hpq. induction s as [|c s IH]; simpl; [reflexivity|].
  intros [Hc Hs]%andb_true_iff. rewrite (Hpq _ Hc), (IH Hs). reflexivity.
Qed.

Lemma str_all_filter p s : str_all p (str_filter p s) = true.
Proof.
  induction s as [|c s IH]; simpl; [reflexivity|].
  destruct (p c) eqn:E; simpl; rewrite ?E, ?IH; reflexivity.
Qed.

Lemma str_all_lstrip p q s : str_all p s = true -> str_all p (lstrip q s) = true.
Proof.
  induction s as [|c s IH]; simpl; [reflexivity|].
  intros [Hc Hs]%andb_true_iff. destruct (q c); [auto|].
  simpl. rewrite Hc, Hs. reflexivity.
Qed.

Lemma str_all_rstrip p q s : str_all p s = true -> str_all p (rstrip q s) = true.
Proof.
  induction s as [|c s IH]; simpl; [reflexivity|].
  intros [Hc Hs]%andb_true_iff.
  destruct (is_empty (rstrip q s) && q c); [reflexivity|].
  simpl. rewrite Hc, (IH Hs). reflexivity.
Qed.

Lemma str_all_strip p q s : str_all p s = true -> str_all p (strip q s) = true.
Proof. intros. unfold strip. auto using str_all_rstrip, str_all_lstrip. Qed.

Lemma str_filter_lstrip p q s :
  (forall c, q c = true -> p c = false) -> str_filter p (lstrip q s) = str_filter p s.
Proof.
  intros Hqp. induction s as [|c s IH]; simpl; [reflexivity|].
  destruct (q c) eqn:E; [|reflexivity]. rewrite (Hqp _ E). exact IH.
Qed.

Lemma str_filter_rstrip p q s :
  (forall c, q c = true -> p c = false) -> str_filter p (rstrip q s) = str_filter p s.
Proof.
  intros Hqp. induction s as [|c s IH]; simpl; [reflexivity|].
  destruct (is_empty (rstrip q s)) eqn:E; simpl.
  - apply is_empty_iff in E. rewrite E in IH. simpl in IH.
    destruct (q c) eqn:Eq; simpl.
    + rewrite (Hqp _ Eq). exact IH.
    + rewrite E. simpl. destruct (p c); rewrite <- IH; reflexivity.
  - destruct (p c); rewrite IH; reflexivity.
Qed.

Lemma str_filter_strip p q s :
  (forall c, q c = true -> p c = false) -> str_filter p (strip q s) = str_filter p s.
Proof.
  intros. unfold strip. rewrite str_filter_rstrip, str_filter_lstrip; auto.
Qed.

Lemma str_filter_filter p q s :
  (forall c, p c = true -> q c = true) ->
  str_filter p (str_filter q s) = str_filter p s.
Proof.
  intros Hpq. induction s as [|c s IH]; simpl; [reflexivity|].
  destruct (q c) eqn:Eq; simpl.
  - rewrite IH. reflexivity.
  - destruct (p c) eqn:Ep; [|exact IH]. rewrite (Hpq _ Ep) in Eq. discriminate.
Qed.

Lemma lstrip_all p s : str_all p s = true -> lstrip p s = "".
Proof.
  induction s as [|c s IH]; simpl; [reflexivity|].
  intros [Hc Hs]%andb_true_iff. rewrite Hc. auto.
Qed.

Lemma str_all_no_filter p q s :
  str_all (fun c => p c || q c) s = true -> str_filter p s = "" ->
  str_all q s = true.
Proof.
  induction s as [|c s IH]; simpl; [reflexivity|].
  intros [Hc Hs]%andb_true_iff. destruct (p c) eqn:Ep; [discriminate|].
  simpl in Hc. intros Hf. rewrite Hc, (IH Hs Hf). reflexivity.
Qed.

(** Replacing white-space runs by hyphens leaves word characters and
    hyphens only, and keeps the word characters. *)
Lemma sub_runs_slug_chars b s :
  str_all (fun c => isword c || isspace c || is_hyphen c) s = true ->
  str_all (fun c => isword c || is_hyphen c) (sub_runs isspace "-" b s) = true.
Proof.
  revert b. induction s as [|c s IH]; intros b; simpl; [reflexivity|].
  intros [Hc Hs]%andb_true_iff.
  destruct (isspace c) eqn:Es.
  - destruct b; simpl; exact (IH true Hs).
  - simpl. rewrite (IH false Hs), andb_true_r.
    rewrite orb_false_r in Hc. exact Hc.
Qed.

Lemma sub_runs_keeps_words b s :
  str_filter isword (sub_runs isspace "-" b s) = str_filter isword s.
Proof.
  revert b. induction s as [|c s IH]; intros b; simpl; [reflexivity|].
  destruct (isspace c) eqn:Es.
  - rewrite (isspace_not_word _ Es). destruct b; simpl; exact (IH true).
  - simpl. rewrite IH. reflexivity.
Qed.
(** ** The storage key of an attachment *)

Lemma hex_digit_is_hex x : 0 <= x < 16 -> is_hex (SHA1.hex_digit x) = true.
Proof.
  intros Hx.
  assert (Hc : x = 0 \/ x = 1 \/ x = 2 \/ x = 3 \/ x = 4 \/ x = 5 \/ x = 6
               \/ x = 7 \/ x = 8 \/ x = 9 \/ x = 10 \/ x = 11 \/ x = 12
               \/ x = 13 \/ x = 14 \/ x = 15) by lia.
  repeat (destruct Hc as [->|Hc]; [reflexivity|]). subst. reflexivity.
Qed.

Lemma hex_all_hex n x : str_all is_hex (SHA1.hex n x) = true.
Proof.
  induction n as [|n IH]; simpl; [reflexivity|].
  rewrite IH, andb_true_r. apply hex_digit_is_hex. apply Z.mod_pos_bound. lia.
Qed.

Lemma hex_length n x : String.length (SHA1.hex n x) = n.
Proof. induction n as [|n IH]; simpl; congruence. Qed.

Lemma hexdigest_all_hex msg : str_all is_hex (SHA1.hexdigest msg) = true.
Proof.
  unfold SHA1.hexdigest. destruct (SHA1.digest msg) as [[[[h0 h1] h2] h3] h4].
  rewrite !str_all_app, !hex_all_hex. reflexivity.
Qed.

Lemma hexdigest_length msg : String.length (SHA1.hexdigest msg) = 40%nat.
Proof.
  unfold SHA1.hexdigest. destruct (SHA1.digest msg) as [[[[h0 h1] h2] h3] h4].
  rewrite !str_length_app, !hex_length. reflexivity.
Qed.

Lemma str_take_all p n s : str_all p s = true -> str_all p (str_take n s) = true.
Proof.
  revert s. induction n as [|n IH]; intros [|c s] Hs; simpl; try reflexivity.
  simpl in Hs. apply andb_true_iff in Hs as [Hc Hs]. rewrite Hc. simpl. auto.
Qed.

Lemma str_take_length n s :
  (n <= String.length s)%nat -> String.length (str_take n s) = n.
Proof.
  revert s. induction n as [|n IH]; intros [|c s] Hn; simpl in *;
    try reflexivity; try lia.
  rewrite IH; [reflexivity|lia].
Qed.

(** The slug before the fall-back. *)
Lemma slug_chars s :
  str_all (fun c => isword c || is_hyphen c) (Pipeline.slugify s) = true.
Proof.
  unfold Pipeline.slugify; cbv zeta; unfold or_str at 1.
  match goal with |- context [nonempty ?x] => destruct (nonempty x) end;
    [|reflexivity].
  apply str_all_strip, sub_runs_slug_chars, str_all_filter.
Qed.

Lemma slug_nonempty s : Pipeline.slugify s <> "".
Proof.
  unfold Pipeline.slugify; cbv zeta; unfold or_str at 1.
  match goal with |- context [nonempty ?x] => destruct (nonempty x) eqn:E end;
    [|discriminate].
  apply nonempty_iff, E.
Qed.

Lemma slug_words (s : string) :
  (str_filter isword s <> "" ->
   str_filter isword (Pipeline.slugify (Some s)) = str_filter isword s)
  /\ (str_filter isword s = "" -> Pipeline.slugify (Some s) = "unknown").
Proof.
  unfold Pipeline.slugify; cbv zeta.
  set (s1 := strip isspace (or_str (Some s) "")).
  set (s2 := str_filter (fun c => isword c || isspace c || is_hyphen c) s1).
  set (s3 := sub_runs isspace "-" false s2).
  assert (Hw1 : str_filter isword s1 = str_filter isword s).
  { unfold s1. rewrite str_filter_strip by apply isspace_not_word.
    unfold or_str. destruct (nonempty s) eqn:E; [reflexivity|].
    destruct s; [reflexivity|discriminate]. }
  assert (Hw : str_filter isword (strip is_hyphen s3) = str_filter isword s).
  { rewrite str_filter_strip by apply hyphen_not_word.
    unfold s3. rewrite sub_runs_keeps_words. unfold s2.
    rewrite str_filter_filter; [exact Hw1|].
    intros c ->. reflexivity. }
  assert (Hc : str_all (fun c => isword c || is_hyphen c) s3 = true).
  { apply sub_runs_slug_chars, str_all_filter. }
  unfold or_str at 1. split.
  - intros Hne. destruct (nonempty (strip is_hyphen s3)) eqn:E; [exact Hw|].
    exfalso. apply Hne. rewrite <- Hw.
    unfold nonempty in E. apply negb_false_iff, is_empty_iff in E. rewrite E. reflexivity.
  - intros He. assert (Hs : strip is_hyphen s3 = "").
    { unfold strip. rewrite lstrip_all; [reflexivity|].
      apply (str_all_no_filter isword); [exact Hc|].
      rewrite <- He, <- Hw1. unfold s3. rewrite sub_runs_keeps_words. unfold s2.
      apply str_filter_filter. intros c ->. reflexivity. }
    rewrite Hs. reflexivity.
Qed.

Lemma slug_empty_input : Pipeline.slugify None = "unknown" /\ Pipeline.slugify (Some "") = "unknown".
Proof. split; reflexivity. Qed.

Lemma guess_ext_cases `{PyLib} (u : string) :
  let path := lower (urlparse_path u) in
  let ext := Pipeline.guess_ext_from_url u in
  ext ∈ (known_suffixes ++ [".bin"])%list
  /\ (forall suf, suf ∈ known_suffixes -> ext = suf -> ends_with suf path = true)
  /\ (Forall (fun suf => ends_with suf path = false) known_suffixes -> ext = ".bin").
Proof.
  intros path ext. unfold ext, Pipeline.guess_ext_from_url, known_suffixes. fold path.
  destruct (ends_with ".pdf" path) eqn:E1; [|destruct (ends_with ".docx" path) eqn:E2;
    [|destruct (ends_with ".xlsx" path) eqn:E3; [|destruct (ends_with ".xls" path) eqn:E4]]].
  all: split; [simpl; rewrite !elem_of_cons; auto 10|split].
  all: try (intros suf Hin Heq; subst suf; first [assumption |
    repeat (apply elem_of_cons in Hin as [Hin|Hin]; [discriminate|]); inversion Hin]).
  all: try (intros Hall; repeat (apply Forall_cons in Hall as [? Hall]); congruence).
Qed.

(** ** [to_iso_date] *)

Section Dates.
Context `{PyLib}.

Lemma first_ok_app {A} (l l' : list (res A)) :
  first_ok (l ++ l') = match first_ok l with Some a => Some a | None => first_ok l' end.
Proof. induction l as [|[a|e] l IH]; simpl; auto. Qed.

Lemma try_formats_first_ok s fmts rest v :
  rest = Ret v ->
  Pipeline.try_formats s fmts rest
  = Ret (match first_ok (strptime s <$> fmts) with Some d => Some d | None => v end).
Proof.
  intros ->. induction fmts as [|fmt fmts IH]; simpl; [reflexivity|].
  destruct (strptime s fmt); simpl; [reflexivity|exact IH].
Qed.

Lemma to_iso_date_first_ok (text : string) :
  Pipeline.to_iso_date (Some text)
  = Ret (if is_empty text then None else first_ok (attempts (strip isspace text))).
Proof.
  unfold Pipeline.to_iso_date. destruct (is_empty text); [reflexivity|].
  cbv zeta. unfold attempts. rewrite first_ok_app.
  destruct (fromisoformat (strip isspace text)) as [d|e] eqn:E.
  - rewrite (try_formats_first_ok _ _ _ (Some d)) by reflexivity.
    destruct (first_ok _); reflexivity.
  - rewrite (try_formats_first_ok _ _ _ None) by reflexivity.
    destruct (first_ok _); reflexivity.
Qed.

Lemma to_iso_date_returns (s : option string) : exists d, Pipeline.to_iso_date s = Ret d.
Proof.
  destruct s as [text|]; [|exists None; reflexivity].
  rewrite to_iso_date_first_ok. eauto.
Qed.



Lemma coerce_float_returns (s : option string) : exists f, Pipeline.coerce_float s = Ret f.
Proof.
  destruct s as [t|]; [|exists None; reflexivity].
  unfold Pipeline.coerce_float.
  destruct (nonempty _); [|exists None; reflexivity].
  destruct (py_float _); simpl; eauto.
Qed.

End Dates.

(** ** The table *)

Lemma filter_none {A} (P : A -> Prop) `{forall x, Decision (P x)} (l : list A) :
  Forall (fun x => ~ P x) l -> filter P l = [].
Proof.
  induction 1 as [|x l Hx _ IH]; [reflexivity|].
  rewrite filter_cons_False by assumption. exact IH.
Qed.

Lemma fmap_fixed {A} (g : A -> A) (l : list A) :
  Forall (fun x => g x = x) l -> g <$> l = l.
Proof.
  induction 1 as [|x l Hx _ IH]; [reflexivity|].
  rewrite fmap_cons, Hx, IH. reflexivity.
Qed.

Section Keyed.
Context {A K : Type} `{EqDecision K} (f : A -> K).

Lemma keyed_split (l1 l2 : list A) (x : A) :
  NoDup (f <$> (l1 ++ x :: l2)) ->
  Forall (fun r => f r <> f x) l1 /\ Forall (fun r => f r <> f x) l2.
Proof.
  rewrite fmap_app, fmap_cons. intros Hnd.
  apply NoDup_app in Hnd as (_ & Hl1 & Hnd).
  apply NoDup_cons in Hnd as [Hl2 _].
  split; apply Forall_forall; intros r Hr Heq.
  - apply (Hl1 (f x)); [rewrite <- Heq; apply list_elem_of_fmap_2, Hr|left].
  - apply Hl2. rewrite <- Heq. apply list_elem_of_fmap_2, Hr.
Qed.

Lemma filter_key_unique (l1 l2 : list A) (x : A) :
  NoDup (f <$> (l1 ++ x :: l2)) ->
  filter (fun r => f r = f x) (l1 ++ x :: l2) = [x].
Proof.
  intros [H1 H2]%keyed_split.
  rewrite filter_app, filter_cons_True by reflexivity.
  rewrite (filter_none _ l1), (filter_none _ l2) by assumption. reflexivity.
Qed.

Lemma replace_key_unique (l1 l2 : list A) (x y : A) :
  NoDup (f <$> (l1 ++ x :: l2)) ->
  (fun r => if bool_decide (f r = f x) then y else r) <$> (l1 ++ x :: l2)
  = l1 ++ y :: l2.
Proof.
  intros [H1 H2]%keyed_split.
  rewrite fmap_app, fmap_cons, bool_decide_eq_true_2 by reflexivity.
  rewrite (fmap_fixed _ l1), (fmap_fixed _ l2); [reflexivity| |].
  - eapply Forall_impl; [exact H2|]. intros r Hr. simpl.
    rewrite bool_decide_eq_false_2 by assumption. reflexivity.
  - eapply Forall_impl; [exact H1|]. intros r Hr. simpl.
    rewrite bool_decide_eq_false_2 by assumption. reflexivity.
Qed.

Lemma filter_key_le_one (l : list A) (k : K) :
  NoDup (f <$> l) -> filter (fun r => f r = k) l = [] \/ exists x, filter (fun r => f r = k) l = [x].
Proof.
  intros Hnd. destruct (filter (fun r => f r = k) l) as [|x rest] eqn:E; [left; reflexivity|].
  right. exists x.
  assert (Hx : x ∈ filter (fun r => f r = k) l) by (rewrite E; left).
  apply list_elem_of_filter in Hx as [Hk Hx].
  apply list_elem_of_split in Hx as (l1 & l2 & ->).
  subst k. rewrite filter_key_unique in E by assumption. congruence.
Qed.

End Keyed.

(** ** [process_item] *)

Section Upsert.
Context `{PyLib}.

Lemma overwrite_frame obj e f :
  key_columns (Pipeline.overwrite obj e f) = key_columns e
  /\ Pipeline.payload (Pipeline.overwrite obj e f) = Pipeline.payload e.
Proof.
  destruct f; simpl;
    match goal with |- context [if ?b then _ else _] => destruct b end;
    split; reflexivity.
Qed.

Lemma overwrite_getattr obj e f c :
  getattr (Pipeline.overwrite obj e f) c
  = if bool_decide (f = c)
    then (if truthy (getattr obj c) then getattr obj c else getattr e c)
    else getattr e c.
Proof.
  destruct f, c; simpl;
    match goal with |- context [if ?b then _ else _] => destruct b end;
    reflexivity.
Qed.

Lemma foldl_overwrite_frame obj cols e :
  key_columns (foldl (Pipeline.overwrite obj) e cols) = key_columns e
  /\ Pipeline.payload (foldl (Pipeline.overwrite obj) e cols) = Pipeline.payload e.
Proof.
  revert e. induction cols as [|f cols IH]; intros e; simpl; [split; reflexivity|].
  destruct (IH (Pipeline.overwrite obj e f)) as [-> ->]. apply overwrite_frame.
Qed.

Lemma foldl_overwrite_getattr obj cols e c :
  NoDup cols ->
  getattr (foldl (Pipeline.overwrite obj) e cols) c
  = if bool_decide (c ∈ cols)
    then (if truthy (getattr obj c) then getattr obj c else getattr e c)
    else getattr e c.
Proof.
  intros Hnd. revert e. induction Hnd as [|f cols Hf Hnd IH]; intros e; simpl.
  - reflexivity.
  - rewrite IH, overwrite_getattr.
    destruct (decide (f = c)) as [->|Hne].
    + rewrite (bool_decide_eq_true_2 (c = c)) by reflexivity.
      rewrite (bool_decide_eq_false_2 (c ∈ cols)) by assumption.
      rewrite (bool_decide_eq_true_2 (c ∈ c :: cols)) by apply list_elem_of_here.
      reflexivity.
    + rewrite (bool_decide_eq_false_2 (f = c)) by assumption.
      destruct (decide (c ∈ cols)) as [Hin|Hnin].
      * rewrite !bool_decide_eq_true_2;
          [reflexivity|apply list_elem_of_further; assumption|assumption].
      * rewrite !bool_decide_eq_false_2; [reflexivity| |assumption].
        intros [->|?]%elem_of_cons; contradiction.
Qed.

Lemma all_columns_overwritten c : c ∈ Pipeline.overwritten_columns.
Proof. destruct c; unfold Pipeline.overwritten_columns; rewrite !elem_of_cons; auto 20. Qed.

Lemma overwritten_columns_NoDup : NoDup Pipeline.overwritten_columns.
Proof.
  unfold Pipeline.overwritten_columns.
  repeat (apply NoDup_cons; split;
          [rewrite ?elem_of_cons, elem_of_nil; intuition discriminate|]).
  apply NoDup_nil_2.
Qed.

Lemma merge_existing_getattr obj e c :
  getattr (Pipeline.merge_existing obj e) c
  = if truthy (getattr obj c) then getattr obj c else getattr e c.
Proof.
  transitivity (getattr (foldl (Pipeline.overwrite obj) e Pipeline.overwritten_columns) c).
  - destruct c; reflexivity.
  - rewrite foldl_overwrite_getattr by apply overwritten_columns_NoDup.
    rewrite bool_decide_eq_true_2 by apply all_columns_overwritten. reflexivity.
Qed.

Lemma merge_existing_frame obj e :
  key_columns (Pipeline.merge_existing obj e) = key_columns e
  /\ Pipeline.payload (Pipeline.merge_existing obj e) = Pipeline.payload obj.
Proof.
  split; [|reflexivity].
  destruct (foldl_overwrite_frame obj Pipeline.overwritten_columns e) as [Hk _].
  rewrite <- Hk. reflexivity.
Qed.

Lemma identity_of_key_columns r :
  Pipeline.identity r = (let '(_, n, s, e, u) := key_columns r in (n, s, e, u)).
Proof. reflexivity. Qed.

Lemma id_of_key_columns r :
  Pipeline.id r = (let '(i, _, _, _, _) := key_columns r in i).
Proof. reflexivity. Qed.

Lemma merge_existing_identity obj e :
  Pipeline.identity (Pipeline.merge_existing obj e) = Pipeline.identity e
  /\ Pipeline.id (Pipeline.merge_existing obj e) = Pipeline.id e.
Proof.
  destruct (merge_existing_frame obj e) as [Hk _].
  rewrite !identity_of_key_columns, !id_of_key_columns, Hk. split; reflexivity.
Qed.


End Upsert.

(** ** The columns *)

Lemma str_take_short n s : (String.length s <= n)%nat -> str_take n s = s.
Proof.
  revert s. induction n as [|n IH]; intros [|c s] Hs; simpl in *;
    try reflexivity; try lia.
  rewrite IH by lia. reflexivity.
Qed.

Lemma str_take_length_le n s : (String.length (str_take n s) <= n)%nat.
Proof.
  revert s. induction n as [|n IH]; intros [|c s]; simpl; try lia.
  specialize (IH s). lia.
Qed.

Lemma take_within n v : within n v -> str_take n <$> v = v.
Proof.
  intros Hv. destruct v as [s|]; [|reflexivity].
  cbn [fmap option_fmap option_map]. rewrite str_take_short by (apply Hv; reflexivity).
  reflexivity.
Qed.

Lemma varchar_Ret n v v' : Pipeline.varchar n v = Ret v' -> v' = str_take n <$> v.
Proof.
  destruct v as [s|]; simpl; [|intros [= <-]; reflexivity].
  destruct (String.length s <=? n)%nat eqn:E.
  - intros [= <-]. apply Nat.leb_le in E. rewrite str_take_short by exact E. reflexivity.
  - destruct (str_all Pipeline.is_space (str_drop n s)); [|discriminate].
    intros [= <-]. reflexivity.
Qed.

Lemma varchar_within n v : within n v -> Pipeline.varchar n v = Ret v.
Proof.
  intros Hv. destruct v as [s|]; simpl; [|reflexivity].
  specialize (Hv s eq_refl). apply Nat.leb_le in Hv. rewrite Hv. reflexivity.
Qed.

Lemma varchar_kept_within n v v' : Pipeline.varchar n v = Ret v' -> within n v'.
Proof.
  intros Hv%varchar_Ret. subst v'. intros s. destruct v as [t|]; simpl; [|discriminate].
  intros [= <-]. apply str_take_length_le.
Qed.

Lemma varchar_idem n v v' : Pipeline.varchar n v = Ret v' -> Pipeline.varchar n v' = Ret v'.
Proof. intros Hv. eapply varchar_within, varchar_kept_within, Hv. Qed.

Lemma varchar_is_Some n v v' : Pipeline.varchar n v = Ret v' -> is_Some v' <-> is_Some v.
Proof. intros Hv%varchar_Ret. subst v'. apply fmap_is_Some. Qed.

Lemma store_idem f a a' : store f a = Ret a' -> store f a' = Ret a'.
Proof.
  unfold store. destruct (width f) as [n|]; [|intros [= <-]; reflexivity].
  destruct a as [v|v]; [|intros [= <-]; reflexivity].
  destruct (Pipeline.varchar n v) as [v'|e] eqn:E; [|discriminate].
  intros [= <-]. rewrite (varchar_idem _ _ _ E). reflexivity.
Qed.

Lemma store_fits f a : fits f a -> store f a = Ret a.
Proof.
  unfold store, fits. destruct (width f) as [n|]; [|reflexivity].
  destruct a as [v|v]; [|reflexivity].
  intros Hv. rewrite (varchar_within _ _ Hv). reflexivity.
Qed.

Ltac projections :=
  cbn [Pipeline.id Pipeline.security_name Pipeline.exchange_platform
       Pipeline.type_of_issue Pipeline.type_of_issue_long Pipeline.issue_status
       Pipeline.security_type Pipeline.start_date Pipeline.end_date
       Pipeline.offer_price_raw Pipeline.price_min Pipeline.price_max
       Pipeline.face_value Pipeline.list_url Pipeline.detail_url Pipeline.payload] in *.

Lemma key_columns_inj r r' :
  key_columns r = key_columns r' ->
  Pipeline.id r = Pipeline.id r'
  /\ Pipeline.security_name r = Pipeline.security_name r'
  /\ Pipeline.start_date r = Pipeline.start_date r'
  /\ Pipeline.end_date r = Pipeline.end_date r'
  /\ Pipeline.detail_url r = Pipeline.detail_url r'.
Proof. unfold key_columns. intros [= ? ? ? ? ?]. auto. Qed.

Lemma getattr_set_id i r f : getattr (Pipeline.set_id i r) f = getattr r f.
Proof. destruct f; reflexivity. Qed.

Lemma column_values_inv r r' :
  Pipeline.column_values r = Ret r' ->
  Pipeline.varchar 512 (Pipeline.security_name r) = Ret (Pipeline.security_name r')
  /\ key_columns r'
     = (Pipeline.id r, Pipeline.security_name r', Pipeline.start_date r,
        Pipeline.end_date r, Pipeline.detail_url r)
  /\ Pipeline.payload r' = Pipeline.payload r
  /\ forall f, store f (getattr r f) = Ret (getattr r' f).
Proof.
  intros Hr. unfold Pipeline.column_values in Hr.
  repeat match type of Hr with
         | context [Pipeline.varchar ?n ?v] =>
             destruct (Pipeline.varchar n v) eqn:?; cbn [mbind res_bind] in Hr;
             [|discriminate Hr]
         end.
  injection Hr as <-. projections.
  split; [reflexivity|]. split; [reflexivity|]. split; [reflexivity|].
  intros f. destruct f; unfold store, width, getattr; projections;
    repeat match goal with
           | E : Pipeline.varchar ?n ?v = _ |- context [Pipeline.varchar ?n ?v] =>
               rewrite E
           end; reflexivity.
Qed.

Lemma column_values_intro r r' :
  Pipeline.varchar 512 (Pipeline.security_name r) = Ret (Pipeline.security_name r') ->
  key_columns r'
  = (Pipeline.id r, Pipeline.security_name r', Pipeline.start_date r,
     Pipeline.end_date r, Pipeline.detail_url r) ->
  Pipeline.payload r' = Pipeline.payload r ->
  (forall f, store f (getattr r f) = Ret (getattr r' f)) ->
  Pipeline.column_values r = Ret r'.
Proof.
  intros Hn Hk Hp Hf.
  pose proof (Hf Pipeline.c_exchange_platform) as H1.
  pose proof (Hf Pipeline.c_type_of_issue) as H2.
  pose proof (Hf Pipeline.c_type_of_issue_long) as H3.
  pose proof (Hf Pipeline.c_issue_status) as H4.
  pose proof (Hf Pipeline.c_security_type) as H5.
  pose proof (Hf Pipeline.c_offer_price_raw) as H6.
  pose proof (Hf Pipeline.c_price_min) as H7.
  pose proof (Hf Pipeline.c_price_max) as H8.
  pose proof (Hf Pipeline.c_face_value) as H9.
  pose proof (Hf Pipeline.c_list_url) as H10.
  clear Hf. unfold store, width, getattr in *.
  unfold Pipeline.column_values. rewrite Hn. cbn [mbind res_bind].
  repeat match goal with
         | E : context [Pipeline.varchar ?n ?v] |- context [Pipeline.varchar ?n ?v] =>
             destruct (Pipeline.varchar n v); [|discriminate E];
             injection E as E; cbn [mbind res_bind]
         end.
  injection H7 as H7. injection H8 as H8. injection H10 as H10.
  unfold key_columns in Hk. injection Hk as Hid Hs He Hu.
  destruct r'; cbn in *. subst. reflexivity.
Qed.

Lemma column_values_idem r r' :
  Pipeline.column_values r = Ret r' -> Pipeline.column_values r' = Ret r'.
Proof.
  intros (Hn & Hk & Hp & Hf)%column_values_inv.
  apply column_values_intro.
  - eapply varchar_idem, Hn.
  - rewrite Hk. unfold key_columns in Hk. injection Hk as -> -> -> ->. reflexivity.
  - reflexivity.
  - intros f. eapply store_idem, Hf.
Qed.

Lemma column_values_set_id i r r' :
  Pipeline.column_values r = Ret r' ->
  Pipeline.column_values (Pipeline.set_id i r) = Ret (Pipeline.set_id i r').
Proof.
  intros (Hn & Hk & Hp & Hf)%column_values_inv.
  unfold key_columns in Hk. injection Hk as Hid Hs He Hu.
  apply column_values_intro.
  - exact Hn.
  - unfold key_columns. cbn. congruence.
  - exact Hp.
  - intros f. rewrite !getattr_set_id. apply Hf.
Qed.

Lemma column_values_name r r' :
  Pipeline.column_values r = Ret r' ->
  within 512 (Pipeline.security_name r) ->
  Pipeline.identity r' = Pipeline.identity r /\ Pipeline.id r' = Pipeline.id r.
Proof.
  intros (Hn & Hk & _)%column_values_inv Hfit.
  rewrite (varchar_within _ _ Hfit) in Hn. injection Hn as Hn.
  unfold key_columns in Hk. injection Hk as Hid Hs He Hu.
  unfold Pipeline.identity. split; congruence.
Qed.

Section Transactions.
Context `{PyLib}.

Lemma build_payload_returns self item url_to_key :
  Pipeline._url_to_key item = Ret url_to_key ->
  Pipeline.build_payload self item
  = Ret {| Pipeline.details := Item.details item;
           Pipeline.pdfs := Pipeline.pdf_entry self url_to_key <$> Item.pdf_links item;
           Pipeline.links := Item.links item;
           Pipeline.files := Pipeline.files_or_empty (Item.files item) |}.
Proof. intros Hk. unfold Pipeline.build_payload. rewrite Hk. reflexivity. Qed.

(** [build_obj] raises what [_url_to_key] raises, and nothing else. *)
Lemma build_obj_cases self item :
  (exists e, Pipeline._url_to_key item = Raise e
             /\ Pipeline.build_obj self item = Raise e)
  \/ (exists payload sd ed pmin pmax,
        Pipeline.build_payload self item = Ret payload
        /\ Pipeline.to_iso_date (Item.start_date item) = Ret sd
        /\ Pipeline.to_iso_date (Item.end_date item) = Ret ed
        /\ Pipeline.build_obj self item
           = Ret {| Pipeline.id := None;
                    Pipeline.security_name := Item.security_name item;
                    Pipeline.exchange_platform := Item.exchange_platform item;
                    Pipeline.type_of_issue := Item.type_of_issue item;
                    Pipeline.type_of_issue_long := Item.type_of_issue_long item;
                    Pipeline.issue_status := Item.issue_status item;
                    Pipeline.security_type := Item.security_type item;
                    Pipeline.start_date := sd;
                    Pipeline.end_date := ed;
                    Pipeline.offer_price_raw := Item.offer_price item;
                    Pipeline.price_min := pmin;
                    Pipeline.price_max := pmax;
                    Pipeline.face_value := Item.face_value item;
                    Pipeline.list_url := Item.list_url item;
                    Pipeline.detail_url := Item.detail_url item;
                    Pipeline.payload := payload |}).
Proof.
  unfold Pipeline.build_obj, Pipeline.build_payload.
  destruct (Pipeline._url_to_key item) as [url_to_key|e]; [|left; eauto].
  right.
  destruct (to_iso_date_returns (Item.start_date item)) as [sd Hsd].
  destruct (to_iso_date_returns (Item.end_date item)) as [ed Hed].
  destruct (coerce_float_returns (Item.price_min item)) as [pmin Hmin].
  destruct (coerce_float_returns (Item.price_max item)) as [pmax Hmax].
  eexists _, sd, ed, pmin, pmax. cbn [mbind res_bind mret res_ret].
  rewrite Hsd, Hed, Hmin, Hmax. auto.
Qed.

Lemma build_obj_identity self item obj :
  Pipeline.build_obj self item = Ret obj ->
  Pipeline.id obj = None
  /\ Pipeline.security_name obj = Item.security_name item
  /\ Pipeline.to_iso_date (Item.start_date item) = Ret (Pipeline.start_date obj)
  /\ Pipeline.to_iso_date (Item.end_date item) = Ret (Pipeline.end_date obj)
  /\ Pipeline.detail_url obj = Item.detail_url item
  /\ Pipeline.build_payload self item = Ret (Pipeline.payload obj).
Proof.
  destruct (build_obj_cases self item)
    as [(e & _ & ->)|(payload & sd & ed & pmin & pmax & Hp & Hsd & Hed & ->)];
    [discriminate|].
  intros [= <-]. simpl. repeat split; first [assumption|reflexivity].
Qed.

Lemma lookup_cases self item db :
  (exists e, Pipeline.lookup self item db = Raise e)
  \/ (exists obj, Pipeline.build_obj self item = Ret obj
        /\ Pipeline.query_identity obj db = []
        /\ Pipeline.lookup self item db = Ret (obj, None))
  \/ (exists obj existing, Pipeline.build_obj self item = Ret obj
        /\ Pipeline.query_identity obj db = [existing]
        /\ Pipeline.lookup self item db = Ret (obj, Some existing)).
Proof.
  unfold Pipeline.lookup.
  destruct (Pipeline.build_obj self item) as [obj|e]; [|left; eauto].
  cbn [mbind res_bind].
  destruct (Pipeline.query_identity obj db) as [|x [|y l]] eqn:Hq;
    cbn [Pipeline.one_or_none mbind res_bind mret res_ret].
  - right. left. exists obj. split; [reflexivity|]. split; [exact Hq|reflexivity].
  - right. right. exists obj, x. split; [reflexivity|]. split; [exact Hq|reflexivity].
  - left. eauto.
Qed.

Lemma query_member obj db existing :
  Pipeline.query_identity obj db = [existing] ->
  Pipeline.identity existing = Pipeline.identity obj
  /\ exists before after,
       Pipeline.rows db = before ++ existing :: after
       /\ Forall (fun r => Pipeline.identity r <> Pipeline.identity obj) before
       /\ Forall (fun r => Pipeline.identity r <> Pipeline.identity obj) after.
Proof.
  unfold Pipeline.query_identity. intros Hq.
  assert (Hin : existing ∈ filter (fun r => Pipeline.identity r = Pipeline.identity obj)
                  (Pipeline.rows db)) by (rewrite Hq; left).
  apply list_elem_of_filter in Hin as [Hk Hin]. split; [exact Hk|].
  apply list_elem_of_split in Hin as (before & after & Hrows).
  exists before, after. split; [exact Hrows|].
  rewrite Hrows, filter_app, filter_cons_True in Hq by exact Hk.
  destruct (filter _ before) as [|x l] eqn:Eb.
  - injection Hq as Hq. split.
    + apply Forall_forall. intros r Hr Heq.
      assert (Hc : r ∈ filter (fun r => Pipeline.identity r = Pipeline.identity obj) before)
        by (apply list_elem_of_filter; auto).
      rewrite Eb in Hc. inversion Hc.
    + apply Forall_forall. intros r Hr Heq.
      assert (Hc : r ∈ filter (fun r => Pipeline.identity r = Pipeline.identity obj) after)
        by (apply list_elem_of_filter; auto).
      rewrite Hq in Hc. inversion Hc.
  - simpl in Hq. injection Hq as _ Hq. destruct l; discriminate Hq.
Qed.

Lemma query_none obj db :
  Pipeline.query_identity obj db = [] ->
  Forall (fun r => Pipeline.identity r <> Pipeline.identity obj) (Pipeline.rows db).
Proof.
  unfold Pipeline.query_identity. intros Hq. apply Forall_forall. intros r Hr Heq.
  assert (Hc : r ∈ filter (fun r => Pipeline.identity r = Pipeline.identity obj)
                 (Pipeline.rows db)) by (apply list_elem_of_filter; auto).
  rewrite Hq in Hc. inversion Hc.
Qed.

Lemma query_of_split obj before row after :
  Pipeline.identity row = Pipeline.identity obj ->
  Forall (fun r => Pipeline.identity r <> Pipeline.identity obj) before ->
  Forall (fun r => Pipeline.identity r <> Pipeline.identity obj) after ->
  filter (fun r => Pipeline.identity r = Pipeline.identity obj) (before ++ row :: after)
  = [row].
Proof.
  intros Hk Hb Ha. rewrite filter_app, filter_cons_True by exact Hk.
  rewrite (filter_none _ before), (filter_none _ after) by assumption. reflexivity.
Qed.

(** The merge of [obj] with a stored row of its own, once more. *)
Lemma merge_settled obj row :
  settled obj row -> Pipeline.column_values (Pipeline.merge_existing obj row) = Ret row.
Proof.
  intros (Hrow & Hpay & Hf).
  apply column_values_inv in Hrow as (Hn & Hk & _ & Hrf).
  destruct (merge_existing_frame obj row) as [Hkm Hpm].
  apply key_columns_inj in Hkm as (Hid & Hname & Hs & He & Hu).
  apply column_values_intro.
  - rewrite Hname. exact Hn.
  - unfold key_columns. congruence.
  - congruence.
  - intros f. rewrite merge_existing_getattr.
    destruct (truthy (getattr obj f)) eqn:Et; [apply Hf, Et|apply Hrf].
Qed.

Lemma settled_insert obj row i :
  Pipeline.column_values obj = Ret row -> settled obj (Pipeline.set_id i row).
Proof.
  intros Hobj. split; [|split].
  - apply column_values_set_id. eapply column_values_idem, Hobj.
  - apply column_values_inv in Hobj as (_ & _ & Hp & _). exact Hp.
  - intros f _. rewrite getattr_set_id.
    apply column_values_inv in Hobj as (_ & _ & _ & Hf). apply Hf.
Qed.

Lemma settled_update obj existing new :
  Pipeline.column_values (Pipeline.merge_existing obj existing) = Ret new ->
  settled obj new.
Proof.
  intros Hnew. split; [|split].
  - eapply column_values_idem, Hnew.
  - apply column_values_inv in Hnew as (_ & _ & Hp & _). rewrite Hp. reflexivity.
  - intros f Ht. apply column_values_inv in Hnew as (_ & _ & _ & Hf).
    specialize (Hf f). rewrite merge_existing_getattr, Ht in Hf. exact Hf.
Qed.

(** The row that an UPDATE writes has the key columns of the row it
    replaces. *)
Lemma update_key_columns db obj existing new :
  db_ok db -> existing ∈ Pipeline.rows db ->
  Pipeline.column_values (Pipeline.merge_existing obj existing) = Ret new ->
  key_columns new = key_columns existing.
Proof.
  intros Hok Hin (Hn & Hk & _)%column_values_inv.
  destruct (merge_existing_frame obj existing) as [Hkm _].
  apply key_columns_inj in Hkm as (Hid & Hname & Hs & He & Hu).
  pose proof (ok_values _ Hok existing Hin) as (Hne & _)%column_values_inv.
  rewrite Hname, Hne in Hn. injection Hn as Hn.
  rewrite Hk. unfold key_columns. congruence.
Qed.

End Transactions.

Section ProcessItem.
Context `{PyLib}.

Lemma db_ok_empty : db_ok Pipeline.empty_db.
Proof.
  split; simpl; try apply NoDup_nil_2; intros r Hr; inversion Hr.
Qed.

(** What [process_item] does, case by case: it raises and leaves the rows
    as they were; or it finds no row of the identity and appends the
    record as its columns keep it; or it finds one row and replaces it by
    the merged row as its columns keep it. *)
Lemma process_item_cases self item db :
  db_ok db ->
  (exists e seq,
     Pipeline.process_item self item db
     = (Raise e, {| Pipeline.rows := Pipeline.rows db; Pipeline.next_id := seq |})
     /\ Pipeline.next_id db <= seq <= Pipeline.next_id db + 1)
  \/ (exists obj row,
        Pipeline.build_obj self item = Ret obj
        /\ Pipeline.query_identity obj db = []
        /\ Pipeline.column_values obj = Ret row
        /\ is_Some (Pipeline.security_name row)
        /\ Pipeline.process_item self item db
           = (Ret item,
              {| Pipeline.rows :=
                   Pipeline.rows db ++ [Pipeline.set_id (Some (Pipeline.next_id db)) row];
                 Pipeline.next_id := Pipeline.next_id db + 1 |}))
  \/ (exists obj existing new before after,
        Pipeline.build_obj self item = Ret obj
        /\ Pipeline.query_identity obj db = [existing]
        /\ Pipeline.column_values (Pipeline.merge_existing obj existing) = Ret new
        /\ Pipeline.rows db = before ++ existing :: after
        /\ Forall (fun r => Pipeline.identity r <> Pipeline.identity obj) before
        /\ Forall (fun r => Pipeline.identity r <> Pipeline.identity obj) after
        /\ Pipeline.process_item self item db
           = (Ret item,
              {| Pipeline.rows := before ++ new :: after;
                 Pipeline.next_id := Pipeline.next_id db |})).
Proof.
  intros Hok. unfold Pipeline.process_item, Pipeline.upsert.
  destruct (lookup_cases self item db)
    as [[e ->]|[(obj & Hobj & Hq & ->)|(obj & existing & Hobj & Hq & ->)]].
  - left. exists e, (Pipeline.next_id db). split; [reflexivity|lia].
  - unfold Pipeline.insert.
    destruct (Pipeline.column_values obj) as [row|e] eqn:Ec;
      [|left; exists e, (Pipeline.next_id db); split; [reflexivity|lia]].
    cbv zeta.
    destruct (bool_decide (is_Some (Pipeline.security_name
                (Pipeline.set_id (Some (Pipeline.next_id db)) row)))) eqn:En; cbn [negb];
      [|left; eexists _, _; split; [reflexivity|lia]].
    destruct (Pipeline.unique_conflict _ db);
      [left; eexists _, _; split; [reflexivity|lia]|].
    right. left. exists obj, row. apply bool_decide_eq_true in En. auto.
  - unfold Pipeline.update.
    destruct (Pipeline.column_values (Pipeline.merge_existing obj existing))
      as [new|e] eqn:Ec; cbn [mbind res_bind mret res_ret];
      [|left; exists e, (Pipeline.next_id db); split; [reflexivity|lia]].
    right. right.
    destruct (query_member obj db existing Hq) as (_ & before & after & Hrows & Hb & Ha).
    exists obj, existing, new, before, after. repeat (split; [assumption|]).
    assert (Hid : Pipeline.id new = Pipeline.id existing).
    { assert (Hin : existing ∈ Pipeline.rows db).
      { rewrite Hrows, elem_of_app, elem_of_cons. auto. }
      pose proof (update_key_columns db obj existing new Hok Hin Ec) as Hk.
      rewrite !id_of_key_columns, Hk. reflexivity. }
    do 2 f_equal. rewrite Hid, Hrows. apply (replace_key_unique Pipeline.id).
    rewrite <- Hrows. apply Hok.
Qed.

Lemma process_item_keeps_ok self item db :
  db_ok db -> db_ok (snd (Pipeline.process_item self item db)).
Proof.
  intros Hok. pose proof Hok as [Hids Hseq Hname Hval].
  destruct (process_item_cases self item db Hok)
    as [(e & seq & -> & Hs)
       |[(obj & row & Hobj & Hq & Hrow & Hn & ->)
        |(obj & existing & new & before & after & Hobj & Hq & Hnew & Hrows & _ & _ & ->)]];
    cbn [snd].
  - split; simpl; try assumption.
    intros r Hr. destruct (Hseq r Hr) as (i & Hi & Hlt). exists i. split; [exact Hi|lia].
  - split; simpl.
    + rewrite fmap_app. apply NoDup_app. split; [exact Hids|]. split.
      * intros i Hi Hin. apply list_elem_of_singleton in Hin. subst i.
        apply list_elem_of_fmap in Hi as (r & Hr & Hin).
        destruct (Hseq r Hin) as (i & Hi & Hlt). simpl in Hr. rewrite Hi in Hr.
        injection Hr as Hr. lia.
      * apply NoDup_singleton.
    + intros r [Hr|Hr%list_elem_of_singleton]%elem_of_app.
      * destruct (Hseq r Hr) as (i & Hi & Hlt). exists i. split; [exact Hi|lia].
      * subst r. exists (Pipeline.next_id db). simpl. split; [reflexivity|lia].
    + intros r [Hr|Hr%list_elem_of_singleton]%elem_of_app; [auto|].
      subst r. exact Hn.
    + intros r [Hr|Hr%list_elem_of_singleton]%elem_of_app; [auto|].
      subst r. apply column_values_set_id. eapply column_values_idem, Hrow.
  - assert (Hin : existing ∈ Pipeline.rows db).
    { rewrite Hrows, elem_of_app, elem_of_cons. auto. }
    pose proof (update_key_columns db obj existing new Hok Hin Hnew) as Hk.
    assert (Hid : Pipeline.id new = Pipeline.id existing)
      by (rewrite !id_of_key_columns, Hk; reflexivity).
    assert (Hmem : forall r, r ∈ before ++ new :: after ->
                     r = new \/ r ∈ Pipeline.rows db).
    { intros r Hr. rewrite Hrows. rewrite !elem_of_app, !elem_of_cons in *. tauto. }
    split; simpl.
    + rewrite Hrows in Hids. rewrite fmap_app, fmap_cons in Hids.
      rewrite fmap_app, fmap_cons, Hid. exact Hids.
    + intros r [->|Hr]%Hmem; [rewrite Hid|]; auto.
    + intros r [->|Hr]%Hmem; [|auto].
      replace (Pipeline.security_name new) with (Pipeline.security_name existing); [auto|].
      unfold key_columns in Hk. congruence.
    + intros r [->|Hr]%Hmem; [|auto]. eapply column_values_idem, Hnew.
Qed.

Lemma process_item_keeps_unique self item db :
  db_ok db -> identity_unique db -> name_fits item ->
  identity_unique (snd (Pipeline.process_item self item db)).
Proof.
  intros Hok Hun Hfit. unfold identity_unique in *.
  destruct (process_item_cases self item db Hok)
    as [(e & seq & -> & Hs)
       |[(obj & row & Hobj & Hq & Hrow & Hn & ->)
        |(obj & existing & new & before & after & Hobj & Hq & Hnew & Hrows & _ & _ & ->)]];
    cbn [snd Pipeline.rows].
  - exact Hun.
  - destruct (build_obj_identity self item obj Hobj) as (_ & Hname & _).
    assert (Hk : Pipeline.identity row = Pipeline.identity obj).
    { apply (column_values_name obj row Hrow). rewrite Hname. exact Hfit. }
    rewrite fmap_app. apply NoDup_app. split; [exact Hun|]. split; [|apply NoDup_singleton].
    intros k Hin Hk'. apply list_elem_of_singleton in Hk'. subst k.
    apply list_elem_of_fmap in Hin as (r & Hr & Hin).
    pose proof (query_none obj db Hq) as Hfresh. rewrite Forall_forall in Hfresh.
    apply (Hfresh r Hin). rewrite <- Hr, <- Hk. reflexivity.
  - assert (Hin : existing ∈ Pipeline.rows db).
    { rewrite Hrows, elem_of_app, elem_of_cons. auto. }
    pose proof (update_key_columns db obj existing new Hok Hin Hnew) as Hk.
    rewrite Hrows in Hun. rewrite fmap_app, fmap_cons in Hun.
    rewrite fmap_app, fmap_cons, !identity_of_key_columns, Hk,
      <- !identity_of_key_columns. exact Hun.
Qed.

(** An upsert that commits leaves one row of the record's identity when
    the name is kept as it is, and leaves the record settled in it. *)
Lemma process_item_commits self item db db1 :
  db_ok db ->
  Pipeline.process_item self item db = (Ret item, db1) ->
  exists obj row before after,
    Pipeline.build_obj self item = Ret obj
    /\ settled obj row
    /\ Pipeline.rows db1 = before ++ row :: after
    /\ Pipeline.start_date row = Pipeline.start_date obj
    /\ Pipeline.end_date row = Pipeline.end_date obj
    /\ Pipeline.detail_url row = Pipeline.detail_url obj
    /\ Pipeline.security_name row = str_take 512 <$> Pipeline.security_name obj
    /\ is_Some (Pipeline.security_name row)
    /\ Forall (fun r => Pipeline.identity r <> Pipeline.identity obj) before
    /\ Forall (fun r => Pipeline.identity r <> Pipeline.identity obj) after.
Proof.
  intros Hok Hp.
  destruct (process_item_cases self item db Hok)
    as [(e & seq & He & _)
       |[(obj & row & Hobj & Hq & Hrow & Hn & He)
        |(obj & existing & new & before & after & Hobj & Hq & Hnew & Hrows & Hb & Ha & He)]];
    rewrite He in Hp; [discriminate| |]; injection Hp as <-.
  - exists obj, (Pipeline.set_id (Some (Pipeline.next_id db)) row), (Pipeline.rows db), [].
    pose proof Hrow as (Hname & Hk & _)%column_values_inv.
    unfold key_columns in Hk. injection Hk as Hid Hs He' Hu.
    split; [exact Hobj|]. split; [apply settled_insert, Hrow|].
    split; [reflexivity|]. unfold Pipeline.set_id. projections.
    split; [exact Hs|]. split; [exact He'|]. split; [exact Hu|].
    split; [apply varchar_Ret, Hname|]. split; [exact Hn|].
    split; [apply query_none, Hq|constructor].
  - destruct (query_member obj db existing Hq) as (Hke & _).
    assert (Hin : existing ∈ Pipeline.rows db).
    { rewrite Hrows, elem_of_app, elem_of_cons. auto. }
    pose proof (update_key_columns db obj existing new Hok Hin Hnew) as Hk.
    unfold key_columns in Hk. injection Hk as Hid Hname Hs He' Hu.
    unfold Pipeline.identity in Hke. injection Hke as Hn1 Hs1 He1 Hu1.
    assert (Hfit : Pipeline.security_name new
                   = str_take 512 <$> Pipeline.security_name obj).
    { pose proof (ok_values _ Hok existing Hin) as (Hne & _)%column_values_inv.
      apply varchar_Ret in Hne. congruence. }
    exists obj, new, before, after.
    split; [exact Hobj|]. split; [eapply settled_update, Hnew|].
    split; [reflexivity|]. split; [congruence|]. split; [congruence|].
    split; [congruence|]. split; [exact Hfit|].
    split; [rewrite Hname; apply (ok_name _ Hok), Hin|]. auto.
Qed.

End ProcessItem.



(** C5, amended.  An upsert whose identity matches a stored row commits
    or raises.  When it commits, it changes that row alone, in place: each
    allow-listed column takes the incoming value when that value is true
    (not null, not empty, not zero), as its column keeps it, which is the
    value itself when it fits the column, and keeps its stored value
    otherwise, so a null or empty incoming value erases nothing; the
    payload becomes the payload of the latest scrape; [id] and the four
    identity columns are left as they were.  When it raises, the table is
    as it was: no column is overwritten and the payload is not replaced;
    and it raises whenever a column refuses a true incoming text. *)
Theorem update_overwrites_allow_list_only `{PyLib} (self : Pipeline.pipeline)
    (item : Item.t) (db : Pipeline.database)
    (obj existing : Pipeline.IssueCompact) :
  db_ok db ->
  Pipeline.build_obj self item = Ret obj ->
  existing ∈ Pipeline.rows db ->
  Pipeline.identity existing = Pipeline.identity obj ->
  let out := Pipeline.process_item self item db in
  match fst out with
  | Ret returned =>
      returned = item
      /\ exists (new : Pipeline.IssueCompact) (before after : list Pipeline.IssueCompact),
           Pipeline.rows db = before ++ existing :: after
           /\ Pipeline.rows (snd out) = before ++ new :: after
           /\ Pipeline.next_id (snd out) = Pipeline.next_id db
           /\ (forall f : Pipeline.column,
                 store f (if truthy (getattr obj f) then getattr obj f
                          else getattr existing f)
                 = Ret (getattr new f))
           /\ (forall f : Pipeline.column,
                 truthy (getattr obj f) = true -> fits f (getattr obj f) ->
                 getattr new f = getattr obj f)
           /\ (forall f : Pipeline.column,
                 truthy (getattr obj f) = false -> getattr new f = getattr existing f)
           /\ (forall f : Pipeline.column,
                 empty_attr (getattr obj f) -> getattr new f = getattr existing f)
           /\ Pipeline.build_payload self item = Ret (Pipeline.payload new)
           /\ key_columns new = key_columns existing
  | Raise e => snd out = db
  end
  /\ (forall f : Pipeline.column,
        truthy (getattr obj f) = true -> raises (store f (getattr obj f)) ->
        raises (fst out)).
Proof.
  intros Hok Hobj Hin Hk out.
  assert (Heta : {| Pipeline.rows := Pipeline.rows db;
                    Pipeline.next_id := Pipeline.next_id db |} = db)
    by (clear; destruct db; reflexivity).
  assert (Hmember : existing ∈ Pipeline.query_identity obj db).
  { unfold Pipeline.query_identity. apply list_elem_of_filter. auto. }
  assert (Hout : out
            = match Pipeline.query_identity obj db with
              | [] => out
              | [x] =>
                  match Pipeline.column_values (Pipeline.merge_existing obj x) with
                  | Ret new =>
                      (Ret item,
                       {| Pipeline.rows :=
                            (fun r => if bool_decide (Pipeline.id r = Pipeline.id new)
                                      then new else r) <$> Pipeline.rows db;
                          Pipeline.next_id := Pipeline.next_id db |})
                  | Raise e =>
                      (Raise e, {| Pipeline.rows := Pipeline.rows db;
                                   Pipeline.next_id := Pipeline.next_id db |})
                  end
              | _ :: _ :: _ =>
                  (Raise MultipleResultsFound,
                   {| Pipeline.rows := Pipeline.rows db;
                      Pipeline.next_id := Pipeline.next_id db |})
              end).
  { unfold out, Pipeline.process_item, Pipeline.upsert, Pipeline.lookup.
    rewrite Hobj. cbn [mbind res_bind].
    destruct (Pipeline.query_identity obj db) as [|x [|y l]]; [reflexivity| |reflexivity].
    cbn [Pipeline.one_or_none mbind res_bind mret res_ret]. unfold Pipeline.update.
    destruct (Pipeline.column_values _); reflexivity. }
  destruct (Pipeline.query_identity obj db) as [|x [|y l]] eqn:Hq.
  - inversion Hmember.
  - apply list_elem_of_singleton in Hmember. subst x.
    destruct (Pipeline.column_values (Pipeline.merge_existing obj existing))
      as [new|e] eqn:Hnew.
    + pose proof (update_key_columns db obj existing new Hok Hin Hnew) as Hkey.
      destruct (query_member obj db existing Hq) as (_ & before & after & Hrows & _).
      assert (Hid : Pipeline.id new = Pipeline.id existing)
        by (rewrite !id_of_key_columns, Hkey; reflexivity).
      pose proof Hnew as (_ & _ & Hpay & Hf)%column_values_inv.
      assert (Hattr : forall f : Pipeline.column,
                store f (if truthy (getattr obj f) then getattr obj f
                         else getattr existing f) = Ret (getattr new f)).
      { intros f. rewrite <- merge_existing_getattr. apply Hf. }
      assert (Hkeep : forall f : Pipeline.column,
                truthy (getattr obj f) = false -> getattr new f = getattr existing f).
      { intros f Ht. specialize (Hattr f). rewrite Ht in Hattr.
        pose proof (ok_values _ Hok existing Hin) as (_ & _ & _ & He)%column_values_inv.
        rewrite (He f) in Hattr. congruence. }
      rewrite Hout. cbn [fst snd]. split.
      * split; [reflexivity|]. exists new, before, after.
        split; [exact Hrows|]. split.
        { cbn. rewrite Hid, Hrows. apply (replace_key_unique Pipeline.id).
          rewrite <- Hrows. apply Hok. }
        split; [reflexivity|]. split; [exact Hattr|]. split; [|split; [exact Hkeep|split]].
        -- intros f Ht Hfit. specialize (Hattr f).
           rewrite Ht, (store_fits _ _ Hfit) in Hattr. congruence.
        -- intros f Hempty. apply Hkeep.
           destruct Hempty as [ -> | [ -> | -> ] ]; reflexivity.
        -- split; [|exact Hkey].
           rewrite Hpay. destruct (merge_existing_frame obj existing) as [_ ->].
           apply (build_obj_identity self item obj Hobj).
      * intros f Ht [e He]. exfalso. specialize (Hattr f).
        rewrite Ht, He in Hattr. discriminate.
    + rewrite Hout. cbn [fst snd]. split; [exact Heta|]. intros _ _ _.
      eexists. reflexivity.
  - rewrite Hout. cbn [fst snd]. split; [exact Heta|]. intros _ _ _.
    eexists. reflexivity.
Qed.

(** C1, amended.  For every record whose upsert commits and whose
    [security_name] has at most 512 characters, whatever its dates and URL
    (null ones included): the name is not null, upserting an identical
    record again commits and changes nothing, and the table holds exactly
    one row of the record's identity, where a stored row has the identity
    when all four of name, start date, end date and URL equal the
    record's, null parts equal only to null. *)
Theorem upsert_twice_one_row `{PyLib} (self : Pipeline.pipeline)
    (item : Item.t) (db db1 : Pipeline.database) :
  db_ok db ->
  name_fits item ->
  Pipeline.process_item self item db = (Ret item, db1) ->
  exists (obj row : Pipeline.IssueCompact),
    Pipeline.build_obj self item = Ret obj
    /\ Pipeline.security_name obj = Item.security_name item
    /\ is_Some (Item.security_name item)
    /\ Pipeline.to_iso_date (Item.start_date item) = Ret (Pipeline.start_date obj)
    /\ Pipeline.to_iso_date (Item.end_date item) = Ret (Pipeline.end_date obj)
    /\ Pipeline.detail_url obj = Item.detail_url item
    /\ Pipeline.process_item self item db1 = (Ret item, db1)
    /\ stored (Pipeline.identity obj) db1 = [row]
    /\ (forall r, r ∈ stored (Pipeline.identity obj) db1 <->
          r ∈ Pipeline.rows db1
          /\ Pipeline.security_name r = Pipeline.security_name obj
          /\ Pipeline.start_date r = Pipeline.start_date obj
          /\ Pipeline.end_date r = Pipeline.end_date obj
          /\ Pipeline.detail_url r = Pipeline.detail_url obj)
    /\ db_ok db1.
Proof.
  intros Hok Hfit Hp.
  assert (Hok1 : db_ok db1).
  { pose proof (process_item_keeps_ok self item db Hok) as Hok1.
    rewrite Hp in Hok1. exact Hok1. }
  destruct (process_item_commits self item db db1 Hok Hp)
    as (obj & row & before & after & Hobj & Hset & Hrows & Hs & He & Hu & Hn & Hsome
        & Hb & Ha).
  destruct (build_obj_identity self item obj Hobj) as (_ & Hn' & Hs' & He' & Hu' & _).
  assert (Hname : Pipeline.security_name row = Pipeline.security_name obj).
  { rewrite Hn, Hn'. apply take_within, Hfit. }
  assert (Hk : Pipeline.identity row = Pipeline.identity obj)
    by (unfold Pipeline.identity; congruence).
  assert (Hq : Pipeline.query_identity obj db1 = [row]).
  { unfold Pipeline.query_identity. rewrite Hrows.
    apply query_of_split; assumption. }
  exists obj, row.
  split; [exact Hobj|]. split; [exact Hn'|].
  split; [rewrite <- Hn', <- Hname; exact Hsome|].
  split; [exact Hs'|]. split; [exact He'|]. split; [exact Hu'|]. split; [|split; [|split]].
  - unfold Pipeline.process_item, Pipeline.upsert, Pipeline.lookup.
    rewrite Hobj. cbn [mbind res_bind]. rewrite Hq.
    cbn [Pipeline.one_or_none mbind res_bind mret res_ret]. unfold Pipeline.update.
    rewrite (merge_settled obj row Hset). cbn [mbind res_bind mret res_ret].
    do 2 f_equal. destruct db1 as [rows1 next1]. cbn in *. f_equal.
    subst rows1. apply (replace_key_unique Pipeline.id). apply Hok1.
  - exact Hq.
  - intros r. unfold stored. rewrite list_elem_of_filter. unfold Pipeline.identity.
    split.
    + intros [[= -> -> -> ->] Hr]. auto.
    + intros (Hr & -> & -> & -> & ->). auto.
  - exact Hok1.
Qed.


Lemma db_acme_ok : db_ok Examples.db_acme.
Proof.
  change Examples.db_acme
    with (snd (Pipeline.process_item (H := PyRef.lib) Examples.self
                 Examples.item_acme Pipeline.empty_db)).
  apply process_item_keeps_ok, db_ok_empty.
Qed.

(** C5 on the stored row of [Examples.db_acme] and a later scrape of the
    same issue. *)
Lemma update_overwrites_allow_list_only_witness :
  exists new : Pipeline.IssueCompact,
    Pipeline.process_item (H := PyRef.lib) Examples.self Examples.item_acme_later
      Examples.db_acme
    = (Ret Examples.item_acme_later,
       {| Pipeline.rows := [new]; Pipeline.next_id := 2 |})
    /\ Pipeline.issue_status new = Some "Closed"
    /\ Pipeline.exchange_platform new = Some "BSE SME"
    /\ Pipeline.type_of_issue new = Some "IPO"
    /\ Pipeline.price_min new = Some 100%float
    /\ Pipeline.price_max new = Some 125%float
    /\ Pipeline.details (Pipeline.payload new) = {[ "Registrar" := "R" ]}
    /\ key_columns new = key_columns Examples.row_acme.
Proof.
  destruct (update_overwrites_allow_list_only (H := PyRef.lib) Examples.self
              Examples.item_acme_later Examples.db_acme Examples.obj_acme_later
              Examples.row_acme db_acme_ok) as [Hout _].
  - vm_compute. reflexivity.
  - left.
  - reflexivity.
  - cbv zeta in Hout.
    destruct (Pipeline.process_item (H := PyRef.lib) Examples.self
                Examples.item_acme_later Examples.db_acme) as [[returned|e] db'] eqn:Hp;
      [|vm_compute in Hp; discriminate Hp].
    cbn [fst snd] in Hout.
    destruct Hout as (-> & new & before & after & Hrows & Hrows' & Hnext & _ & Hfit
                      & Hkeep & _ & Hpay & Hkey).
    simpl in Hrows. destruct before as [|x [|y before]]; try discriminate Hrows.
    injection Hrows as <-.
    exists new. split.
    + destruct db' as [rows' next']. simpl in *. subst rows' next'. reflexivity.
    + pose proof (Hfit Pipeline.c_issue_status eq_refl) as H1.
      pose proof (Hkeep Pipeline.c_exchange_platform eq_refl) as H2.
      pose proof (Hkeep Pipeline.c_type_of_issue eq_refl) as H3.
      pose proof (Hkeep Pipeline.c_price_min eq_refl) as H4.
      pose proof (Hfit Pipeline.c_price_max eq_refl) as H5.
      assert (H1' : getattr new Pipeline.c_issue_status = AStr (Some "Closed")).
      { apply H1. intros s [= <-]. simpl. lia. }
      assert (H5' : getattr new Pipeline.c_price_max = AFloat (Some 125%float)).
      { apply H5. exact I. }
      injection H1' as H1'. injection H2 as H2. injection H3 as H3.
      injection H4 as H4. injection H5' as H5'.
      assert (Hb : Pipeline.build_payload (H := PyRef.lib) Examples.self
                     Examples.item_acme_later
                   = Ret (Pipeline.payload Examples.obj_acme_later))
        by (vm_compute; reflexivity).
      rewrite Hb in Hpay. injection Hpay as Hpay. rewrite <- Hpay.
      repeat split; assumption || reflexivity.
Defined.

(** C5 as stated fails on an incoming text that is longer than its column:
    the later scrape of the stored issue has a face value of 74 characters
    for the column [face_value] of 64; the UPDATE is refused, the upsert
    raises and is rolled back, so that no column of the stored row is
    overwritten and its payload is not replaced. *)
Lemma overlong_text_replaces_nothing :
  Pipeline.identity Examples.obj_acme_later = Pipeline.identity Examples.row_acme
  /\ (exists obj,
        Pipeline.build_obj (H := PyRef.lib) Examples.self Examples.item_acme_overlong
        = Ret obj
        /\ Pipeline.identity obj = Pipeline.identity Examples.row_acme
        /\ Pipeline.issue_status obj = Some "Closed"
        /\ Pipeline.details (Pipeline.payload obj) = {[ "Registrar" := "R" ]})
  /\ Pipeline.process_item (H := PyRef.lib) Examples.self Examples.item_acme_overlong
       Examples.db_acme
     = (Raise DataError, Examples.db_acme)
  /\ Pipeline.issue_status Examples.row_acme = Some "Live"
  /\ Pipeline.details (Pipeline.payload Examples.row_acme) = {[ "Issue Size" := "1000" ]}.
Proof.
  split; [reflexivity|]. split; [|split; [vm_compute; reflexivity|split; reflexivity]].
  eexists. split; [vm_compute; reflexivity|]. repeat split; reflexivity.
Qed.

(** C1 on [Examples.item_acme], ingested twice into the empty table. *)
Lemma upsert_twice_one_row_witness :
  exists row : Pipeline.IssueCompact,
    Pipeline.process_item (H := PyRef.lib) Examples.self Examples.item_acme
      Pipeline.empty_db = (Ret Examples.item_acme, Examples.db_acme)
    /\ Pipeline.process_item (H := PyRef.lib) Examples.self Examples.item_acme
         Examples.db_acme = (Ret Examples.item_acme, Examples.db_acme)
    /\ stored (Some "ACME Ltd", Some {| year := 2024; month := 3; day := 5 |},
               None, None) Examples.db_acme = [row].
Proof.
  destruct (upsert_twice_one_row (H := PyRef.lib) Examples.self Examples.item_acme
              Pipeline.empty_db Examples.db_acme db_ok_empty)
    as (obj & row & Hobj & _ & _ & _ & _ & _ & Hp2 & Hstored & _).
  - intros s [= <-]. simpl. lia.
  - vm_compute. reflexivity.
  - exists row. split; [vm_compute; reflexivity|]. split; [exact Hp2|].
    assert (Hk : Pipeline.identity obj
                 = (Some "ACME Ltd", Some {| year := 2024; month := 3; day := 5 |},
                    None, None)).
    { vm_compute in Hobj. injection Hobj as <-. reflexivity. }
    rewrite <- Hk. exact Hstored.
Defined.

(** C1 as stated fails on a record with a null [security_name]: the
    INSERT violates [nullable=False], both upserts raise and are rolled
    back, and no row of the record's identity is stored. *)
Lemma nameless_record_is_not_stored :
  let upsert1 :=
    Pipeline.process_item (H := PyRef.lib) Examples.self Examples.item_nameless
      Pipeline.empty_db in
  let upsert2 :=
    Pipeline.process_item (H := PyRef.lib) Examples.self Examples.item_nameless
      (snd upsert1) in
  fst upsert1 = Raise IntegrityError
  /\ fst upsert2 = Raise IntegrityError
  /\ (exists obj,
        Pipeline.build_obj (H := PyRef.lib) Examples.self Examples.item_nameless = Ret obj
        /\ Pipeline.identity obj
           = (None, Some {| year := 2024; month := 3; day := 5 |}, None,
              Some "https://www.bseindia.com/d/1")
        /\ stored (Pipeline.identity obj) (snd upsert2) = []).
Proof.
  vm_compute. split; [reflexivity|]. split; [reflexivity|].
  eexists. split; [reflexivity|]. split; reflexivity.
Qed.


(** ** The pager *)

Lemma sorted_elem (s : gset Z) (n : Z) : n ∈ Spider.sorted s <-> n ∈ s.
Proof.
  unfold Spider.sorted. rewrite merge_sort_Permutation. apply elem_of_elements.
Qed.

Lemma strictly_sorted (l : list Z) :
  StronglySorted Z.le l -> NoDup l -> StronglySorted Z.lt l.
Proof.
  induction 1 as [|x l Hl IH Hx]; intros Hnd; constructor.
  - apply IH. apply NoDup_cons in Hnd as [_ Hnd]. exact Hnd.
  - apply NoDup_cons in Hnd as [Hnin _].
    rewrite Forall_forall in *. intros y Hy.
    assert (x <= y) by (apply Hx; exact Hy).
    assert (x <> y) by (intros ->; apply Hnin; exact Hy). lia.
Qed.

Lemma sorted_ascending (s : gset Z) : StronglySorted Z.lt (Spider.sorted s).
Proof.
  unfold Spider.sorted. apply strictly_sorted.
  - apply StronglySorted_merge_sort; apply _.
  - rewrite merge_sort_Permutation. apply NoDup_elements.
Qed.

Section Pager.
Context `{PyLib}.

Lemma target_is_first_match (hrefs : list string) :
  Spider._extract_target_from_postback_list hrefs
  = (fun m => unquote (fst m)) <$> head (omap Spider.search_postback hrefs).
Proof.
  induction hrefs as [|href hrefs IH]; simpl; [reflexivity|].
  destruct (Spider.search_postback href) as [[g1 g2]|]; [reflexivity|exact IH].
Qed.

Lemma scan_href_pages (st : gset Z * bool) (href : string) (n : Z) :
  n ∈ fst (Spider.scan_href st href) <-> n ∈ fst st \/ links_page href n.
Proof.
  destruct st as [pages flag]. unfold Spider.scan_href, links_page. simpl.
  destruct (Spider.search_postback href) as [[g1 g2]|] eqn:E; simpl.
  - destruct (Spider.search_page_number (unquote g2)) as [digits|] eqn:Ed; simpl.
    + rewrite elem_of_union, elem_of_singleton. split.
      * intros [->|?]; [right; eauto 10|left; assumption].
      * intros [?|(a & b & d & [= <- <-] & Hd & ->)]; [right; assumption|].
        rewrite Ed in Hd. injection Hd as <-. left. reflexivity.
    + split; [auto|]. intros [?|(a & b & d & [= <- <-] & Hd & _)]; [assumption|].
      congruence.
  - split; [auto|]. intros [?|(a & b & d & Hm & _)]; [assumption|discriminate].
Qed.

Lemma scan_href_next (st : gset Z * bool) (href : string) :
  snd (Spider.scan_href st href) = true <-> snd st = true \/ links_next href.
Proof.
  destruct st as [pages flag]. unfold Spider.scan_href, links_next. simpl.
  destruct (Spider.search_postback href) as [[g1 g2]|] eqn:E; simpl.
  - destruct (contains "Page$Next" (unquote g2)) eqn:En.
    + split; [right; eauto|reflexivity].
    + split; [auto|]. intros [?|(a & b & [= <- <-] & Hn)]; [assumption|congruence].
  - split; [auto|]. intros [?|(a & b & Hm & _)]; [assumption|discriminate].
Qed.

Lemma foldl_scan_pages (hrefs : list string) (st : gset Z * bool) (n : Z) :
  n ∈ fst (foldl Spider.scan_href st hrefs)
  <-> n ∈ fst st \/ exists href, href ∈ hrefs /\ links_page href n.
Proof.
  revert st. induction hrefs as [|href hrefs IH]; intros st; simpl.
  - split; [auto|]. intros [?|(href & Hin & _)]; [assumption|inversion Hin].
  - rewrite IH, scan_href_pages. split.
    + intros [[?|?]|(h & Hin & Hh)]; [auto|right..].
      * exists href. split; [left|assumption].
      * exists h. split; [right; assumption|assumption].
    + intros [?|(h & [->|Hin]%elem_of_cons & Hh)]; eauto.
Qed.

Lemma foldl_scan_next (hrefs : list string) (st : gset Z * bool) :
  snd (foldl Spider.scan_href st hrefs) = true
  <-> snd st = true \/ exists href, href ∈ hrefs /\ links_next href.
Proof.
  revert st. induction hrefs as [|href hrefs IH]; intros st; simpl.
  - split; [auto|]. intros [?|(href & Hin & _)]; [assumption|inversion Hin].
  - rewrite IH, scan_href_next. split.
    + intros [[?|?]|(h & Hin & Hh)]; [auto|right..].
      * exists href. split; [left|assumption].
      * exists h. split; [right; assumption|assumption].
    + intros [?|(h & [->|Hin]%elem_of_cons & Hh)]; eauto.
Qed.

Lemma pager_pages_ascending (table_sel : Spider.table) :
  StronglySorted Z.lt (Spider.pages (Spider._extract_pager table_sel)).
Proof.
  unfold Spider._extract_pager.
  destruct (foldl Spider.scan_href (∅, false) (Spider.postback_hrefs table_sel)).
  simpl. apply sorted_ascending.
Qed.

End Pager.

(** C2, amended.  For every table the Pager Extractor returns: the
    unquoted target of the first link that matches the postback pattern (no
    target when none matches); the page numbers that the links name, in
    ascending order and without repetition, and the list [[1]] when no link
    names a page (page 1 is not added to a non-empty set); and a flag that
    is true exactly when a link's argument holds [Page$Next].  In
    particular a table whose links encode target [pager1] with arguments
    [Page$2] and [Page$Next] yields target [pager1], pages [[2]] and the
    flag set. *)
Theorem extract_pager_output `{PyLib} (table_sel : Spider.table) :
  let hrefs := Spider.postback_hrefs table_sel in
  let pager := Spider._extract_pager table_sel in
  Spider.target pager
  = (fun m => unquote (fst m)) <$> head (omap Spider.search_postback hrefs)
  /\ StronglySorted Z.lt (Spider.pages pager)
  /\ ((exists href n, href ∈ hrefs /\ links_page href n) ->
      forall n, n ∈ Spider.pages pager <-> exists href, href ∈ hrefs /\ links_page href n)
  /\ ((forall href n, href ∈ hrefs -> ~ links_page href n) ->
      Spider.pages pager = [1])
  /\ (Spider.has_next pager = true <-> exists href, href ∈ hrefs /\ links_next href)
  /\ Spider._extract_pager Examples.pager_table
     = {| Spider.target := Some "pager1"; Spider.pages := [2];
          Spider.has_next := true |}.
Proof.
  intros hrefs pager.
  assert (Hexample : Spider._extract_pager Examples.pager_table
                     = {| Spider.target := Some "pager1"; Spider.pages := [2];
                          Spider.has_next := true |}).
  { unfold Spider._extract_pager.
    change (Spider.postback_hrefs Examples.pager_table)
      with ["javascript:__doPostBack('pager1','Page$2')";
            "javascript:__doPostBack('pager1','Page$Next')"].
    assert (E1 : Spider.search_postback "javascript:__doPostBack('pager1','Page$2')"
                 = Some ("pager1", "Page$2")) by (vm_compute; reflexivity).
    assert (E2 : Spider.search_postback "javascript:__doPostBack('pager1','Page$Next')"
                 = Some ("pager1", "Page$Next")) by (vm_compute; reflexivity).
    cbn [foldl Spider._extract_target_from_postback_list]. unfold Spider.scan_href.
    rewrite E1, E2. rewrite !unquote_plain by reflexivity.
    vm_compute. reflexivity. }
  rewrite Hexample. clear Hexample.
  unfold pager, Spider._extract_pager. fold hrefs.
  destruct (foldl Spider.scan_href (∅, false) hrefs) as [found flag] eqn:E.
  assert (Hfound : forall n, n ∈ found <-> exists href, href ∈ hrefs /\ links_page href n).
  { intros n. pose proof (foldl_scan_pages hrefs (∅, false) n) as Hn.
    rewrite E in Hn. simpl in Hn. rewrite Hn. split; [|auto].
    intros [Hempty|?]; [|assumption]. apply elem_of_empty in Hempty. contradiction. }
  assert (Hflag : flag = true <-> exists href, href ∈ hrefs /\ links_next href).
  { pose proof (foldl_scan_next hrefs (∅, false)) as Hn.
    rewrite E in Hn. simpl in Hn. rewrite Hn. split; [|auto].
    intros [?|?]; [discriminate|assumption]. }
  simpl. split; [apply target_is_first_match|]. split; [apply sorted_ascending|].
  split; [|split; [|split; [exact Hflag|reflexivity]]].
  - intros (href & n & Hin & Hn) m.
    rewrite bool_decide_eq_false_2.
    + rewrite sorted_elem. apply Hfound.
    + intros ->. apply (elem_of_empty (C := gset Z) n). apply Hfound. eauto.
  - intros Hnone. rewrite bool_decide_eq_true_2; [reflexivity|].
    apply leibniz_equiv, elem_of_equiv_empty. intros n [href [Hin Hn]]%Hfound.
    exact (Hnone href n Hin Hn).
Qed.

(** C2 as stated fails on its own example: with links to [Page$2] and
    [Page$Next] only, the page list is [[2]]; page 1 is not in it. *)
Lemma pager_example_lacks_page_one :
  Spider._extract_pager (H := PyRef.lib) Examples.pager_table
  = {| Spider.target := Some "pager1"; Spider.pages := [2]; Spider.has_next := true |}
  /\ (1 ∉ Spider.pages (Spider._extract_pager (H := PyRef.lib) Examples.pager_table))
  /\ (Spider.pages (Spider._extract_pager (H := PyRef.lib) Examples.pager_table)
      <> [1; 2]).
Proof.
  assert (E : Spider._extract_pager (H := PyRef.lib) Examples.pager_table
              = {| Spider.target := Some "pager1"; Spider.pages := [2];
                   Spider.has_next := true |}) by (vm_compute; reflexivity).
  rewrite E. simpl. split; [reflexivity|]. split; [|discriminate].
  intros Hin. apply list_elem_of_singleton in Hin. discriminate.
Qed.

(** C2 on the pager of the specification's example. *)
Lemma extract_pager_output_witness :
  2 ∈ Spider.pages (Spider._extract_pager (H := PyRef.lib) Examples.pager_table)
  <-> exists href, href ∈ Spider.postback_hrefs Examples.pager_table
                   /\ links_page (H := PyRef.lib) href 2.
Proof.
  destruct (extract_pager_output (H := PyRef.lib) Examples.pager_table)
    as (_ & _ & Hpages & _).
  apply Hpages.
  exists "javascript:__doPostBack('pager1','Page$2')", 2. split.
  - left.
  - exists "pager1", "Page$2", "2". repeat split; vm_compute; reflexivity.
Defined.

(** ** The row parser *)

Lemma parse_table_records (t : Spider.table) (si : Z) (st : string) (pi : Z)
    (resp : Spider.response) :
  Spider._parse_table t si st pi resp
  = row_record (Spider.resolve_headers t) si st pi (Spider.url resp)
      <$> List.filter Spider.not_blank_row (Spider.walked_rows t).
Proof. reflexivity. Qed.

Lemma fill_columns_lookup (headers : list string) (cells : list string) (i : nat)
    (m : gmap string Spider.value) (k : string) :
  is_Some (Spider.fill_columns headers i cells m !! k)
  <-> is_Some (m !! k) \/ k ∈ Spider.key_for headers <$> seq i (length cells).
Proof.
  revert i m. induction cells as [|val cells IH]; intros i m; simpl.
  - rewrite elem_of_nil. tauto.
  - rewrite IH, lookup_insert_is_Some, elem_of_cons.
    destruct (decide (Spider.key_for headers i = k)); intuition congruence.
Qed.

Lemma fill_columns_size_le (headers : list string) (cells : list string) (i : nat)
    (m : gmap string Spider.value) :
  (size (Spider.fill_columns headers i cells m) <= size m + length cells)%nat.
Proof.
  revert i m. induction cells as [|val cells IH]; intros i m; simpl; [lia|].
  etransitivity; [apply IH|]. rewrite map_size_insert.
  destruct (m !! Spider.key_for headers i); unfold id; lia.
Qed.

Lemma fill_columns_size (headers : list string) (cells : list string) (i : nat)
    (m : gmap string Spider.value) :
  NoDup (Spider.key_for headers <$> seq i (length cells)) ->
  (forall k, k ∈ Spider.key_for headers <$> seq i (length cells) -> m !! k = None) ->
  size (Spider.fill_columns headers i cells m) = (size m + length cells)%nat.
Proof.
  revert i m. induction cells as [|val cells IH]; intros i m; simpl; [lia|].
  intros [Hnin Hnd]%NoDup_cons Hfree.
  rewrite IH; [|exact Hnd|].
  - rewrite map_size_insert_None; [lia|]. apply Hfree. left.
  - intros k Hk. rewrite lookup_insert_ne.
    + apply Hfree. right. exact Hk.
    + intros <-. contradiction.
Qed.

Lemma add_provenance_size (si : Z) (st : string) (pi : Z) (u : string)
    (item : gmap string Spider.value) :
  Forall (fun k => item !! k = None) provenance_keys ->
  size (Spider.add_provenance si st pi u item) = (size item + 4)%nat.
Proof.
  unfold provenance_keys. intros Hfree.
  repeat (apply Forall_cons in Hfree as [? Hfree]).
  unfold Spider.add_provenance.
  rewrite !map_size_insert_None; [lia|..]; rewrite ?lookup_insert_ne by discriminate;
    assumption.
Qed.

Lemma key_for_cases (headers : list string) (i : nat) :
  (forall h, headers !! i = Some h -> h <> "" -> Spider.key_for headers i = h)
  /\ (headers !! i = None \/ headers !! i = Some "" ->
      Spider.key_for headers i = "col_" +:+ str_of_nat (i + 1)).
Proof.
  unfold Spider.key_for. split.
  - intros h -> Hh. apply nonempty_iff in Hh. rewrite Hh. reflexivity.
  - intros [->| ->]; reflexivity.
Qed.

Lemma fill_columns_other (headers : list string) (cells : list string) (i0 : nat)
    (m : gmap string Spider.value) (k : string) :
  (forall j, (j < length cells)%nat -> Spider.key_for headers (i0 + j) <> k) ->
  Spider.fill_columns headers i0 cells m !! k = m !! k.
Proof.
  revert i0 m. induction cells as [|val cells IH]; intros i0 m Hk; simpl; [reflexivity|].
  rewrite IH.
  - apply lookup_insert_ne. specialize (Hk 0%nat). rewrite Nat.add_0_r in Hk.
    apply Hk. simpl. lia.
  - intros j Hj. replace (S i0 + j)%nat with (i0 + S j)%nat by lia. apply Hk. simpl. lia.
Qed.

Lemma fill_columns_last (headers : list string) (cells : list string) (i0 : nat)
    (m : gmap string Spider.value) (i : nat) (v : string) :
  cells !! i = Some v ->
  (forall j, (i < j < length cells)%nat ->
     Spider.key_for headers (i0 + j) <> Spider.key_for headers (i0 + i)) ->
  Spider.fill_columns headers i0 cells m !! Spider.key_for headers (i0 + i)
  = Some (Spider.VStr v).
Proof.
  revert i0 m i. induction cells as [|val cells IH]; intros i0 m i Hi Hlater;
    [discriminate|].
  destruct i as [|i]; simpl in Hi.
  - injection Hi as ->. simpl. rewrite Nat.add_0_r. rewrite fill_columns_other.
    + apply lookup_insert_eq.
    + intros j Hj. replace (S i0 + j)%nat with (i0 + S j)%nat by lia.
      specialize (Hlater (S j)). rewrite Nat.add_0_r in Hlater. apply Hlater. simpl. lia.
  - simpl. replace (i0 + S i)%nat with (S i0 + i)%nat by lia. apply IH; [exact Hi|].
    intros j Hj. replace (S i0 + j)%nat with (i0 + S j)%nat by lia.
    replace (S i0 + i)%nat with (i0 + S i)%nat by lia. apply Hlater. simpl. lia.
Qed.

Lemma size_list_to_set_le (l : list string) :
  (size (list_to_set l : gset string) <= length l)%nat.
Proof.
  induction l as [|x l IH]; [rewrite list_to_set_nil, size_empty; simpl; lia|].
  rewrite list_to_set_cons. simpl length.
  rewrite size_union_alt.
  rewrite size_singleton.
  assert (Hd : (size ((list_to_set l : gset string) ∖ {[x]}) <= size (list_to_set l : gset string))%nat)
    by (apply subseteq_size; set_solver).
  lia.
Qed.

Lemma size_list_to_set_dup (l : list string) :
  ~ NoDup l -> (size (list_to_set l : gset string) < length l)%nat.
Proof.
  induction l as [|x l IH]; intros Hnd; [exfalso; apply Hnd, NoDup_nil_2|].
  rewrite list_to_set_cons. simpl length. destruct (decide (x ∈ l)) as [Hin|Hnin].
  - replace ({[x]} ∪ list_to_set l : gset string) with (list_to_set l : gset string)
      by set_solver.
    pose proof (size_list_to_set_le l). lia.
  - assert (Hl : ~ NoDup l) by (intros Hl; apply Hnd, NoDup_cons; auto).
    specialize (IH Hl).
    assert (Hu : (size ({[x]} ∪ list_to_set l : gset string)
                  <= 1 + size (list_to_set l : gset string))%nat).
    { rewrite size_union_alt, size_singleton.
      assert ((size ((list_to_set l : gset string) ∖ {[x]})
               <= size (list_to_set l : gset string))%nat)
        by (apply subseteq_size; set_solver).
      lia. }
    lia.
Qed.

Lemma row_columns_size (headers cells : list string) :
  size (Spider.row_columns headers cells)
  = size (list_to_set (cell_keys headers (length cells)) : gset string).
Proof.
  rewrite <- size_dom. f_equal. apply set_eq. intros k.
  rewrite elem_of_dom, elem_of_list_to_set. unfold Spider.row_columns.
  rewrite fill_columns_lookup, lookup_empty. unfold cell_keys.
  split; [intros [[? [=]]|?]; assumption|auto].
Qed.

(** C6, amended.  [_parse_table] raises nothing and yields one record per
    non-blank row it walks.  Each cell of the row is stored under the
    header name at its position when there is one and it is not empty, and
    under the positional placeholder [col_<position>] otherwise; the value
    under a key is the text of the last cell of that key, so a cell is
    found under its key unless a later cell has the same key and
    overwrites it.  The column keys of the record are exactly these
    per-cell keys: they are as many as the cells when the per-cell keys
    are pairwise distinct and fewer when two cells share a key, and the
    whole record then has four keys more, the provenance keys, unless a
    column is named like one of them.  A seven-cell row under five header
    names has the keys [col_6] and [col_7]. *)
Theorem parse_table_keys (t : Spider.table) (si : Z) (st : string) (pi : Z)
    (resp : Spider.response) :
  let headers := Spider.resolve_headers t in
  let rows := List.filter Spider.not_blank_row (Spider.walked_rows t) in
  Spider._parse_table t si st pi resp
  = row_record headers si st pi (Spider.url resp) <$> rows
  /\ Forall (fun r =>
       let cells := Spider.row_cells r in
       let keys := cell_keys headers (length cells) in
       let columns := Spider.row_columns headers cells in
       (forall k, is_Some (columns !! k) <-> k ∈ keys)
       /\ (forall i v, cells !! i = Some v ->
             (forall j, (i < j < length cells)%nat ->
                Spider.key_for headers j <> Spider.key_for headers i) ->
             columns !! Spider.key_for headers i = Some (Spider.VStr v))
       /\ (forall i h, headers !! i = Some h -> h <> "" ->
             Spider.key_for headers i = h)
       /\ (forall i, headers !! i = None \/ headers !! i = Some "" ->
             Spider.key_for headers i = "col_" +:+ str_of_nat (i + 1))
       /\ (size columns <= length cells)%nat
       /\ (NoDup keys -> size columns = length cells)
       /\ (~ NoDup keys -> (size columns < length cells)%nat)
       /\ (NoDup keys -> Forall (fun k => k ∉ keys) provenance_keys ->
           size (row_record headers si st pi (Spider.url resp) r)
           = (length cells + 4)%nat)) rows
  /\ (exists item,
        Spider._parse_table Examples.table_shortfall si st pi resp = [item]
        /\ item !! "col_6" = Some (Spider.VStr "x")
        /\ item !! "col_7" = Some (Spider.VStr "y")
        /\ item !! "Name" = Some (Spider.VStr "ACME")
        /\ size item = (7 + 4)%nat).
Proof.
  intros headers rows. split; [reflexivity|]. split.
  - apply Forall_forall. intros r _ cells keys columns.
    assert (Hlookup : forall k, is_Some (columns !! k) <-> k ∈ keys).
    { intros k. unfold columns, Spider.row_columns.
      rewrite fill_columns_lookup, lookup_empty. unfold keys, cell_keys.
      split; [intros [[? [=]]|?]; assumption|auto]. }
    assert (Hlen : length keys = length cells).
    { unfold keys, cell_keys. rewrite length_fmap, length_seq. reflexivity. }
    split; [exact Hlookup|]. split.
    { intros i v Hi Hlater. unfold columns, Spider.row_columns.
      apply (fill_columns_last headers cells 0 ∅ i v Hi). exact Hlater. }
    split; [intros i; apply key_for_cases|].
    split; [intros i; apply key_for_cases|]. split; [|split; [|split]].
    + pose proof (fill_columns_size_le headers cells 0 ∅) as Hle.
      rewrite map_size_empty in Hle. exact Hle.
    + intros Hnd. unfold columns, Spider.row_columns.
      rewrite fill_columns_size, map_size_empty; [reflexivity|exact Hnd|].
      intros k _. apply lookup_empty.
    + intros Hnd. unfold columns. rewrite row_columns_size. fold keys.
      rewrite <- Hlen. apply size_list_to_set_dup, Hnd.
    + intros Hnd Hprov. unfold row_record. rewrite add_provenance_size.
      * fold cells columns. f_equal. unfold columns, Spider.row_columns.
        rewrite fill_columns_size, map_size_empty; [reflexivity|exact Hnd|].
        intros k _. apply lookup_empty.
      * fold cells columns. eapply Forall_impl; [exact Hprov|]. simpl.
        intros k Hk. destruct (columns !! k) eqn:E; [|reflexivity].
        exfalso. apply Hk, Hlookup. eauto.
  - eexists. split; [reflexivity|]. vm_compute. repeat split; reflexivity.
Qed.

(** C6 as stated fails on a table with two columns of the same name: the
    row has two cells and its record one column key (five keys with the
    provenance), under which the text of the second cell is found. *)
Lemma same_names_share_a_key :
  exists (r : list Spider.cell) (item : gmap string Spider.value),
    Spider.data_rows Examples.table_same_names = [r]
    /\ Spider._parse_table Examples.table_same_names 1 "t" 1 Examples.page = [item]
    /\ length (Spider.row_cells r) = 2%nat
    /\ size (Spider.row_columns (Spider.resolve_headers Examples.table_same_names)
               (Spider.row_cells r)) = 1%nat
    /\ size item = 5%nat
    /\ item !! "Name" = Some (Spider.VStr "Beta").
Proof.
  eexists _, _. split; [reflexivity|]. split; [reflexivity|].
  vm_compute. repeat split; reflexivity.
Qed.

(** C6 on a table of five header names and a row of seven cells. *)
Lemma parse_table_keys_witness :
  exists r : list Spider.cell,
    Spider.data_rows Examples.table_shortfall = [r]
    /\ size (Spider.row_columns (Spider.resolve_headers Examples.table_shortfall)
               (Spider.row_cells r)) = 7%nat
    /\ size (row_record (Spider.resolve_headers Examples.table_shortfall) 1 "t" 1
               (Spider.url Examples.page) r) = 11%nat.
Proof.
  destruct (parse_table_keys Examples.table_shortfall 1 "t" 1 Examples.page)
    as (_ & Hrows & _).
  eexists. split; [reflexivity|].
  apply Forall_cons in Hrows as [(_ & _ & _ & _ & _ & Hcols & _ & Hitem) _].
  match type of Hcols with ?P -> _ => assert (Hnd : P) end.
  { eapply bool_decide_eq_true_1. vm_compute. reflexivity. }
  split; [exact (Hcols Hnd)|]. apply (Hitem Hnd).
  eapply bool_decide_eq_true_1. vm_compute. reflexivity.
Defined.

Lemma existsb_filter_nonempty {A} (p : A -> bool) (l : list A) :
  (0 < length (List.filter p l))%nat -> existsb p l = true.
Proof.
  induction l as [|x l IH]; simpl; [lia|].
  destruct (p x); [reflexivity|]. exact IH.
Qed.

Lemma existsb_none {A} (p : A -> bool) (l : list A) :
  Forall (fun x => p x = false) l -> existsb p l = false.
Proof. induction 1 as [|x l Hx _ IH]; simpl; [reflexivity|]. rewrite Hx. exact IH. Qed.

Lemma resolve_headers_without_th (t : Spider.table) :
  Spider.th_texts t = [] ->
  Spider.resolve_headers t
  = if existsb has_letter (Spider.first_row_candidates (Spider.data_rows t))
    then Spider.first_row_candidates (Spider.data_rows t) else [].
Proof. intros Hth. unfold Spider.resolve_headers. rewrite Hth. reflexivity. Qed.

(** C7, amended.  For every table without explicit header cells, the Row
    Parser takes the cleaned texts of the first data row as header names
    whenever most of them contain a letter, and infers no header when none
    of them does (or the table has no data row); what it decides depends
    on the first data row alone: the cell counts of the rows after it are
    not compared. *)
Theorem header_from_first_row (t : Spider.table) :
  Spider.th_texts t = [] ->
  let cand := Spider.first_row_candidates (Spider.data_rows t) in
  ((length cand < 2 * length (List.filter has_letter cand))%nat ->
   Spider.resolve_headers t = cand)
  /\ (Forall (fun c => has_letter c = false) cand -> Spider.resolve_headers t = [])
  /\ (Spider.data_rows t = [] -> Spider.resolve_headers t = [])
  /\ (forall t' : Spider.table,
        Spider.th_texts t' = [] ->
        head (Spider.data_rows t') = head (Spider.data_rows t) ->
        Spider.resolve_headers t' = Spider.resolve_headers t).
Proof.
  intros Hth cand. rewrite (resolve_headers_without_th t Hth). fold cand.
  split; [|split; [|split]].
  - intros Hmost. rewrite existsb_filter_nonempty; [reflexivity|lia].
  - intros Hnone. rewrite existsb_none; [reflexivity|exact Hnone].
  - intros Hrows. unfold cand. rewrite Hrows. reflexivity.
  - intros t' Hth' Hhead. rewrite (resolve_headers_without_th t' Hth').
    assert (Hc : Spider.first_row_candidates (Spider.data_rows t') = cand).
    { unfold cand, Spider.first_row_candidates.
      destruct (Spider.data_rows t') as [|r' rest'], (Spider.data_rows t) as [|r rest];
        simpl in Hhead; try discriminate; [reflexivity|].
      injection Hhead as ->. reflexivity. }
    rewrite Hc. reflexivity.
Qed.

(** C7 as stated fails where the rows differ in length: the first row of
    this table has two cells, both with letters, the next row has three,
    and the first row is taken as the header all the same. *)
Lemma ragged_first_row_is_header :
  Spider.th_texts Examples.table_ragged = []
  /\ (length <$> (Spider.tds <$> Spider.data_rows Examples.table_ragged)) = [2; 3]%nat
  /\ Spider.resolve_headers Examples.table_ragged = ["Name"; "Code"].
Proof. vm_compute. repeat split; reflexivity. Qed.

(** C7 on a table whose two rows differ in length. *)
Lemma header_from_first_row_witness :
  Spider.resolve_headers Examples.table_ragged
  = Spider.first_row_candidates (Spider.data_rows Examples.table_ragged).
Proof.
  destruct (header_from_first_row Examples.table_ragged) as [Hmost _].
  - reflexivity.
  - apply Hmost. vm_compute. lia.
Defined.







(** X6.  Every record that [_parse_table] yields carries the section
    index, the section title, the page index and the URL of the response. *)
Theorem records_carry_provenance (t : Spider.table) (si : Z) (st : string) (pi : Z)
    (resp : Spider.response) :
  Forall (fun item =>
            item !! "section" = Some (Spider.VInt si)
            /\ item !! "section_title" = Some (Spider.VStr st)
            /\ item !! "page_index" = Some (Spider.VInt pi)
            /\ item !! "source_url" = Some (Spider.VStr (Spider.url resp)))
         (Spider._parse_table t si st pi resp).
Proof.
  rewrite parse_table_records. apply Forall_fmap, Forall_forall. intros r _.
  unfold row_record, Spider.add_provenance. simpl.
  repeat split; rewrite ?lookup_insert_ne by discriminate; apply lookup_insert_eq.
Qed.

(** ** The section locator *)

(** C3 on the code.  The spider has one [_fallback_table_chosen] for all
    sections and never resets it.  On a page that has the first section
    only, the table remembered for the first heading is returned for the
    second heading, which is absent; on a page where both sections have a
    table without pager, the second heading gets the table of the first;
    and [parse] emits the rows of that table once for each of the four
    sections. *)
Theorem fallback_table_crosses_sections :
  let remembered :=
    {| Spider._fallback_table_chosen := Some Examples.table_no_pager |} in
  Spider._pick_section_table Spider.new_spider Examples.page_one_section
    Examples.title1 = (Some Examples.table_no_pager, remembered)
  /\ ~ heading_present_on Examples.title2 Examples.page_one_section
  /\ Spider._pick_section_table remembered Examples.page_one_section Examples.title2
     = (Some Examples.table_no_pager, remembered)
  /\ Spider.candidates (Spider._norm Examples.title2)
       (Spider.body Examples.page_two_sections) = [Examples.table_no_pager_2]
  /\ Spider._pick_section_table remembered Examples.page_two_sections Examples.title2
     = (Some Examples.table_no_pager, remembered)
  /\ (fun item => (item !! "section", item !! "Company"))
       <$> Spider.items_of
             (fst (Spider.parse (H := PyRef.lib) Spider.new_spider
                     Examples.page_two_sections))
     = [(Some (Spider.VInt 1), Some (Spider.VStr "ACME"));
        (Some (Spider.VInt 2), Some (Spider.VStr "ACME"));
        (Some (Spider.VInt 3), Some (Spider.VStr "ACME"));
        (Some (Spider.VInt 4), Some (Spider.VStr "ACME"))].
Proof.
  cbv zeta. split; [vm_compute; reflexivity|]. split.
  - unfold heading_present_on, Spider.heading_present. intros Hex.
    apply Exists_exists in Hex as (n & Hn & Hmatch).
    simpl in Hn. apply elem_of_cons in Hn as [->|Hn].
    + vm_compute in Hmatch. discriminate.
    + apply list_elem_of_singleton in Hn. subst n. exact Hmatch.
  - repeat split; vm_compute; reflexivity.
Qed.

(** ** The postback request *)

Lemma or_str_self (s : string) : or_str (Some s) "" = s.
Proof. destruct s; reflexivity. Qed.




(** ** The traversal *)

(** C4 on the code.  On a section of three pages, each page linking to the
    other two, the numeric strategy started from page 1 sends three
    requests and then has none left: for page 2, for page 3 and, from the response
    of page 2, for page 3 again; the rows of page 3 are yielded twice. *)
Theorem numeric_dispatch_repeats_a_page :
  (fun r => (Spider.req_callback r, Spider.section_index (Spider.req_kwargs r),
             Spider.page_index (Spider.req_kwargs r),
             Spider.formdata r !! "__EVENTARGUMENT"))
    <$> fst (Spider.run (H := PyRef.lib) 10 Examples.site Examples.site_page1)
  = [(Spider.cb_parse_section_page, 1, 2, Some "Page$2");
     (Spider.cb_parse_section_page, 1, 3, Some "Page$3");
     (Spider.cb_parse_section_page, 1, 3, Some "Page$3")]
  /\ (fun item => (item !! "section", item !! "page_index", item !! "Company"))
       <$> snd (Spider.run (H := PyRef.lib) 10 Examples.site Examples.site_page1)
     = [(Some (Spider.VInt 1), Some (Spider.VInt 1), Some (Spider.VStr "ACME"));
        (Some (Spider.VInt 1), Some (Spider.VInt 2), Some (Spider.VStr "Beta"));
        (Some (Spider.VInt 1), Some (Spider.VInt 3), Some (Spider.VStr "Gamma"));
        (Some (Spider.VInt 1), Some (Spider.VInt 3), Some (Spider.VStr "Gamma"))].
Proof. split; vm_compute; reflexivity. Qed.

Lemma requests_of_app (a b : list Spider.output) :
  Spider.requests_of (a ++ b) = Spider.requests_of a ++ Spider.requests_of b.
Proof. unfold Spider.requests_of. apply bind_app. Qed.

Lemma requests_of_items (l : list (gmap string Spider.value)) :
  Spider.requests_of (Spider.Item <$> l) = [].
Proof. induction l as [|x l IH]; simpl; [reflexivity|exact IH]. Qed.

Lemma requests_of_reqs (l : list Spider.request) :
  Spider.requests_of (Spider.Req <$> l) = l.
Proof. induction l as [|x l IH]; simpl; [reflexivity|]. f_equal. exact IH. Qed.

Lemma requests_of_fmap {A} (f : A -> Spider.request) (l : list A) :
  Spider.requests_of ((fun x => Spider.Req (f x)) <$> l) = f <$> l.
Proof. induction l as [|x l IH]; simpl; [reflexivity|]. f_equal. exact IH. Qed.

Lemma StronglySorted_filter (p : Z -> bool) (l : list Z) :
  StronglySorted Z.lt l -> StronglySorted Z.lt (List.filter p l).
Proof.
  induction 1 as [|x l Hl IH Hx]; simpl; [constructor|].
  destruct (p x); [|exact IH]. constructor; [exact IH|].
  rewrite Forall_forall in *. intros y Hy.
  apply Hx. apply list_elem_of_In in Hy. apply filter_In in Hy as [Hy _].
  apply list_elem_of_In. exact Hy.
Qed.

Lemma page_of_numeric_requests (resp : Spider.response) (si : Z) (st gv : string)
    (ps : list Z) :
  page_of <$> (Spider.numeric_request resp si st gv <$> ps) = ps.
Proof. induction ps as [|p ps IH]; simpl; [reflexivity|]. f_equal. exact IH. Qed.

Local Set Warnings "-clear-no-such-hyp".

Section Traversal.
Context `{PyLib}.

(** X1.  The numeric strategy moves forward: the requests that
    [_parse_section_page] yields on the response for page [page_index] are
    for pages above [page_index], in strictly ascending order. *)
Theorem numeric_dispatch_moves_forward (self : Spider.spider)
    (resp : Spider.response) (si : Z) (st gv : string) (page_index : Z) :
  let sent :=
    Spider.requests_of (fst (Spider._parse_section_page self resp si st gv page_index)) in
  Forall (fun r => Spider.req_callback r = Spider.cb_parse_section_page
                   /\ page_index < page_of r) sent
  /\ StronglySorted Z.lt (page_of <$> sent).
Proof.
  unfold Spider._parse_section_page.
  destruct (Spider._pick_section_table self resp st) as [[table|] self'];
    [|split; constructor].
  cbn [fst]. rewrite requests_of_app, requests_of_items. cbn [app].
  set (pager := Spider._extract_pager table).
  set (ps := List.filter (fun p => page_index <? p) (Spider.pages pager)).
  rewrite (requests_of_fmap (Spider.numeric_request resp si st gv) ps).
  split.
  - apply Forall_fmap, Forall_forall. intros p Hp. split; [reflexivity|].
    unfold page_of. cbn. apply list_elem_of_In in Hp.
    apply filter_In in Hp as [_ Hp]. lia.
  - rewrite page_of_numeric_requests. apply StronglySorted_filter.
    apply pager_pages_ascending.
Qed.

(** X2.  The Next chain's own numeric requests are guarded by [seen]: on one
    response they are for pairwise distinct pages of the pager, none of
    them in [seen] and none the page just rendered, and all pages of the
    pager are in the set afterwards. *)
Theorem next_chain_numeric_guarded (resp : Spider.response) (si : Z)
    (st gv : string) (page_index : Z) (seen : gset Z) (ps : list Z) :
  let sent := fst (Spider.next_numeric resp si st gv page_index seen ps) in
  let seen' := snd (Spider.next_numeric resp si st gv page_index seen ps) in
  NoDup (page_of <$> sent)
  /\ Forall (fun r => Spider.req_callback r = Spider.cb_parse_section_page
                      /\ (page_of r ∉ seen) /\ page_of r <> page_index
                      /\ page_of r ∈ ps) sent
  /\ seen' = seen ∪ list_to_set ps.
Proof.
  revert seen. induction ps as [|p ps IH]; intros seen; simpl.
  - split; [constructor|]. split; [constructor|]. set_solver.
  - destruct (decide (p ∈ seen)) as [Hin|Hnin].
    + rewrite bool_decide_eq_true_2 by assumption.
      destruct (IH seen) as (Hnd & Hall & Hseen). split; [exact Hnd|]. split.
      * eapply Forall_impl; [exact Hall|]. simpl. intros r (? & ? & ? & ?).
        repeat split; try assumption. right. assumption.
      * rewrite Hseen. set_solver.
    + rewrite bool_decide_eq_false_2 by assumption.
      destruct (IH ({[p]} ∪ seen)) as (Hnd & Hall & Hseen).
      destruct (Spider.next_numeric resp si st gv page_index ({[p]} ∪ seen) ps)
        as [reqs seen''] eqn:E.
      simpl in *.
      assert (Hall' : Forall (fun r => Spider.req_callback r = Spider.cb_parse_section_page
                        /\ (page_of r ∉ seen) /\ page_of r <> page_index
                        /\ page_of r ∈ p :: ps) reqs).
      { eapply Forall_impl; [exact Hall|]. simpl. intros r (? & Hr & ? & ?).
        repeat split; try assumption; [set_solver|right; assumption]. }
      assert (Hp : p ∉ page_of <$> reqs).
      { intros (r & -> & Hr)%list_elem_of_fmap. rewrite Forall_forall in Hall.
        destruct (Hall r Hr) as (_ & Hr' & _). set_solver. }
      destruct (decide (p = page_index)) as [->|Hne].
      * rewrite bool_decide_eq_true_2 by reflexivity. simpl.
        split; [exact Hnd|]. split; [exact Hall'|]. rewrite Hseen. set_solver.
      * rewrite bool_decide_eq_false_2 by assumption. simpl.
        split; [constructor; assumption|]. split.
        -- constructor; [|exact Hall']. repeat split; try assumption. left.
        -- rewrite Hseen. set_solver.
Qed.

(** X3.  As long as no security name is longer than the 512 characters of
    its column, every table that the pipeline reaches from the empty table
    holds at most one row of each identity. *)
Theorem identity_unique_in_reachable_tables (self : Pipeline.pipeline)
    (items : list Item.t)
    (k : option string * option date * option date * option string) :
  Forall name_fits items ->
  (length (stored k (process_items self items Pipeline.empty_db)) <= 1)%nat.
Proof.
  intros Hfit.
  assert (Hinv : db_ok (process_items self items Pipeline.empty_db)
                 /\ identity_unique (process_items self items Pipeline.empty_db)).
  { unfold process_items.
    assert (H0 : db_ok Pipeline.empty_db /\ identity_unique Pipeline.empty_db)
      by (split; [apply db_ok_empty|apply NoDup_nil_2]).
    revert H0. generalize Pipeline.empty_db.
    induction Hfit as [|item items Hitem _ IH]; intros db [Hdb Hun]; simpl;
      [auto|].
    apply IH. split; [apply process_item_keeps_ok, Hdb|].
    apply process_item_keeps_unique; assumption. }
  destruct Hinv as [_ Hun]. unfold stored.
  destruct (filter_key_le_one Pipeline.identity _ k Hun) as [->|[x ->]]; simpl; lia.
Qed.

End Traversal.

(** X3 on two scrapes of one issue. *)
Lemma identity_unique_in_reachable_tables_witness :
  (length (stored (Some "ACME Ltd", Some {| year := 2024; month := 3; day := 5 |},
                   None, None)
             (process_items (H := PyRef.lib) Examples.self
                [Examples.item_acme; Examples.item_acme_later] Pipeline.empty_db))
   <= 1)%nat.
Proof.
  apply (identity_unique_in_reachable_tables (H := PyRef.lib)).
  apply Forall_cons_2; [|apply Forall_cons_2; [|apply Forall_nil_2]];
    intros s [= <-]; simpl; lia.
Defined.


(** ** The order of strings *)

Lemma ascii_compare_N (a b : ascii) :
  Ascii.compare a b = N.compare (N_of_ascii a) (N_of_ascii b).
Proof. reflexivity. Qed.

Lemma ascii_compare_lt_trans (a b c : ascii) :
  Ascii.compare a b = Lt -> Ascii.compare b c = Lt -> Ascii.compare a c = Lt.
Proof.
  rewrite !ascii_compare_N, !N.compare_lt_iff. intros. etransitivity; eassumption.
Qed.

Lemma str_compare_lt_trans (a b c : string) :
  String.compare a b = Lt -> String.compare b c = Lt -> String.compare a c = Lt.
Proof.
  revert b c. induction a as [|x a IH]; intros [|y b] [|z c]; simpl; try congruence.
  destruct (Ascii.compare x y) eqn:Exy; try discriminate;
    destruct (Ascii.compare y z) eqn:Eyz; try discriminate; intros Hab Hbc.
  - apply Ascii.compare_eq_iff in Exy, Eyz. subst.
    assert (E : Ascii.compare z z = Eq).
    { rewrite ascii_compare_N. apply N.compare_refl. }
    rewrite E. eapply IH; eassumption.
  - apply Ascii.compare_eq_iff in Exy. subst. rewrite Eyz. reflexivity.
  - apply Ascii.compare_eq_iff in Eyz. subst. rewrite Exy. reflexivity.
  - rewrite (ascii_compare_lt_trans _ _ _ Exy Eyz). reflexivity.
Qed.

Lemma str_compare_refl (a : string) : String.compare a a = Eq.
Proof.
  induction a as [|x a IH]; simpl; [reflexivity|].
  rewrite ascii_compare_N, N.compare_refl. exact IH.
Qed.

Lemma str_le_cases (a b : string) :
  R2FilesPipeline.str_le a b <-> a = b \/ str_lt a b.
Proof.
  unfold R2FilesPipeline.str_le, str_lt, String.leb, String.ltb.
  destruct (String.compare a b) eqn:E.
  - apply String.compare_eq_iff in E. tauto.
  - split; [tauto|reflexivity].
  - split; [discriminate|]. intros [->|]; [|discriminate].
    rewrite str_compare_refl in E. discriminate.
Qed.

Lemma str_lt_trans (a b c : string) : str_lt a b -> str_lt b c -> str_lt a c.
Proof.
  unfold str_lt, String.ltb. intros Hab Hbc.
  destruct (String.compare a b) eqn:E1; try discriminate.
  destruct (String.compare b c) eqn:E2; try discriminate.
  rewrite (str_compare_lt_trans _ _ _ E1 E2). reflexivity.
Qed.

Lemma str_lt_irrefl (a : string) : ~ str_lt a a.
Proof. unfold str_lt, String.ltb. rewrite str_compare_refl. discriminate. Qed.

#[global] Instance str_le_trans : Transitive R2FilesPipeline.str_le.
Proof.
  intros a b c. rewrite !str_le_cases. intros [->|Hab] [->|Hbc]; auto.
  right. eapply str_lt_trans; eassumption.
Qed.

#[global] Instance str_le_total : Total R2FilesPipeline.str_le.
Proof. intros a b. apply String.leb_total. Qed.

Lemma sorted_urls_elem (s : gset string) (u : string) :
  u ∈ R2FilesPipeline.sorted s <-> u ∈ s.
Proof.
  unfold R2FilesPipeline.sorted. rewrite merge_sort_Permutation. apply elem_of_elements.
Qed.

Lemma sorted_urls_ascending (s : gset string) :
  StronglySorted str_lt (R2FilesPipeline.sorted s).
Proof.
  unfold R2FilesPipeline.sorted.
  assert (Hnd : NoDup (merge_sort R2FilesPipeline.str_le (elements s))).
  { rewrite merge_sort_Permutation. apply NoDup_elements. }
  assert (Hs : StronglySorted R2FilesPipeline.str_le
                 (merge_sort R2FilesPipeline.str_le (elements s))).
  { apply StronglySorted_merge_sort; apply _. }
  induction Hs as [|x l Hl IH Hx]; constructor.
  - apply IH. apply NoDup_cons in Hnd as [_ Hnd]. exact Hnd.
  - apply NoDup_cons in Hnd as [Hnin _].
    rewrite Forall_forall in *. intros y Hy.
    destruct (proj1 (str_le_cases x y) (Hx y Hy)) as [->|Hlt]; [|exact Hlt].
    contradiction.
Qed.

(** ** Dictionaries filled in a loop: the last entry of a key wins *)

Lemma last_snoc_filter {A} (p : A -> bool) (l : list A) (x : A) :
  last_with p (l ++ [x]) = if p x then Some x else last_with p l.
Proof.
  unfold last_with. rewrite List.filter_app. simpl. destruct (p x).
  - apply last_snoc.
  - rewrite app_nil_r. reflexivity.
Qed.

Lemma foldl_insert_last {A V} (key : A -> option string) (val : A -> V)
    (l : list A) (m : gmap string V) (u : string) :
  foldl (fun m x => match key x with Some k => <[k := val x]> m | None => m end) m l !! u
  = match last_with (fun x => bool_decide (key x = Some u)) l with
    | Some x => Some (val x)
    | None => m !! u
    end.
Proof.
  induction l as [|x l IH] using rev_ind; [reflexivity|].
  rewrite foldl_app, last_snoc_filter. simpl.
  destruct (key x) as [k|] eqn:Ek.
  - destruct (decide (k = u)) as [->|Hne].
    + rewrite bool_decide_eq_true_2 by reflexivity. apply lookup_insert_eq.
    + rewrite bool_decide_eq_false_2 by congruence.
      rewrite lookup_insert_ne by assumption. exact IH.
  - rewrite bool_decide_eq_false_2 by discriminate. exact IH.
Qed.

Lemma foldl_ext_eq {A B} (f g : B -> A -> B) (l : list A) (b : B) :
  (forall b a, f b a = g b a) -> foldl f b l = foldl g b l.
Proof.
  intros Hfg. revert b. induction l as [|a l IH]; intros b; simpl; [reflexivity|].
  rewrite Hfg. apply IH.
Qed.

Lemma last_with_ext {A} (p q : A -> bool) (l : list A) :
  (forall x, p x = q x) -> last_with p l = last_with q l.
Proof.
  intros Hpq. unfold last_with. f_equal.
  induction l as [|x l IH]; simpl; [reflexivity|]. rewrite Hpq, IH. reflexivity.
Qed.


Lemma label_for_url_last (it : R2FilesPipeline.item) (u : string) :
  u <> "" ->
  R2FilesPipeline.label_for_url it !! u
  = (fun d => or_str (d !! "label") "")
      <$> last_with (names_url u)
            (Item.pdf_links (R2FilesPipeline.fields it) ++ R2FilesPipeline.documents it).
Proof.
  intros Hu. unfold R2FilesPipeline.label_for_url.
  rewrite (foldl_ext_eq _
             (fun m d => match (match d !! "url" with
                                | Some u => if nonempty u then Some u else None
                                | None => None
                                end) with
                         | Some k => <[k := or_str (d !! "label") ""]> m
                         | None => m
                         end)).
  2:{ intros m d. destruct (d !! "url") as [v|]; [|reflexivity].
      destruct (nonempty v); reflexivity. }
  rewrite foldl_insert_last, lookup_empty.
  rewrite (last_with_ext _ (names_url u)).
  - destruct (last_with _ _); reflexivity.
  - intros d. unfold names_url. destruct (d !! "url") as [v|]; [|reflexivity].
    destruct (nonempty v) eqn:E.
    + apply bool_decide_ext. split; congruence.
    + rewrite bool_decide_eq_false_2 by discriminate.
      symmetry. apply bool_decide_eq_false_2. intros [= ->].
      apply nonempty_iff in Hu. congruence.
Qed.

Lemma yield_each_spec {A B} (P : A -> Prop) (f : A -> res B) (l : list A) :
  Forall P l ->
  exists n : nat,
    Forall2 (fun x y => P x /\ f x = Ret y) (take n l)
      (fst (R2FilesPipeline.yield_each f l))
    /\ match snd (R2FilesPipeline.yield_each f l) with
       | None => n = length l
       | Some e => exists x, l !! n = Some x /\ f x = Raise e
       end.
Proof.
  induction 1 as [|x l Hx Hl (n & Hn & He)]; simpl.
  - exists 0%nat. split; [constructor|reflexivity].
  - destruct (f x) as [y|e] eqn:Ef.
    + destruct (R2FilesPipeline.yield_each f l) as [ys e'] eqn:Ey. simpl in *.
      exists (S n). split; [constructor; auto|].
      destruct e' as [e'|]; [exact He|]. simpl. congruence.
    + exists 0%nat. simpl. split; [constructor|]. exists x. auto.
Qed.

Lemma yield_each_Forall {A B} (Q : B -> Prop) (f : A -> res B) (l : list A) :
  (forall x y, f x = Ret y -> Q y) -> Forall Q (fst (R2FilesPipeline.yield_each f l)).
Proof.
  intros Hf. induction l as [|x l IH]; simpl; [constructor|].
  destruct (f x) as [y|e] eqn:Ef; [|constructor].
  destruct (R2FilesPipeline.yield_each f l) as [ys e']. simpl in *.
  constructor; [eapply Hf, Ef|exact IH].
Qed.

(** X7.  [get_media_requests] walks the distinct non-empty URLs under
    ["file_urls"] in strictly ascending order and yields a download request
    for each, as long as [Request] accepts them: the requests are those of
    the URLs before the first one that [Request] refuses, each with the URL
    as [Request] keeps it, the same context (the security name, or
    [Unknown]; the start date, or else the end date, or else the empty
    text) and the label of the last entry of ["pdf_links"] followed by
    ["documents"] that names the URL as the item gives it (the empty text
    when there is none, or when that entry has no label).  The walk ends
    with the exception of the first URL that [Request] refuses, and
    without one when it accepts them all. *)
Theorem media_requests_cover_file_urls `{Scrapy} (it : R2FilesPipeline.item) :
  let out := R2FilesPipeline.get_media_requests it in
  let entries :=
    Item.pdf_links (R2FilesPipeline.fields it) ++ R2FilesPipeline.documents it in
  exists (urls : list string) (n : nat),
    StronglySorted str_lt urls
    /\ (forall u, u ∈ urls <-> u ∈ R2FilesPipeline.file_urls it /\ u <> "")
    /\ Forall2 (fun u r =>
         request_url u = Ret (Pipeline.url r)
         /\ Pipeline.meta_ctx r
            = Some {| Pipeline.parent_type := Some "issue";
                      Pipeline.company :=
                        Some (or_str (Item.security_name (R2FilesPipeline.fields it))
                                "Unknown");
                      Pipeline.dt :=
                        Some (or_str (Item.start_date (R2FilesPipeline.fields it))
                                (or_str (Item.end_date (R2FilesPipeline.fields it)) "")) |}
         /\ Pipeline.meta_label r
            = Some (or_str (last_with (names_url u) entries
                              ≫= (fun d => d !! "label")) ""))
         (take n urls) (fst out)
    /\ match snd out with
       | None => n = length urls
       | Some e => exists u, urls !! n = Some u /\ request_url u = Raise e
       end.
Proof.
  intros out entries. unfold out, R2FilesPipeline.get_media_requests. cbv zeta.
  match goal with
  | |- context [R2FilesPipeline.yield_each ?f (R2FilesPipeline.sorted ?s)] =>
      set (mk := f); set (urls := R2FilesPipeline.sorted s)
  end.
  assert (Hurls : forall u, u ∈ urls <-> u ∈ R2FilesPipeline.file_urls it /\ u <> "").
  { intros u. unfold urls. rewrite sorted_urls_elem, elem_of_list_to_set.
    rewrite list_elem_of_In, filter_In, <- list_elem_of_In, nonempty_iff. reflexivity. }
  destruct (yield_each_spec (fun u => u <> "") mk urls) as (n & Hn & He).
  { apply Forall_forall. intros u Hu. apply Hurls, Hu. }
  exists urls, n. split; [apply sorted_urls_ascending|]. split; [exact Hurls|].
  split.
  - eapply Forall2_impl; [exact Hn|]. intros u r [Hu Hr]. unfold mk in Hr.
    cbv beta in Hr.
    destruct (request_url u) as [kept|e] eqn:Ek; [|discriminate Hr].
    injection Hr as <-. cbn [Pipeline.url Pipeline.meta_ctx Pipeline.meta_label].
    split; [reflexivity|]. split; [reflexivity|].
    rewrite (label_for_url_last it u Hu). fold entries.
    destruct (last_with (names_url u) entries) as [d|]; simpl; [|reflexivity].
    destruct (d !! "label") as [l|]; simpl; [|reflexivity].
    destruct l; reflexivity.
  - destruct (snd (R2FilesPipeline.yield_each mk urls)) as [e|]; [|exact He].
    destruct He as (u & Hu & Hr). exists u. split; [exact Hu|].
    unfold mk in Hr. cbv beta in Hr.
    destruct (request_url u); [discriminate Hr|].
    cbn [mbind res_bind] in Hr. injection Hr as ->. reflexivity.
Qed.

Lemma word_not_slash c :
  isword c || is_hyphen c = true -> negb (bool_decide (c = "/"%char)) = true.
Proof. destruct c as [[] [] [] [] [] [] [] []]; vm_compute; congruence. Qed.

Lemma hex_not_slash c : is_hex c = true -> negb (bool_decide (c = "/"%char)) = true.
Proof. destruct c as [[] [] [] [] [] [] [] []]; vm_compute; congruence. Qed.

Lemma or_str_or_str (s : option string) (d : string) :
  or_str (Some (or_str s d)) d = or_str s d.
Proof.
  unfold or_str. destruct s as [x|].
  - destruct (nonempty x) eqn:E; [rewrite E; reflexivity|].
    destruct (nonempty d); reflexivity.
  - destruct (nonempty d); reflexivity.
Qed.

Lemma media_requests_ctx `{Scrapy} (it : R2FilesPipeline.item) :
  Forall (fun r =>
       Pipeline.meta_ctx r
       = Some {| Pipeline.parent_type := Some "issue";
                 Pipeline.company :=
                   Some (or_str (Item.security_name (R2FilesPipeline.fields it)) "Unknown");
                 Pipeline.dt :=
                   Some (or_str (Item.start_date (R2FilesPipeline.fields it))
                           (or_str (Item.end_date (R2FilesPipeline.fields it)) "")) |})
    (fst (R2FilesPipeline.get_media_requests it)).
Proof.
  unfold R2FilesPipeline.get_media_requests. cbv zeta.
  apply yield_each_Forall. intros u r Hr.
  destruct (request_url u); [|discriminate Hr]. injection Hr as <-. reflexivity.
Qed.

(** X8.  The storage keys of the attachments of one item lie in one
    folder: [file_path] returns, for every request that
    [get_media_requests] yields for the item,
    [issues/<slug of the security name or Unknown>/<date>/<name>], where
    the date folder is the ISO form of what [to_iso_date] reads in the
    start date, or else the end date, of the item ([undated] when it reads
    no date), and the file name has no [/]. *)
Theorem attachments_share_a_folder `{PyLib} `{Scrapy} {R I T : Type}
    (it : R2FilesPipeline.item)
    (response : option R) (info : option I) (item : option T) :
  let f := R2FilesPipeline.fields it in
  exists d : option date,
    Pipeline.to_iso_date
      (Some (or_str (Item.start_date f) (or_str (Item.end_date f) ""))) = Ret d
    /\ Forall (fun req => exists name : string,
         Pipeline.file_path req response info item
         = Ret ("issues/"
                +:+ Pipeline.slugify (Some (or_str (Item.security_name f) "Unknown"))
                +:+ "/"
                +:+ (match d with Some d => isoformat d | None => "undated" end)
                +:+ "/" +:+ name)
         /\ no_slash name = true)
       (fst (R2FilesPipeline.get_media_requests it)).
Proof.
  intros f. subst f. set (f := R2FilesPipeline.fields it).
  destruct (to_iso_date_returns
              (Some (or_str (Item.start_date f) (or_str (Item.end_date f) ""))))
    as [d Hd].
  exists d. split; [exact Hd|].
  eapply Forall_impl; [apply media_requests_ctx|]. intros req Hctx. fold f in Hctx.
  
  unfold Pipeline.file_path. rewrite Hctx. cbn [default from_option id Pipeline.company Pipeline.dt].
  rewrite Hd. cbn [mbind res_bind mret res_ret]. rewrite or_str_or_str.
  eexists. split; [reflexivity|].
  unfold no_slash. rewrite !str_all_app. apply andb_true_iff. split; [|apply andb_true_iff; split;
    [reflexivity|apply andb_true_iff; split]].
  - eapply str_all_impl; [apply word_not_slash|apply slug_chars].
  - eapply str_all_impl; [apply hex_not_slash|]. apply str_take_all, hexdigest_all_hex.
  - destruct (guess_ext_cases (Pipeline.url req)) as (Hin & _).
    cbv zeta in Hin. unfold known_suffixes in Hin. simpl in Hin.
    rewrite !elem_of_cons, elem_of_nil in Hin.
    destruct Hin as [->|[->|[->|[->|[->|[]]]]]]; reflexivity.
Qed.









(** ** Stripping and collapsing, once more *)

Lemma lstrip_head p s :
  lstrip p s = "" \/ exists c r, lstrip p s = String c r /\ p c = false.
Proof.
  induction s as [|c s IH]; simpl; [left; reflexivity|].
  destruct (p c) eqn:E; [exact IH|]. right. eauto.
Qed.

Lemma lstrip_fixed p c r : p c = false -> lstrip p (String c r) = String c r.
Proof. intros E. simpl. rewrite E. reflexivity. Qed.

Lemma rstrip_idem p s : rstrip p (rstrip p s) = rstrip p s.
Proof.
  induction s as [|c s IH]; simpl; [reflexivity|].
  destruct (is_empty (rstrip p s) && p c) eqn:E; [reflexivity|].
  simpl. rewrite IH, E. reflexivity.
Qed.

Lemma rstrip_keeps_head p c r :
  p c = false -> rstrip p (String c r) = String c (rstrip p r).
Proof. intros E. simpl. rewrite E, andb_false_r. reflexivity. Qed.

Lemma strip_idem p s : strip p (strip p s) = strip p s.
Proof.
  unfold strip. destruct (lstrip_head p s) as [->|(c & r & -> & E)]; [reflexivity|].
  rewrite (rstrip_keeps_head _ _ _ E), (lstrip_fixed _ _ _ E).
  rewrite <- (rstrip_keeps_head _ _ _ E). apply rstrip_idem.
Qed.

Lemma lstrip_none p s : str_all (fun c => negb (p c)) s = true -> lstrip p s = s.
Proof.
  destruct s as [|c s]; simpl; [reflexivity|].
  intros [Hc _]%andb_true_iff. apply negb_true_iff in Hc. rewrite Hc. reflexivity.
Qed.

Lemma rstrip_none p s : str_all (fun c => negb (p c)) s = true -> rstrip p s = s.
Proof.
  induction s as [|c s IH]; simpl; [reflexivity|].
  intros [Hc Hs]%andb_true_iff. apply negb_true_iff in Hc.
  rewrite Hc, andb_false_r, (IH Hs). reflexivity.
Qed.

Lemma strip_none p s : str_all (fun c => negb (p c)) s = true -> strip p s = s.
Proof. intros Hs. unfold strip. rewrite (lstrip_none _ _ Hs). apply rstrip_none, Hs. Qed.

Lemma str_filter_all p s : str_all p s = true -> str_filter p s = s.
Proof.
  induction s as [|c s IH]; simpl; [reflexivity|].
  intros [Hc Hs]%andb_true_iff. rewrite Hc, (IH Hs). reflexivity.
Qed.

Lemma sub_runs_none p rep b s :
  str_all (fun c => negb (p c)) s = true -> sub_runs p rep b s = s.
Proof.
  revert b. induction s as [|c s IH]; intros b; simpl; [reflexivity|].
  intros [Hc Hs]%andb_true_iff. apply negb_true_iff in Hc.
  rewrite Hc, (IH false Hs). reflexivity.
Qed.

Lemma word_not_space c : isword c || is_hyphen c = true -> negb (isspace c) = true.
Proof. destruct c as [[] [] [] [] [] [] [] []]; vm_compute; congruence. Qed.

Lemma or_str_nonempty (s d : string) : s <> "" -> or_str (Some s) d = s.
Proof. intros Hs. unfold or_str. apply nonempty_iff in Hs. rewrite Hs. reflexivity. Qed.

(** X9.  [slugify] is idempotent: a slug is its own slug.  A slug neither
    starts nor ends with a hyphen and has no white space. *)
Theorem slugify_idempotent (s : option string) :
  let slug := Pipeline.slugify s in
  Pipeline.slugify (Some slug) = slug
  /\ strip is_hyphen slug = slug
  /\ str_any isspace slug = false.
Proof.
  intros slug.
  assert (Hchars : str_all (fun c => isword c || is_hyphen c) slug = true)
    by apply slug_chars.
  assert (Hnosp : str_all (fun c => negb (isspace c)) slug = true).
  { eapply str_all_impl; [apply word_not_space|exact Hchars]. }
  assert (Hstrip : strip is_hyphen slug = slug).
  { clear. unfold slug, Pipeline.slugify; cbv zeta.
    match goal with
    | |- context [or_str (Some (strip is_hyphen ?x)) "unknown"] => generalize x
    end.
    intros x. unfold or_str. destruct (nonempty (strip is_hyphen x));
      [apply strip_idem|reflexivity]. }
  split; [|split; [exact Hstrip|]].
  - unfold Pipeline.slugify at 1; cbv zeta.
    rewrite (or_str_nonempty slug) by apply slug_nonempty.
    rewrite (strip_none isspace slug Hnosp).
    rewrite (str_filter_all _ slug).
    2:{ eapply str_all_impl; [|exact Hchars]. intros c Hc.
        apply orb_true_iff in Hc as [->| ->]; [reflexivity|apply orb_true_r]. }
    rewrite (sub_runs_none _ _ _ _ Hnosp), Hstrip.
    apply or_str_nonempty, slug_nonempty.
  - clear -Hnosp. induction slug as [|c r IH]; simpl in *; [reflexivity|].
    apply andb_true_iff in Hnosp as [Hc Hr]. apply negb_true_iff in Hc.
    rewrite Hc. simpl. exact (IH Hr).
Qed.

Lemma rstrip_fixed_cons p c r :
  rstrip p (String c r) = String c r ->
  rstrip p r = r /\ (p c = true -> r <> "").
Proof.
  simpl. destruct (is_empty (rstrip p r) && p c) eqn:E; [discriminate|].
  intros [= Hr]. split; [exact Hr|]. intros Hc Hnil. subst r.
  rewrite Hc in E. discriminate.
Qed.

Lemma sub_runs_true_head p rep r :
  rstrip p r = r -> r <> "" ->
  exists c' r', sub_runs p rep true r = String c' r' /\ p c' = false.
Proof.
  induction r as [|c r IH]; intros Hfix Hne; [contradiction|].
  apply rstrip_fixed_cons in Hfix as [Hr Hc]. simpl.
  destruct (p c) eqn:E; [|eauto]. apply IH; auto.
Qed.

Lemma sub_runs_spaced b s :
  rstrip isspace s = s -> spaced (sub_runs isspace " " b s) = true.
Proof.
  revert b. induction s as [|c s IH]; intros b Hfix; [reflexivity|].
  apply rstrip_fixed_cons in Hfix as [Hs Hc]. simpl.
  destruct (isspace c) eqn:E.
  - destruct b; [apply IH, Hs|].
    destruct (sub_runs_true_head isspace " " s Hs (Hc eq_refl)) as (c' & r' & Hhead & Hc').
    pose proof (IH true Hs) as Hsp. rewrite Hhead in *.
    change (bool_decide (" "%char = " "%char) && negb (isspace c')
            && spaced (String c' r') = true).
    rewrite Hc', Hsp. reflexivity.
  - cbn [spaced]. rewrite E. apply IH, Hs.
Qed.

Lemma sub_runs_cons_true p rep c r :
  p c = true -> sub_runs p rep false (String c r) = rep +:+ sub_runs p rep true r.
Proof. intros E. simpl. rewrite E. reflexivity. Qed.

Lemma spaced_sub_runs t :
  spaced t = true ->
  sub_runs isspace " " false t = t
  /\ (forall c r, t = String c r -> isspace c = false ->
        sub_runs isspace " " true t = t).
Proof.
  induction t as [|c t IH]; [split; [reflexivity|discriminate]|].
  cbn [spaced]. intros [Hc Ht]%andb_true_iff. destruct (IH Ht) as [IH1 IH2].
  destruct (isspace c) eqn:E.
  - apply andb_true_iff in Hc as [Hsp Hnext]. apply bool_decide_eq_true in Hsp. subst c.
    destruct t as [|c' t']; [discriminate|]. apply negb_true_iff in Hnext.
    split; [|intros ? ? [= <- <-] He; congruence].
    rewrite (sub_runs_cons_true _ _ _ _ E), (IH2 c' t' eq_refl Hnext). reflexivity.
  - split; [|intros _ _ _ _]; simpl; rewrite E, IH1; reflexivity.
Qed.

Lemma spaced_rstrip t : spaced t = true -> rstrip isspace t = t.
Proof.
  induction t as [|c t IH]; [reflexivity|].
  cbn [spaced]. intros [Hc Ht]%andb_true_iff. simpl. rewrite (IH Ht).
  destruct t as [|c' t']; [|reflexivity]. simpl.
  destruct (isspace c); [|reflexivity].
  apply andb_true_iff in Hc as [_ Hc]. discriminate.
Qed.

Lemma spaced_chars t :
  spaced t = true ->
  str_all (fun c => negb (isspace c) || bool_decide (c = " "%char)) t = true.
Proof.
  induction t as [|c t IH]; [reflexivity|].
  cbn [spaced str_all]. intros [Hc Ht]%andb_true_iff. rewrite (IH Ht), andb_true_r.
  destruct (isspace c); [|reflexivity].
  apply andb_true_iff in Hc as [Hc _]. exact Hc.
Qed.

Lemma spaced_no_double t : spaced t = true -> contains "  " t = false.
Proof.
  induction t as [|c t IH]; [reflexivity|].
  cbn [spaced]. intros [Hc Ht]%andb_true_iff.
  cbn [contains]. rewrite (IH Ht), orb_false_r.
  cbn [starts_with]. destruct (decide (" "%char = c)) as [<-|Hne].
  - rewrite bool_decide_eq_true_2 by reflexivity. simpl in Hc.
    destruct t as [|c' t']; [reflexivity|]. simpl.
    destruct (decide (" "%char = c')) as [<-|Hne'].
    + discriminate.
    + rewrite bool_decide_eq_false_2 by assumption. reflexivity.
  - rewrite bool_decide_eq_false_2 by assumption. reflexivity.
Qed.

Lemma sub_runs_false_head p rep c r :
  p c = false -> sub_runs p rep false (String c r) = String c (sub_runs p rep false r).
Proof. intros E. simpl. rewrite E. reflexivity. Qed.

Lemma norm_spaced (s : string) : spaced (Spider._norm s) = true.
Proof.
  unfold Spider._norm. apply sub_runs_spaced. unfold strip. apply rstrip_idem.
Qed.

Lemma norm_lstrip (s : string) : lstrip isspace (Spider._norm s) = Spider._norm s.
Proof.
  unfold Spider._norm, strip.
  destruct (lstrip_head isspace s) as [->|(c & r & -> & E)]; [reflexivity|].
  rewrite (rstrip_keeps_head _ _ _ E), (sub_runs_false_head _ _ _ _ E).
  apply lstrip_fixed, E.
Qed.

Lemma norm_single_spaced (s : string) :
  Spider._norm (Spider._norm s) = Spider._norm s /\ single_spaced (Spider._norm s).
Proof.
  pose proof (norm_spaced s) as Hsp.
  assert (Hstrip : strip isspace (Spider._norm s) = Spider._norm s).
  { unfold strip. rewrite norm_lstrip. apply spaced_rstrip, Hsp. }
  split; [|split; [exact Hstrip|split; [apply spaced_chars|apply spaced_no_double]]];
    try exact Hsp.
  unfold Spider._norm at 1. rewrite Hstrip. apply spaced_sub_runs, Hsp.
Qed.

Lemma fill_columns_values (headers : list string) (cells : list string) (i : nat)
    (m : gmap string Spider.value) (k : string) (v : Spider.value) :
  Spider.fill_columns headers i cells m !! k = Some v ->
  m !! k = Some v \/ exists c, c ∈ cells /\ v = Spider.VStr c.
Proof.
  revert i m. induction cells as [|val cells IH]; intros i m; simpl; [auto|].
  intros Hk. apply IH in Hk as [Hk|(c & Hc & ->)].
  - apply lookup_insert_Some in Hk as [[_ <-]|[_ Hk]]; [|auto].
    right. exists val. split; [left|reflexivity].
  - right. exists c. split; [right; exact Hc|reflexivity].
Qed.

(** X10.  [_norm] is idempotent, and what it returns has no white space at
    either end and none inside but single spaces.  Every column value of a
    record that [_parse_table] yields (every value but the four provenance
    values) is a text in that form. *)
Theorem record_values_are_normalised (t : Spider.table) (si : Z) (st : string)
    (pi : Z) (resp : Spider.response) :
  (forall s, Spider._norm (Spider._norm s) = Spider._norm s
             /\ single_spaced (Spider._norm s))
  /\ Forall (fun item =>
       forall k v, k ∉ provenance_keys -> item !! k = Some v ->
         exists c, v = Spider.VStr c /\ Spider._norm c = c /\ single_spaced c)
     (Spider._parse_table t si st pi resp).
Proof.
  split; [apply norm_single_spaced|].
  rewrite parse_table_records. apply Forall_fmap, Forall_forall. intros r _ k v Hk.
  unfold row_record, Spider.add_provenance, provenance_keys in *. simpl.
  rewrite !elem_of_cons, elem_of_nil in Hk.
  rewrite !lookup_insert_ne by (intros <-; tauto).
  unfold Spider.row_columns. intros Hv.
  apply fill_columns_values in Hv as [Hv|(c & Hc & ->)]; [rewrite lookup_empty in Hv; discriminate|].
  exists c. split; [reflexivity|].
  unfold Spider.row_cells in Hc. apply list_elem_of_fmap in Hc as (td & -> & _).
  apply norm_single_spaced.
Qed.

(** ** Rows that an upsert leaves alone *)

Section Frame.
Context `{PyLib}.

Lemma process_items_ok (self : Pipeline.pipeline) (items : list Item.t) :
  db_ok (process_items self items Pipeline.empty_db).
Proof.
  unfold process_items. generalize db_ok_empty. generalize Pipeline.empty_db.
  induction items as [|item items IH]; intros db Hdb; simpl; [exact Hdb|].
  apply IH, process_item_keeps_ok, Hdb.
Qed.

Lemma process_item_frame (self : Pipeline.pipeline) (item : Item.t)
    (db : Pipeline.database) (sd ed : option date) :
  db_ok db ->
  Pipeline.to_iso_date (Item.start_date item) = Ret sd ->
  Pipeline.to_iso_date (Item.end_date item) = Ret ed ->
  let db' := snd (Pipeline.process_item self item db) in
  (key_columns <$> Pipeline.rows db) `prefix_of` (key_columns <$> Pipeline.rows db')
  /\ (forall i row, Pipeline.rows db !! i = Some row ->
        Pipeline.identity row
        <> (Item.security_name item, sd, ed, Item.detail_url item) ->
        Pipeline.rows db' !! i = Some row)
  /\ (length (Pipeline.rows db) <= length (Pipeline.rows db')
      <= length (Pipeline.rows db) + 1)%nat.
Proof.
  intros Hok Hsd Hed db'. subst db'.
  destruct (process_item_cases self item db Hok)
    as [(e & seq & -> & _)
       |[(obj & row & Hobj & Hq & Hrow & Hn & ->)
        |(obj & existing & new & before & after & Hobj & Hq & Hnew & Hrows & _ & _ & ->)]];
    cbn [snd Pipeline.rows].
  - split; [reflexivity|]. split; [auto|lia].
  - split; [rewrite fmap_app; apply prefix_app_r; reflexivity|].
    split; [|rewrite length_app; simpl; lia].
    intros i r Hi _. apply lookup_app_l_Some, Hi.
  - destruct (query_member obj db existing Hq) as (Hk & _).
    assert (Hin : existing ∈ Pipeline.rows db).
    { rewrite Hrows, elem_of_app, elem_of_cons. auto. }
    pose proof (update_key_columns db obj existing new Hok Hin Hnew) as Hkc.
    destruct (build_obj_identity self item obj Hobj) as (_ & Hn & Hs & He & Hu & _).
    assert (Hident : Pipeline.identity existing
                     = (Item.security_name item, sd, ed, Item.detail_url item)).
    { rewrite Hk. unfold Pipeline.identity. rewrite Hs in Hsd. rewrite He in Hed.
      congruence. }
    rewrite Hrows. split; [|split].
    + rewrite !fmap_app, !fmap_cons, Hkc. reflexivity.
    + intros i r Hi Hne.
      destruct (decide (i = length before)) as [->|Hi'].
      * rewrite list_lookup_middle in Hi by reflexivity. congruence.
      * rewrite <- Hi. destruct (decide (i < length before)%nat).
        -- rewrite !lookup_app_l by assumption. reflexivity.
        -- rewrite !lookup_app_r by lia.
           destruct (i - length before)%nat eqn:E; [lia|reflexivity].
    + rewrite !length_app. simpl. lia.
Qed.

End Frame.

(** X12.  [process_item] deletes no row and moves none: on every table
    that the pipeline built, it leaves the rows in their order with their
    primary keys and identity columns, appends at most one row, and does
    not touch the rows of an identity other than the incoming record's
    (its name, the dates that [to_iso_date] reads in its date texts, and
    its URL), whether it commits or raises. *)
Theorem process_item_keeps_other_rows `{PyLib} (self : Pipeline.pipeline)
    (items : list Item.t) (item : Item.t) :
  let db := process_items self items Pipeline.empty_db in
  let db' := snd (Pipeline.process_item self item db) in
  exists sd ed : option date,
    Pipeline.to_iso_date (Item.start_date item) = Ret sd
    /\ Pipeline.to_iso_date (Item.end_date item) = Ret ed
    /\ (key_columns <$> Pipeline.rows db) `prefix_of` (key_columns <$> Pipeline.rows db')
    /\ (forall i row, Pipeline.rows db !! i = Some row ->
          Pipeline.identity row
          <> (Item.security_name item, sd, ed, Item.detail_url item) ->
          Pipeline.rows db' !! i = Some row)
    /\ (length (Pipeline.rows db) <= length (Pipeline.rows db')
        <= length (Pipeline.rows db) + 1)%nat.
Proof.
  intros db db'.
  destruct (to_iso_date_returns (Item.start_date item)) as [sd Hsd].
  destruct (to_iso_date_returns (Item.end_date item)) as [ed Hed].
  exists sd, ed. split; [exact Hsd|]. split; [exact Hed|].
  apply process_item_frame; [apply process_items_ok|exact Hsd|exact Hed].
Qed.

(** ** The section locator, in closed form *)

Lemma pick_loop_paged (self : Spider.spider) (cands : list Spider.table)
    (t : Spider.table) :
  find paged cands = Some t -> fst (Spider.pick_loop self cands) = Some t.
Proof.
  revert self. induction cands as [|c cands IH]; intros self; simpl; [discriminate|].
  unfold paged at 1. destruct (Spider.has_rows c) eqn:Er; simpl.
  - destruct (Spider.has_pager c) eqn:Ep; [intros [= <-]; reflexivity|].
    intros Hf. destruct (Spider._fallback_table_chosen self); apply IH, Hf.
  - intros Hf. apply IH, Hf.
Qed.







(** ** Labels of requests and records *)

Lemma parse_table_provenance (t : Spider.table) (si : Z) (st : string) (pi : Z)
    (resp : Spider.response) :
  Forall (fun item =>
            item !! "section" = Some (Spider.VInt si)
            /\ item !! "section_title" = Some (Spider.VStr st)
            /\ item !! "page_index" = Some (Spider.VInt pi)
            /\ item !! "source_url" = Some (Spider.VStr (Spider.url resp)))
         (Spider._parse_table t si st pi resp).
Proof.
  rewrite parse_table_records. apply Forall_fmap, Forall_forall. intros r _.
  unfold row_record, Spider.add_provenance. simpl.
  repeat split; rewrite ?lookup_insert_ne by discriminate; apply lookup_insert_eq.
Qed.

Lemma items_of_app (a b : list Spider.output) :
  Spider.items_of (a ++ b) = Spider.items_of a ++ Spider.items_of b.
Proof. unfold Spider.items_of. apply bind_app. Qed.

Lemma items_of_items (l : list (gmap string Spider.value)) :
  Spider.items_of (Spider.Item <$> l) = l.
Proof. induction l as [|x l IH]; simpl; [reflexivity|]. f_equal. exact IH. Qed.

Lemma items_of_fmap {A} (f : A -> Spider.request) (l : list A) :
  Spider.items_of ((fun x => Spider.Req (f x)) <$> l) = [].
Proof. induction l as [|x l IH]; simpl; [reflexivity|exact IH]. Qed.

Lemma items_of_reqs (l : list Spider.request) :
  Spider.items_of (Spider.Req <$> l) = [].
Proof. induction l as [|x l IH]; simpl; [reflexivity|exact IH]. Qed.

Lemma parsed_items_labelled (t : Spider.table) (si : Z) (st : string) (pi : Z)
    (resp : Spider.response) :
  labelled si st -> Forall item_labelled (Spider._parse_table t si st pi resp).
Proof.
  intros Hl. eapply Forall_impl; [apply parse_table_provenance|].
  intros item (Hsi & Hst & _). exists si, st. auto.
Qed.

Section Labels.
Context `{PyLib}.

Lemma next_numeric_labelled (resp : Spider.response) (si : Z) (st gv : string)
    (page_index : Z) (seen : gset Z) (ps : list Z) :
  labelled si st ->
  Forall request_labelled
    (fst (Spider.next_numeric resp si st gv page_index seen ps)).
Proof.
  intros Hl. revert seen. induction ps as [|p ps IH]; intros seen; simpl; [constructor|].
  destruct (bool_decide (p ∈ seen)); [apply IH|].
  specialize (IH ({[p]} ∪ seen)).
  destruct (Spider.next_numeric resp si st gv page_index ({[p]} ∪ seen) ps) as [reqs seen'].
  destruct (bool_decide (p = page_index)); simpl in *; [exact IH|].
  constructor; [exact Hl|exact IH].
Qed.

Lemma parse_section_labelled (self : Spider.spider) (resp : Spider.response)
    (si : Z) (st : string) :
  labelled si st -> outputs_labelled (fst (Spider.parse_section self resp si st)).
Proof.
  intros Hl. unfold Spider.parse_section.
  destruct (Spider._pick_section_table self resp st) as [[table|] self'];
    [|split; constructor].
  pose proof (parsed_items_labelled table si st 1 resp Hl) as Hitems.
  destruct (Spider.target (Spider._extract_pager table)) as [tgt|].
  2:{ split; cbn [fst]; [rewrite requests_of_items; constructor
                        |rewrite items_of_items; exact Hitems]. }
  destruct (is_empty tgt).
  { split; cbn [fst]; [rewrite requests_of_items; constructor
                      |rewrite items_of_items; exact Hitems]. }
  cbn [fst]. split.
  - rewrite !requests_of_app, requests_of_items. cbn [app].
    rewrite (requests_of_fmap (Spider.numeric_request resp si st tgt)).
    apply Forall_app. split; [apply Forall_fmap, Forall_forall; intros p _; exact Hl|].
    destruct (Spider.has_next _); simpl; [|constructor].
    constructor; [exact Hl|constructor].
  - rewrite !items_of_app, items_of_items.
    rewrite (items_of_fmap (Spider.numeric_request resp si st tgt)).
    destruct (Spider.has_next _); simpl; rewrite app_nil_r; exact Hitems.
Qed.

Lemma parse_sections_labelled (self : Spider.spider) (resp : Spider.response)
    (si : Z) (titles : list string) :
  1 <= si ->
  (forall j st, titles !! j = Some st ->
     Spider.SECTION_TITLES !! (Z.to_nat (si - 1) + j)%nat = Some st) ->
  outputs_labelled (fst (Spider.parse_sections self resp si titles)).
Proof.
  revert self si. induction titles as [|st titles IH]; intros self si Hsi Ht; simpl.
  - split; constructor.
  - assert (Hl : labelled si st).
    { split; [exact Hsi|]. rewrite <- (Nat.add_0_r (Z.to_nat _)). apply Ht. reflexivity. }
    pose proof (parse_section_labelled self resp si st Hl) as [Hr1 Hi1].
    destruct (Spider.parse_section self resp si st) as [out self1].
    assert (IH' : outputs_labelled (fst (Spider.parse_sections self1 resp (si + 1) titles))).
    { apply IH; [lia|]. intros j st' Hj.
      replace (Z.to_nat (si + 1 - 1) + j)%nat with (Z.to_nat (si - 1) + S j)%nat by lia.
      apply Ht. exact Hj. }
    destruct IH' as [Hr2 Hi2].
    destruct (Spider.parse_sections self1 resp (si + 1) titles) as [out' self2].
    cbn [fst] in *. split.
    + rewrite requests_of_app. apply Forall_app. auto.
    + rewrite items_of_app. apply Forall_app. auto.
Qed.

Lemma handle_labelled (self : Spider.spider) (r : Spider.request)
    (resp : Spider.response) :
  request_labelled r -> outputs_labelled (fst (Spider.handle self r resp)).
Proof.
  intros Hl. unfold Spider.handle, request_labelled in *.
  set (k := Spider.req_kwargs r) in *.
  set (si := Spider.section_index k) in *. set (st := Spider.section_title k) in *.
  destruct (Spider.req_callback r).
  - unfold Spider._parse_section_page.
    destruct (Spider._pick_section_table self resp st) as [[table|] self'];
      [|split; constructor].
    cbn [fst]. split.
    + rewrite requests_of_app, requests_of_items. cbn [app].
      rewrite (requests_of_fmap (Spider.numeric_request resp si st (Spider.gv_target k))).
      apply Forall_fmap, Forall_forall. intros p _. exact Hl.
    + rewrite items_of_app, items_of_items.
      rewrite (items_of_fmap (Spider.numeric_request resp si st (Spider.gv_target k))).
      rewrite app_nil_r. apply parsed_items_labelled, Hl.
  - unfold Spider._parse_section_next.
    destruct (Spider._pick_section_table self resp st) as [[table|] self'];
      [|split; constructor].
    pose proof (next_numeric_labelled resp si st (Spider.gv_target k)
                  (Spider.page_index k) (default ∅ (Spider.seen k))
                  (Spider.pages (Spider._extract_pager table)) Hl) as Hnum.
    destruct (Spider.next_numeric _ _ _ _ _ _ _) as [numeric seen'].
    cbn [fst] in *. split.
    + rewrite !requests_of_app, requests_of_items, requests_of_reqs. cbn [app].
      apply Forall_app. split; [exact Hnum|].
      destruct (Spider.has_next _); simpl; [|constructor].
      constructor; [exact Hl|constructor].
    + rewrite !items_of_app, items_of_items, items_of_reqs.
      destruct (Spider.has_next _); simpl; rewrite app_nil_r;
        apply parsed_items_labelled, Hl.
Qed.

Lemma crawl_labelled (fuel : nat) (serve : Spider.request -> Spider.response)
    (self : Spider.spider) (queue : list Spider.request) :
  Forall request_labelled queue ->
  Forall request_labelled (fst (Spider.crawl fuel serve self queue))
  /\ Forall item_labelled (snd (Spider.crawl fuel serve self queue)).
Proof.
  revert self queue. induction fuel as [|fuel IH]; intros self queue Hq; simpl;
    [split; constructor|].
  destruct queue as [|r queue]; [split; constructor|].
  apply Forall_cons in Hq as [Hr Hq].
  pose proof (handle_labelled self r (serve r) Hr) as [Hout Hitems].
  destruct (Spider.handle self r (serve r)) as [out self'].
  cbn [fst] in *.
  destruct (IH self' (queue ++ Spider.requests_of out)) as [Hs Hi].
  { apply Forall_app. auto. }
  destruct (Spider.crawl fuel serve self' (queue ++ Spider.requests_of out))
    as [sent items].
  cbn [fst snd] in *. split; [constructor; assumption|apply Forall_app; auto].
Qed.

End Labels.

(** X14.  In a run, every request sent and every record collected is
    labelled with one of the four sections: its section index is between
    1 and 4 and its section title is the title of that index in
    [SECTION_TITLES]. *)
Theorem run_labels_are_consistent `{PyLib} (fuel : nat)
    (serve : Spider.request -> Spider.response) (start : Spider.response) :
  Forall (fun r =>
            let k := Spider.req_kwargs r in
            1 <= Spider.section_index k <= 4
            /\ Spider.SECTION_TITLES !! Z.to_nat (Spider.section_index k - 1)
               = Some (Spider.section_title k))
         (fst (Spider.run fuel serve start))
  /\ Forall (fun item =>
               exists si st,
                 item !! "section" = Some (Spider.VInt si)
                 /\ item !! "section_title" = Some (Spider.VStr st)
                 /\ 1 <= si <= 4
                 /\ Spider.SECTION_TITLES !! Z.to_nat (si - 1) = Some st)
            (snd (Spider.run fuel serve start)).
Proof.
  assert (Hbound : forall si st, labelled si st -> 1 <= si <= 4).
  { intros si st [Hsi Hst]. split; [exact Hsi|].
    apply lookup_lt_Some in Hst. simpl in Hst. lia. }
  assert (Hrun : Forall request_labelled (fst (Spider.run fuel serve start))
                 /\ Forall item_labelled (snd (Spider.run fuel serve start))).
  { unfold Spider.run, Spider.parse.
    pose proof (parse_sections_labelled Spider.new_spider start 1 Spider.SECTION_TITLES)
      as [Hr Hi]; [lia|intros j st Hj; exact Hj|].
    destruct (Spider.parse_sections Spider.new_spider start 1 Spider.SECTION_TITLES)
      as [out self].
    cbn [fst] in *.
    destruct (crawl_labelled fuel serve self (Spider.requests_of out) Hr) as [Hs Hit].
    destruct (Spider.crawl fuel serve self (Spider.requests_of out)) as [sent items].
    cbn [fst snd] in *. split; [exact Hs|apply Forall_app; auto]. }
  destruct Hrun as [Hs Hi]. split.
  - eapply Forall_impl; [exact Hs|]. intros r Hl. cbv zeta.
    split; [eapply Hbound, Hl|apply Hl].
  - eapply Forall_impl; [exact Hi|]. intros item (si & st & ? & ? & Hl).
    exists si, st. repeat split; try assumption; try apply Hl; eapply Hbound, Hl.
Qed.

Section NextChain.
Context `{PyLib}.

Lemma next_request_yields_next (self : Spider.spider) (r : Spider.request)
    (resp : Spider.response) (st : string) (t : Spider.table) :
  next_of st r ->
  find paged (Spider.candidates (Spider._norm st) (Spider.body resp)) = Some t ->
  Spider.has_next (Spider._extract_pager t) = true ->
  Exists (next_of st) (Spider.requests_of (fst (Spider.handle self r resp))).
Proof.
  intros [Hcb Hst] Hfind Hnext. unfold Spider.handle. rewrite Hcb, Hst.
  unfold Spider._parse_section_next.
  pose proof (pick_loop_paged self _ _ Hfind) as Hpick.
  unfold Spider._pick_section_table.
  destruct (Spider.pick_loop self _) as [picked self']. cbn [fst] in Hpick. subst picked.
  destruct (Spider.next_numeric _ _ _ _ _ _ _) as [numeric seen'].
  rewrite Hnext. cbn [fst].
  rewrite !requests_of_app, requests_of_items, requests_of_reqs. cbn [app].
  apply Exists_app. right. left. split; reflexivity.
Qed.

End NextChain.

(** X15.  Nothing bounds the Next chain: on a site whose response to
    every Next request of a section shows, among the four tables after the
    section's title, a table with data rows and a pager that still has the
    Next link, the crawl never runs out of requests once one Next request
    of that section is queued -- it sends as many requests as it is given
    fuel for. *)
Theorem next_chain_never_ends `{PyLib} (serve : Spider.request -> Spider.response)
    (st : string) (fuel : nat) (self : Spider.spider) (queue : list Spider.request) :
  (forall r, next_of st r ->
     exists t,
       find paged (Spider.candidates (Spider._norm st) (Spider.body (serve r))) = Some t
       /\ Spider.has_next (Spider._extract_pager t) = true) ->
  Exists (next_of st) queue ->
  length (fst (Spider.crawl fuel serve self queue)) = fuel.
Proof.
  intros Hsite. revert self queue.
  induction fuel as [|fuel IH]; intros self queue Hq; simpl; [reflexivity|].
  destruct queue as [|r queue]; [inversion Hq|].
  assert (Hnext : Exists (next_of st)
            (queue ++ Spider.requests_of (fst (Spider.handle self r (serve r))))).
  { apply Exists_app. apply Exists_cons in Hq as [Hr|Hq]; [right|left; exact Hq].
    destruct (Hsite r Hr) as (t & Hfind & Hn).
    eapply next_request_yields_next; eassumption. }
  destruct (Spider.handle self r (serve r)) as [out self']. cbn [fst] in Hnext.
  specialize (IH self' _ Hnext).
  destruct (Spider.crawl fuel serve self' (queue ++ Spider.requests_of out))
    as [sent items].
  cbn [fst] in *. simpl. rewrite IH. reflexivity.
Qed.

(** X15 on a site that answers every request with the same page, from the
    Next request that [parse] yields. *)
Lemma next_chain_never_ends_witness :
  length (fst (Spider.crawl (H := PyRef.lib) 5 (fun _ => Examples.page_with_next)
                 Spider.new_spider
                 [Spider.next_request Examples.page_with_next 1 Examples.title1 "ctl00$gv" 2
                    {[ 1 ]}]))
  = 5%nat.
Proof.
  apply (next_chain_never_ends (H := PyRef.lib) (fun _ => Examples.page_with_next)
           Examples.title1).
  - intros r _. exists Examples.table_with_next. split; vm_compute; reflexivity.
  - left. split; reflexivity.
Defined.

(** ** Page numbers, written and read *)

Lemma uint_digits (d : Decimal.uint) :
  str_all isdecimal (NilEmpty.string_of_uint d) = true.
Proof. induction d; simpl; auto. Qed.

Lemma uint_value (d : Decimal.uint) (acc : nat) :
  int_of_digits (Z.of_nat acc) (NilEmpty.string_of_uint d)
  = Z.of_nat (Nat.of_uint_acc d acc).
Proof.
  revert acc. induction d; intros acc; simpl; [reflexivity|..];
    rewrite <- IHd; f_equal; rewrite Nat.tail_mul_spec;
    unfold code; simpl N_of_ascii; lia.
Qed.

Lemma str_of_nat_digits (n : nat) :
  str_all isdecimal (str_of_nat n) = true /\ str_of_nat n <> "".
Proof.
  unfold str_of_nat, NilZero.string_of_uint.
  destruct (Nat.to_uint n) eqn:E; try (split; [apply (uint_digits (_ u))|discriminate]).
  split; [reflexivity|discriminate].
Qed.

Lemma str_of_nat_value (n : nat) : int_of_digits 0 (str_of_nat n) = Z.of_nat n.
Proof.
  unfold str_of_nat, NilZero.string_of_uint.
  rewrite <- (DecimalNat.Unsigned.of_to n) at 2. unfold Nat.of_uint.
  destruct (Nat.to_uint n) eqn:E; try apply (uint_value _ 0). reflexivity.
Qed.

Lemma span_all (p : ascii -> bool) (a b : string) :
  str_all p a = true ->
  match b with String c _ => p c = false | EmptyString => True end ->
  span p (a +:+ b) = (a, b).
Proof.
  intros Ha Hb. induction a as [|c a IH]; simpl.
  - destruct b as [|c b]; [reflexivity|]. simpl. rewrite Hb. reflexivity.
  - simpl in Ha. apply andb_true_iff in Ha as [Hc Ha]. rewrite Hc, (IH Ha). reflexivity.
Qed.

Lemma span_whole (p : ascii -> bool) (a : string) :
  str_all p a = true -> span p a = (a, "").
Proof.
  induction a as [|c a IH]; simpl; [reflexivity|].
  intros [Hc Ha]%andb_true_iff. rewrite Hc, (IH Ha). reflexivity.
Qed.

Lemma contains_char_false (ch : ascii) (s : string) :
  str_all (fun c => negb (bool_decide (c = ch))) s = true ->
  contains (String ch "") s = false.
Proof.
  induction s as [|c s IH]; simpl; [reflexivity|].
  intros [Hc Hs]%andb_true_iff. rewrite (IH Hs), orb_false_r.
  apply negb_true_iff, bool_decide_eq_false in Hc.
  rewrite bool_decide_eq_false_2 by congruence. reflexivity.
Qed.

Lemma digits_no_next (d : string) :
  str_all isdecimal d = true -> contains "Page$Next" d = false.
Proof.
  induction d as [|c d IH]; [reflexivity|].
  intros Hd. simpl in Hd. apply andb_true_iff in Hd as [Hc Hd].
  cbn [contains]. rewrite (IH Hd), orb_false_r. cbn [starts_with].
  rewrite bool_decide_eq_false_2; [reflexivity|]. intros <-. discriminate.
Qed.

Lemma digit_is_plain (c : ascii) :
  isdecimal c = true ->
  negb (Spider.is_quote c) && negb (bool_decide (c = "%"%char)) = true.
Proof. destruct c as [[] [] [] [] [] [] [] []]; vm_compute; congruence. Qed.

Lemma page_argument_plain (p : Z) : 0 <= p -> plain (Spider.page_argument p) = true.
Proof.
  intros Hp. unfold plain, Spider.page_argument, Spider.str_of_Z.
  destruct (p <? 0) eqn:E; [lia|]. rewrite str_all_app. apply andb_true_iff.
  split; [reflexivity|].
  eapply str_all_impl; [apply digit_is_plain|apply str_of_nat_digits].
Qed.

Lemma plain_no_quote (s : string) :
  plain s = true -> str_all (fun c => negb (Spider.is_quote c)) s = true.
Proof.
  apply str_all_impl. intros c [Hc _]%andb_true_iff. exact Hc.
Qed.

Lemma plain_no_percent (s : string) : plain s = true -> contains "%" s = false.
Proof.
  intros Hs. apply contains_char_false. revert Hs.
  apply str_all_impl. intros c [_ Hc]%andb_true_iff. exact Hc.
Qed.

Lemma quoted_group_plain (g rest : string) :
  plain g = true -> g <> "" ->
  Spider.quoted_group (g +:+ String "'" rest) = Some (g, rest).
Proof.
  intros Hg Hne. unfold Spider.quoted_group.
  rewrite (span_all _ g (String "'" rest)); [|apply plain_no_quote, Hg|reflexivity].
  apply nonempty_iff in Hne. rewrite Hne. reflexivity.
Qed.

Lemma match_postback_link (g1 g2 : string) :
  plain g1 = true -> g1 <> "" -> plain g2 = true -> g2 <> "" ->
  Spider.match_postback ("__doPostBack('" +:+ g1 +:+ "','" +:+ g2 +:+ "')")
  = Some (g1, g2).
Proof.
  intros H1 N1 H2 N2. unfold Spider.match_postback.
  change (after_prefix "__doPostBack(" ("__doPostBack('" +:+ g1 +:+ "','" +:+ g2 +:+ "')"))
    with (Some (String "'" (g1 +:+ String "'" (String "," (String "'" (g2 +:+ "')")))))).
  cbn [mbind option_bind Spider.after_quote Spider.is_quote].
  change (Spider.is_quote "'") with true. cbn [mbind option_bind].
  rewrite (quoted_group_plain g1 _ H1 N1). cbn [mbind option_bind after_prefix].
  rewrite bool_decide_eq_true_2 by reflexivity.
  cbn [mbind option_bind after_prefix Spider.after_quote].
  change (Spider.is_quote "'") with true. cbn [mbind option_bind].
  rewrite (quoted_group_plain g2 ")" H2 N2). reflexivity.
Qed.

Lemma search_postback_skip (c : ascii) (r : string) :
  c <> "_"%char -> Spider.search_postback (String c r) = Spider.search_postback r.
Proof.
  intros Hc. cbn [Spider.search_postback]. unfold Spider.match_postback.
  cbn [after_prefix]. rewrite bool_decide_eq_false_2 by congruence. reflexivity.
Qed.

Lemma search_postback_here (s : string) (m : string * string) :
  Spider.match_postback s = Some m -> Spider.search_postback s = Some m.
Proof. intros Hm. destruct s; cbn [Spider.search_postback]; rewrite Hm; reflexivity. Qed.

Lemma search_postback_link (g1 g2 : string) :
  plain g1 = true -> g1 <> "" -> plain g2 = true -> g2 <> "" ->
  Spider.search_postback
    ("javascript:__doPostBack('" +:+ g1 +:+ "','" +:+ g2 +:+ "')")
  = Some (g1, g2).
Proof.
  intros H1 N1 H2 N2.
  change ("javascript:__doPostBack('" +:+ g1 +:+ "','" +:+ g2 +:+ "')")
    with ("javascript:" +:+ ("__doPostBack('" +:+ g1 +:+ "','" +:+ g2 +:+ "')")).
  generalize (match_postback_link g1 g2 H1 N1 H2 N2).
  generalize ("__doPostBack('" +:+ g1 +:+ "','" +:+ g2 +:+ "')"). intros s Hm.
  cbv [append]. rewrite !search_postback_skip by discriminate.
  apply search_postback_here, Hm.
Qed.

Lemma contains_next_skip (c : ascii) (r : string) :
  c <> "P"%char -> contains "Page$Next" (String c r) = contains "Page$Next" r.
Proof.
  intros Hc. cbn [contains starts_with].
  rewrite bool_decide_eq_false_2 by congruence. reflexivity.
Qed.

Lemma page_digit_not_next (c : ascii) (d : string) :
  isdecimal c = true ->
  starts_with "Page$Next"
    (String "P" (String "a" (String "g" (String "e" (String "$" (String c d))))))
  = false.
Proof. destruct c as [[] [] [] [] [] [] [] []]; vm_compute; congruence. Qed.

Lemma page_digits_no_next (d : string) :
  str_all isdecimal d = true -> d <> "" -> contains "Page$Next" ("Page$" +:+ d) = false.
Proof.
  intros Hd Hne. pose proof (digits_no_next d Hd) as Hn.
  destruct d as [|c d]; [contradiction|].
  simpl in Hd. apply andb_true_iff in Hd as [Hc _].
  change ("Page$" +:+ String c d)
    with (String "P" (String "a" (String "g" (String "e" (String "$" (String c d)))))).
  cbn [contains]. fold (contains "Page$Next" (String c d)).
  rewrite (page_digit_not_next c d Hc). cbn [orb].
  change (contains "Page$Next" (String "a" (String "g" (String "e" (String "$" (String c d))))) = false).
  rewrite !contains_next_skip by discriminate. exact Hn.
Qed.

Lemma search_page_number_here (arg r : string) :
  after_prefix "Page$" arg = Some r -> str_all isdecimal r = true -> r <> "" ->
  Spider.search_page_number arg = Some r.
Proof.
  intros Ha Hd Hne. apply nonempty_iff in Hne.
  destruct arg as [|c arg]; [discriminate|].
  cbn [Spider.search_page_number]. rewrite Ha, (span_whole _ _ Hd), Hne. reflexivity.
Qed.

Section RoundTrip.
Context `{PyLib}.

Lemma search_page_number_argument (p : Z) :
  0 <= p ->
  Spider.search_page_number (Spider.page_argument p) = Some (Spider.str_of_Z p)
  /\ int_of_digits 0 (Spider.str_of_Z p) = p
  /\ contains "Page$Next" (Spider.page_argument p) = false.
Proof.
  intros Hp. unfold Spider.page_argument, Spider.str_of_Z.
  destruct (p <? 0) eqn:E; [lia|].
  destruct (str_of_nat_digits (Z.to_nat p)) as [Hd Hne].
  split; [|split].
  - apply search_page_number_here; [reflexivity|exact Hd|exact Hne].
  - rewrite str_of_nat_value. lia.
  - apply page_digits_no_next; assumption.
Qed.

End RoundTrip.

Lemma page_link_is_postback (tgt : string) (p : Z) :
  contains "__doPostBack" (page_link tgt p) = true.
Proof.
  unfold page_link. generalize (tgt +:+ "','" +:+ Spider.page_argument p +:+ "')").
  intros s. vm_compute. reflexivity.
Qed.

Lemma filter_all_true {A} (f : A -> bool) (l : list A) :
  Forall (fun x => f x = true) l -> List.filter f l = l.
Proof.
  induction 1 as [|x l Hx _ IH]; simpl; [reflexivity|]. rewrite Hx, IH. reflexivity.
Qed.

Lemma page_argument_nonempty (p : Z) : Spider.page_argument p <> "".
Proof. unfold Spider.page_argument. discriminate. Qed.

Section Links.
Context `{PyLib}.

Lemma search_page_link (tgt : string) (p : Z) :
  plain tgt = true -> tgt <> "" -> 0 <= p ->
  Spider.search_postback (page_link tgt p) = Some (tgt, Spider.page_argument p).
Proof.
  intros Ht Hne Hp. unfold page_link.
  apply search_postback_link; auto using page_argument_plain, page_argument_nonempty.
Qed.

Lemma links_page_link (tgt : string) (p n : Z) :
  plain tgt = true -> tgt <> "" -> 0 <= p ->
  links_page (page_link tgt p) n <-> n = p.
Proof.
  intros Ht Hne Hp. unfold links_page. rewrite (search_page_link tgt p Ht Hne Hp).
  destruct (search_page_number_argument p Hp) as (Hs & Hv & _).
  split.
  - intros (g1 & g2 & digits & [= <- <-] & Hd & ->).
    rewrite unquote_plain in Hd by apply plain_no_percent, page_argument_plain, Hp.
    rewrite Hs in Hd. injection Hd as <-. exact Hv.
  - intros ->. exists tgt, (Spider.page_argument p), (Spider.str_of_Z p).
    split; [reflexivity|]. split; [|symmetry; exact Hv].
    rewrite unquote_plain by apply plain_no_percent, page_argument_plain, Hp. exact Hs.
Qed.

Lemma links_next_link (tgt : string) (p : Z) :
  plain tgt = true -> tgt <> "" -> 0 <= p -> ~ links_next (page_link tgt p).
Proof.
  intros Ht Hne Hp (g1 & g2 & Hs & Hn).
  rewrite (search_page_link tgt p Ht Hne Hp) in Hs. injection Hs as <- <-.
  rewrite unquote_plain in Hn by apply plain_no_percent, page_argument_plain, Hp.
  destruct (search_page_number_argument p Hp) as (_ & _ & Hno). congruence.
Qed.

End Links.

(** X17.  What the spider posts is what the pager links say.  A pager
    whose links are the postback links to the pages [ps], for a target that
    needs no quoting, is read as that target, exactly the pages [ps] and no
    Next link; and the request that the spider builds for one of these
    pages posts the two arguments of the link to that page. *)
Theorem page_links_round_trip `{PyLib} (rows : list (list Spider.cell))
    (tgt : string) (ps : list Z) :
  plain tgt = true -> tgt <> "" -> Forall (fun p => 0 <= p) ps -> ps <> [] ->
  let pager :=
    Spider._extract_pager
      {| Spider.trs := rows; Spider.anchors := page_link tgt <$> ps |} in
  Spider.target pager = Some tgt
  /\ (forall n, n ∈ Spider.pages pager <-> n ∈ ps)
  /\ Spider.has_next pager = false
  /\ (forall resp si st p, p ∈ ps ->
        exists event_target event_argument,
          Spider.formdata (Spider.numeric_request resp si st tgt p) !! "__EVENTTARGET"
          = Some event_target
          /\ Spider.formdata (Spider.numeric_request resp si st tgt p) !! "__EVENTARGUMENT"
             = Some event_argument
          /\ Spider.search_postback (page_link tgt p)
             = Some (event_target, event_argument)).
Proof.
  intros Ht Hne Hps Hnil pager. rewrite Forall_forall in Hps.
  assert (Hhrefs : Spider.postback_hrefs
                     {| Spider.trs := rows; Spider.anchors := page_link tgt <$> ps |}
                   = page_link tgt <$> ps).
  { unfold Spider.postback_hrefs. cbn [Spider.anchors]. apply filter_all_true.
    apply Forall_fmap, Forall_forall. intros p _. apply page_link_is_postback. }
  assert (Hpage : forall n, (exists href, href ∈ page_link tgt <$> ps /\ links_page href n)
                            <-> n ∈ ps).
  { intros n. split.
    - intros (href & (p & -> & Hp)%list_elem_of_fmap & Hl).
      apply links_page_link in Hl; auto. subst n. exact Hp.
    - intros Hn. exists (page_link tgt n). split; [apply list_elem_of_fmap_2, Hn|].
      apply links_page_link; auto. }
  unfold pager, Spider._extract_pager. rewrite Hhrefs.
  destruct (foldl Spider.scan_href (∅, false) (page_link tgt <$> ps))
    as [found flag] eqn:E.
  assert (Hfound : forall n, n ∈ found <-> n ∈ ps).
  { intros n. pose proof (foldl_scan_pages (page_link tgt <$> ps) (∅, false) n) as Hn.
    rewrite E in Hn. simpl in Hn. rewrite Hn, Hpage. split; [|auto].
    intros [Hempty|?]; [|assumption]. apply elem_of_empty in Hempty. contradiction. }
  cbn [Spider.target Spider.pages Spider.has_next].
  split; [|split; [|split]].
  - rewrite target_is_first_match. destruct ps as [|p ps]; [contradiction|].
    rewrite fmap_cons. cbn [omap list_omap].
    rewrite (search_page_link tgt p Ht Hne) by (apply Hps; left). simpl.
    rewrite unquote_plain by apply plain_no_percent, Ht. reflexivity.
  - intros n. rewrite bool_decide_eq_false_2.
    + rewrite sorted_elem. apply Hfound.
    + intros ->. destruct ps as [|p ps]; [contradiction|].
      apply (elem_of_empty (C := gset Z) p), Hfound. left.
  - destruct flag; [|reflexivity]. exfalso.
    pose proof (foldl_scan_next (page_link tgt <$> ps) (∅, false)) as Hn.
    rewrite E in Hn. simpl in Hn. destruct (proj1 Hn eq_refl) as [?|(href & Hin & Hl)];
      [discriminate|].
    apply list_elem_of_fmap in Hin as (p & -> & Hp).
    eapply links_next_link; eauto.
  - intros resp si st p Hp. exists tgt, (Spider.page_argument p).
    unfold Spider.numeric_request, Spider._make_postback_request.
    cbn [Spider.formdata]. rewrite !or_str_self.
    split; [rewrite lookup_insert_ne by discriminate; apply lookup_insert_eq|].
    split; [apply lookup_insert_eq|]. apply search_page_link; auto.
Qed.

(** X17 on the target and the pages of the sample site. *)
Lemma page_links_round_trip_witness :
  Spider.target
    (Spider._extract_pager (H := PyRef.lib)
       {| Spider.trs := []; Spider.anchors := page_link "ctl00$gv" <$> [2; 3] |})
  = Some "ctl00$gv"
  /\ Spider.has_next
       (Spider._extract_pager (H := PyRef.lib)
          {| Spider.trs := []; Spider.anchors := page_link "ctl00$gv" <$> [2; 3] |})
     = false.
Proof.
  destruct (page_links_round_trip (H := PyRef.lib) [] "ctl00$gv" [2; 3])
    as (Htgt & _ & Hnext & _).
  - reflexivity.
  - discriminate.
  - repeat constructor; lia.
  - discriminate.
  - split; assumption.
Defined.

(** ** The numeric strategy ends *)

Lemma pow2_pos (n : nat) : (1 <= 2 ^ n)%nat.
Proof. induction n as [|n IH]; simpl; lia. Qed.

Lemma pages_weight (N p : Z) (l : list Z) :
  StronglySorted Z.lt l -> Forall (fun q => p < q <= N) l ->
  (sum_list_with (fun q => 2 ^ Z.to_nat (N - q))%nat l + 1 <= 2 ^ Z.to_nat (N - p))%nat.
Proof.
  intros Hs. revert p. induction Hs as [|q l Hl IH Hq]; intros p Hp.
  - simpl. apply pow2_pos.
  - apply Forall_cons in Hp as [Hpq Hp].
    assert (Hl' : Forall (fun q' => q < q' <= N) l).
    { rewrite Forall_forall in *. intros q' Hq'. split; [apply Hq|apply Hp]; exact Hq'. }
    specialize (IH q Hl').
    replace (Z.to_nat (N - p)) with (S (Z.to_nat (N - q)) + Z.to_nat (q - p - 1))%nat by lia.
    rewrite Nat.pow_add_r, Nat.pow_succ_r'.
    cbn [sum_list_with].
    pose proof (pow2_pos (Z.to_nat (q - p - 1))).
    set (X := (2 ^ Z.to_nat (N - q))%nat) in *.
    set (Y := (2 ^ Z.to_nat (q - p - 1))%nat) in *.
    set (S := sum_list_with _ _) in *. unfold id. clearbody X Y S. nia.
Qed.

Lemma following_tables_subset (n : nat) (nodes : list Spider.node) (t : Spider.table) :
  t ∈ Spider.following_tables n nodes -> Spider.Table t ∈ nodes.
Proof.
  revert n. induction nodes as [|nd nodes IH]; intros [|n]; simpl;
    try (intros Hin; inversion Hin; fail).
  destruct nd as [v|t'].
  - intros Hin. right. eapply (IH (S n)), Hin.
  - intros [->|Hin]%elem_of_cons; [left|right; eapply IH, Hin].
Qed.

Lemma candidates_subset (title : string) (nodes : list Spider.node) (t : Spider.table) :
  t ∈ Spider.candidates title nodes -> Spider.Table t ∈ nodes.
Proof.
  induction nodes as [|nd nodes IH]; simpl; [intros Hin; inversion Hin|].
  destruct nd as [v|t']; [|intros Hin; right; apply IH, Hin].
  destruct (bool_decide _); intros Hin; right;
    [eapply following_tables_subset, Hin|apply IH, Hin].
Qed.

Lemma pick_loop_source (self : Spider.spider) (cands : list Spider.table)
    (P : Spider.table -> Prop) :
  (forall t, t ∈ cands -> P t) ->
  (forall t, Spider._fallback_table_chosen self = Some t -> P t) ->
  (forall t, fst (Spider.pick_loop self cands) = Some t -> P t)
  /\ (forall t, Spider._fallback_table_chosen (snd (Spider.pick_loop self cands)) = Some t ->
        P t).
Proof.
  revert self. induction cands as [|c cands IH]; intros self Hc Hf; simpl; [auto|].
  assert (Hc' : forall t, t ∈ cands -> P t) by (intros t Ht; apply Hc; right; exact Ht).
  destruct (Spider.has_rows c); [|apply IH; assumption].
  destruct (Spider.has_pager c).
  - simpl. split; [intros t [= <-]; apply Hc; left|exact Hf].
  - destruct (Spider._fallback_table_chosen self) eqn:Ef;
      [apply IH; [assumption|intros t' Ht'; apply Hf; congruence]|].
    apply IH; [assumption|]. simpl. intros t [= <-]. apply Hc. left.
Qed.

Section Numeric.
Context `{PyLib}.

Lemma pick_section_table_source (self : Spider.spider) (resp : Spider.response)
    (st : string) (N : Z) :
  page_up_to N resp ->
  (forall t, Spider._fallback_table_chosen self = Some t -> pages_up_to N t) ->
  (forall t, fst (Spider._pick_section_table self resp st) = Some t -> pages_up_to N t)
  /\ (forall t, Spider._fallback_table_chosen
                  (snd (Spider._pick_section_table self resp st)) = Some t ->
        pages_up_to N t).
Proof.
  intros Hresp Hself. unfold Spider._pick_section_table.
  apply pick_loop_source; [|exact Hself].
  intros t Ht. apply Hresp. eapply candidates_subset, Ht.
Qed.

Lemma weight_numeric_requests (N : Z) (resp : Spider.response) (si : Z)
    (st gv : string) (ps : list Z) :
  sum_list_with (weight N) (Spider.numeric_request resp si st gv <$> ps)
  = sum_list_with (fun q => 2 ^ Z.to_nat (N - q))%nat ps.
Proof.
  induction ps as [|p ps IH]; [reflexivity|].
  rewrite fmap_cons. cbn [sum_list_with]. rewrite IH. reflexivity.
Qed.

Lemma handle_numeric (self : Spider.spider) (r : Spider.request)
    (resp : Spider.response) (N : Z) :
  page_up_to N resp ->
  (forall t, Spider._fallback_table_chosen self = Some t -> pages_up_to N t) ->
  Spider.req_callback r = Spider.cb_parse_section_page ->
  let out := Spider.requests_of (fst (Spider.handle self r resp)) in
  Forall (fun r' => Spider.req_callback r' = Spider.cb_parse_section_page) out
  /\ (sum_list_with (weight N) out + 1 <= weight N r)%nat
  /\ (forall t, Spider._fallback_table_chosen (snd (Spider.handle self r resp)) = Some t ->
        pages_up_to N t).
Proof.
  intros Hresp Hself Hcb out. subst out. unfold Spider.handle. rewrite Hcb.
  set (k := Spider.req_kwargs r).
  destruct (pick_section_table_source self resp (Spider.section_title k) N Hresp Hself)
    as [Hpicked Hself'].
  unfold Spider._parse_section_page.
  destruct (Spider._pick_section_table self resp (Spider.section_title k))
    as [[table|] self']; cbn [fst snd] in *.
  2:{ split; [constructor|]. split; [|exact Hself']. simpl. apply pow2_pos. }
  rewrite requests_of_app, requests_of_items. cbn [app].
  rewrite (requests_of_fmap (Spider.numeric_request resp (Spider.section_index k)
             (Spider.section_title k) (Spider.gv_target k))).
  split; [apply Forall_fmap, Forall_forall; intros p _; reflexivity|].
  split; [|exact Hself'].
  rewrite weight_numeric_requests. unfold weight, page_of. fold k.
  apply pages_weight.
  - apply StronglySorted_filter, pager_pages_ascending.
  - apply Forall_forall. intros q Hq. apply list_elem_of_In, filter_In in Hq as [Hq Hlt].
    split; [lia|]. specialize (Hpicked table eq_refl). unfold pages_up_to in Hpicked.
    rewrite Forall_forall in Hpicked. apply Hpicked, list_elem_of_In, Hq.
Qed.

Lemma crawl_numeric (serve : Spider.request -> Spider.response) (N : Z) (fuel : nat)
    (self : Spider.spider) (queue : list Spider.request) :
  (forall r, page_up_to N (serve r)) ->
  (forall t, Spider._fallback_table_chosen self = Some t -> pages_up_to N t) ->
  Forall (fun r => Spider.req_callback r = Spider.cb_parse_section_page) queue ->
  (length (fst (Spider.crawl fuel serve self queue)) <= sum_list_with (weight N) queue)%nat
  /\ ((sum_list_with (weight N) queue <= fuel)%nat ->
      forall more, Spider.crawl (fuel + more) serve self queue
                   = Spider.crawl fuel serve self queue).
Proof.
  intros Hsite. revert self queue.
  induction fuel as [|fuel IH]; intros self queue Hself Hq.
  - split; [simpl; lia|]. intros Hw more. destruct queue as [|r queue].
    + destruct more; reflexivity.
    + simpl in Hw. pose proof (pow2_pos (Z.to_nat (N - page_of r))).
      unfold weight in Hw. lia.
  - destruct queue as [|r queue]; [split; [simpl; lia|reflexivity]|].
    apply Forall_cons in Hq as [Hr Hq].
    destruct (handle_numeric self r (serve r) N (Hsite r) Hself Hr) as (Hout & Hw & Hself').
    cbn [Nat.add Spider.crawl].
    destruct (Spider.handle self r (serve r)) as [out self']. cbn [fst snd] in *.
    destruct (IH self' (queue ++ Spider.requests_of out) Hself') as [IHlen IHmore].
    { apply Forall_app. auto. }
    rewrite sum_list_with_app in IHlen, IHmore.
    cbn [sum_list_with].
    split.
    + destruct (Spider.crawl fuel serve self' (queue ++ Spider.requests_of out))
        as [sent items]. cbn [fst length] in *. lia.
    + intros Hfuel more. rewrite IHmore by lia. reflexivity.
Qed.

End Numeric.

(** X16.  The numeric strategy alone ends: on a site none of whose pagers
    shows a page above [N], a queue of numeric requests is worked off --
    the crawl sends no more than the sum, over the queued requests, of
    [2 ^ (N - page)] requests, and with that much fuel it returns what it
    returns with any more. *)
Theorem numeric_dispatch_terminates `{PyLib}
    (serve : Spider.request -> Spider.response) (N : Z) (fuel more : nat)
    (self : Spider.spider) (queue : list Spider.request) :
  (forall r, page_up_to N (serve r)) ->
  (forall t, Spider._fallback_table_chosen self = Some t -> pages_up_to N t) ->
  Forall (fun r => Spider.req_callback r = Spider.cb_parse_section_page) queue ->
  (length (fst (Spider.crawl fuel serve self queue)) <= sum_list_with (weight N) queue)%nat
  /\ ((sum_list_with (weight N) queue <= fuel)%nat ->
      Spider.crawl (fuel + more) serve self queue = Spider.crawl fuel serve self queue).
Proof.
  intros Hsite Hself Hq.
  destruct (crawl_numeric serve N fuel self queue Hsite Hself Hq) as [Hlen Hmore].
  split; [exact Hlen|]. intros Hfuel. apply Hmore, Hfuel.
Qed.

(** X16 on the site of three pages, from the request for page 2: two
    requests are sent, for page 2 and then for page 3. *)
Lemma numeric_dispatch_terminates_witness :
  (length (fst (Spider.crawl (H := PyRef.lib) 2 Examples.site Spider.new_spider
                  [Spider.numeric_request Examples.site_page1 1 Examples.title1
                     "ctl00$gv" 2])) <= 2)%nat
  /\ Spider.crawl (H := PyRef.lib) (2 + 5) Examples.site Spider.new_spider
       [Spider.numeric_request Examples.site_page1 1 Examples.title1 "ctl00$gv" 2]
     = Spider.crawl (H := PyRef.lib) 2 Examples.site Spider.new_spider
         [Spider.numeric_request Examples.site_page1 1 Examples.title1 "ctl00$gv" 2].
Proof.
  destruct (numeric_dispatch_terminates (H := PyRef.lib) Examples.site 3 2 5
              Spider.new_spider
              [Spider.numeric_request Examples.site_page1 1 Examples.title1
                 "ctl00$gv" 2]) as [Hlen Hmore].
  - intros r t. unfold Examples.site.
    destruct (Spider.formdata r !! "__EVENTARGUMENT") as [arg|];
      repeat destruct (bool_decide _);
      simpl; rewrite !elem_of_cons, elem_of_nil;
      (intros [Ht|[Ht|[]]]; [discriminate|]); injection Ht as ->;
      unfold pages_up_to;
      match goal with
      | |- Forall _ ?l => let v := eval vm_compute in l in change l with v
      end;
      repeat constructor; lia.
  - intros t Ht. discriminate.
  - repeat constructor.
  - split; [exact Hlen|]. apply Hmore. vm_compute. lia.
Defined.

Lemma is_empty_iff_false s : s <> "" -> is_empty s = false.
Proof. destruct s; [contradiction|reflexivity]. Qed.

(** ** The pipeline's settings *)

Lemma rstrip_no_tail (p : ascii -> bool) (s : string) :
  ends_in p (rstrip p s) = false.
Proof.
  induction s as [|c s IH]; simpl; [reflexivity|].
  destruct (is_empty (rstrip p s) && p c) eqn:E; [reflexivity|].
  cbn [ends_in]. destruct (rstrip p s) as [|c' r'] eqn:Er; [|exact IH].
  simpl in E. exact E.
Qed.

(** X18.  The public base URL that [__init__] keeps never ends with a
    slash: it is the argument, or else the environment's
    [R2_PUBLIC_BASEURL], or else the empty text, without its trailing
    slashes; stripping it again changes nothing.  The database URL is the
    argument when it is not empty and the environment's otherwise. *)
Theorem public_base_has_no_trailing_slash (getenv : string -> option string)
    (database_url r2_public_baseurl : option string) :
  let self := IssuesCompactDBPipeline.__init__ getenv database_url r2_public_baseurl in
  let base := Pipeline.r2_public_baseurl (IssuesCompactDBPipeline.settings self) in
  ends_in IssuesCompactDBPipeline.is_slash base = false
  /\ rstrip IssuesCompactDBPipeline.is_slash base = base
  /\ (Pipeline.truthy_str r2_public_baseurl = true ->
      base = rstrip IssuesCompactDBPipeline.is_slash (default "" r2_public_baseurl))
  /\ (Pipeline.truthy_str r2_public_baseurl = false ->
      base = rstrip IssuesCompactDBPipeline.is_slash
               (or_str (getenv "R2_PUBLIC_BASEURL") ""))
  /\ (Pipeline.truthy_str database_url = true ->
      IssuesCompactDBPipeline.database_url self = database_url)
  /\ (Pipeline.truthy_str database_url = false ->
      IssuesCompactDBPipeline.database_url self = getenv "DATABASE_URL").
Proof.
  intros self base. unfold base, self, IssuesCompactDBPipeline.__init__,
    IssuesCompactDBPipeline.or_opt. cbn [IssuesCompactDBPipeline.settings
    IssuesCompactDBPipeline.database_url Pipeline.r2_public_baseurl].
  split; [apply rstrip_no_tail|]. split; [apply rstrip_idem|].
  split; [|split; [|split]]; intros Ht; rewrite Ht; try reflexivity.
  destruct r2_public_baseurl as [b|]; [|discriminate]. simpl in *.
  unfold or_str. rewrite Ht. reflexivity.
Qed.

(** ** Dates and price bands of the listing *)

Lemma zeros_digits (n : nat) : str_all isdecimal (zeros n) = true.
Proof. induction n as [|n IH]; simpl; auto. Qed.

Lemma zero_pad_digits (w n : nat) : str_all isdecimal (zero_pad w (str_of_nat n)) = true.
Proof.
  unfold zero_pad. rewrite str_all_app, zeros_digits. apply str_of_nat_digits.
Qed.

Lemma isoformat_chars (d : date) :
  str_all (fun c => isdecimal c || is_hyphen c) (isoformat d) = true
  /\ isoformat d <> "".
Proof.
  assert (Hd : forall w n, str_all (fun c => isdecimal c || is_hyphen c)
                             (zero_pad w (str_of_nat n)) = true).
  { intros w n. eapply str_all_impl; [|apply zero_pad_digits].
    intros c ->. reflexivity. }
  split.
  - unfold isoformat. rewrite !str_all_app, !Hd. reflexivity.
  - unfold isoformat, zero_pad.
    destruct (zeros _ +:+ str_of_nat (Z.to_nat (year d))) as [|c r]; discriminate.
Qed.

Lemma digit_not_space c : isdecimal c || is_hyphen c = true -> negb (isspace c) = true.
Proof. destruct c as [[] [] [] [] [] [] [] []]; vm_compute; congruence. Qed.

(** X19.  A date that the listing spider rewrites is the date that the
    pipeline stores: when the text of the cell is a [dd-mm-YYYY] date
    that the C library writes back with a four-digit year, and
    [strptime] reads the ISO form of a date as that date, [to_iso] gives
    the ISO form and [to_iso_date] reads in it the date of the cell. *)
Theorem listing_date_is_read_back `{PyLib} `{PyFormat} (dmy : string) (d : date) :
  strptime (strip isspace dmy) "%d-%m-%Y" = Ret d ->
  strftime_ymd d = isoformat d ->
  strptime (isoformat d) "%Y-%m-%d" = Ret d ->
  IssuesSpider.to_iso dmy = isoformat d
  /\ Pipeline.to_iso_date (Some (IssuesSpider.to_iso dmy)) = Ret (Some d).
Proof.
  intros Hparse Hwrite Hread.
  assert (Hiso : IssuesSpider.to_iso dmy = isoformat d).
  { unfold IssuesSpider.to_iso. rewrite Hparse. exact Hwrite. }
  split; [exact Hiso|]. rewrite Hiso.
  destruct (isoformat_chars d) as [Hchars Hne].
  unfold Pipeline.to_iso_date.
  apply is_empty_iff_false in Hne. rewrite Hne.
  rewrite strip_none.
  2:{ eapply str_all_impl; [apply digit_not_space|exact Hchars]. }
  cbn [Pipeline.date_formats Pipeline.try_formats]. rewrite Hread. reflexivity.
Qed.

(** X19 on the opening date of a listing. *)
Lemma listing_date_is_read_back_witness :
  IssuesSpider.to_iso (H := PyRef.lib) (H0 := PyRef.format_lib) " 05-03-2024 " = "2024-03-05"
  /\ Pipeline.to_iso_date (H := PyRef.lib)
       (Some (IssuesSpider.to_iso (H := PyRef.lib) (H0 := PyRef.format_lib) " 05-03-2024 "))
     = Ret (Some {| year := 2024; month := 3; day := 5 |}).
Proof.
  apply (listing_date_is_read_back (H := PyRef.lib) (H0 := PyRef.format_lib) " 05-03-2024 "
           {| year := 2024; month := 3; day := 5 |}); vm_compute; reflexivity.
Defined.

Lemma split_on_cons (p : ascii -> bool) (s : string) :
  exists x l, IssuesSpider.split_on p s = x :: l.
Proof.
  induction s as [|c s (x & l & IH)]; simpl; [eauto|].
  destruct (p c); [eauto|]. rewrite IH. eauto.
Qed.

Lemma split_on_pieces (p : ascii -> bool) (s : string) :
  Forall (fun x => str_all (fun c => negb (p c)) x = true) (IssuesSpider.split_on p s).
Proof.
  induction s as [|c s IH]; simpl; [repeat constructor|].
  destruct (p c) eqn:E; [constructor; [reflexivity|exact IH]|].
  destruct (IssuesSpider.split_on p s) as [|x l]; [repeat constructor; simpl; rewrite E; reflexivity|].
  apply Forall_cons in IH as [Hx Hl]. constructor; [|exact Hl].
  simpl. rewrite E, Hx. reflexivity.
Qed.

Lemma split_on_head (p : ascii -> bool) (s : string) :
  head (IssuesSpider.split_on p s) = Some (fst (span (fun c => negb (p c)) s)).
Proof.
  induction s as [|c s IH]; simpl; [reflexivity|].
  destruct (p c) eqn:E; simpl; [reflexivity|].
  destruct (split_on_cons p s) as (x & l & Hs). rewrite Hs in *. simpl in *.
  injection IH as ->. destruct (span _ s). reflexivity.
Qed.

Lemma ends_in_not_all (p : ascii -> bool) (s : string) :
  ends_in p s = true -> str_all (fun c => negb (p c)) s = false.
Proof.
  induction s as [|c s IH]; [discriminate|]. intros He. cbn [str_all].
  destruct s as [|c' s'].
  - simpl in He. rewrite He. reflexivity.
  - rewrite (IH He). apply andb_false_r.
Qed.

Lemma ends_in_cons (p : ascii -> bool) (c : ascii) (s : string) :
  ends_in p s = true -> ends_in p (String c s) = true.
Proof. destruct s; [discriminate|]. intros He. exact He. Qed.

Lemma split_on_last (p : ascii -> bool) (s : string) :
  exists pre raw,
    last (IssuesSpider.split_on p s) = Some raw
    /\ s = pre +:+ raw
    /\ ((pre = "" /\ IssuesSpider.split_on p s = [raw])
        \/ (ends_in p pre = true
            /\ exists x y l, IssuesSpider.split_on p s = x :: y :: l)).
Proof.
  induction s as [|c s (pre & raw & Hl & Hs & Hpre)].
  - exists "", "". simpl. auto.
  - cbn [IssuesSpider.split_on]. destruct (p c) eqn:E.
    + exists (String c pre), raw.
      destruct (split_on_cons p s) as (x & l & Hx). rewrite Hx in *.
      split; [exact Hl|]. split; [rewrite Hs; reflexivity|]. right.
      split; [|eauto]. destruct Hpre as [[-> _]|[Hp _]]; [exact E|].
      apply ends_in_cons, Hp.
    + destruct Hpre as [[-> Hone]|[Hp (x & y & l & Hx)]].
      * exists "", (String c raw). rewrite Hone. simpl in Hs. subst s. auto.
      * exists (String c pre), raw. rewrite Hx in *.
        split; [exact Hl|]. split; [rewrite Hs; reflexivity|]. right.
        split; [apply ends_in_cons, Hp|eauto].
Qed.

(** X20.  [split_price_band] gives no ends for a blank text.  Otherwise
    the low end is the text before the first separator and the high end
    the text after the last separator, each without surrounding white
    space, so that a text with no separator is both its ends; neither end
    holds a separator. *)
Theorem price_band_ends (s : option string) :
  let t := strip isspace (or_str s "") in
  (t = "" -> IssuesSpider.split_price_band s = (None, None))
  /\ (t <> "" ->
      exists lo hi pre raw,
        IssuesSpider.split_price_band s = (Some lo, Some hi)
        /\ lo = strip isspace (fst (span in_band t))
        /\ t = pre +:+ raw
        /\ (pre = "" \/ ends_in IssuesSpider.is_band_separator pre = true)
        /\ str_all in_band raw = true
        /\ hi = strip isspace raw
        /\ str_all in_band lo = true /\ str_all in_band hi = true
        /\ (str_all in_band t = true -> lo = t /\ hi = t)).
Proof.
  intros t. unfold IssuesSpider.split_price_band. fold t. cbv zeta. split.
  - intros ->. reflexivity.
  - intros Hne. rewrite (is_empty_iff_false t Hne).
    pose proof (split_on_pieces IssuesSpider.is_band_separator t) as Hall.
    pose proof (split_on_head IssuesSpider.is_band_separator t) as Hhead.
    destruct (split_on_last IssuesSpider.is_band_separator t)
      as (pre & raw & Hlast & Ht & Hpre).
    fold in_band in Hhead.
    assert (Hraw : str_all in_band raw = true).
    { rewrite Forall_forall in Hall. apply Hall.
      apply last_Some in Hlast as [l' ->]. apply elem_of_app. right. left. }
    assert (Hlo : str_all in_band (fst (span in_band t)) = true).
    { rewrite Forall_forall in Hall. apply Hall.
      destruct (IssuesSpider.split_on _ t) as [|x l]; [discriminate|].
      injection Hhead as <-. left. }
    exists (strip isspace (fst (span in_band t))), (strip isspace raw), pre, raw.
    split.
    { destruct (IssuesSpider.split_on _ t) as [|x [|y l]] eqn:E; [discriminate| |].
      - simpl in *. injection Hhead as <-. injection Hlast as <-. reflexivity.
      - rewrite !fmap_cons. cbn [head]. injection Hhead as <-.
        f_equal. rewrite <- !fmap_cons, fmap_last, Hlast. reflexivity. }
    split; [reflexivity|]. split; [exact Ht|].
    split; [destruct Hpre as [[-> _]|[Hp _]]; auto|].
    split; [exact Hraw|]. split; [reflexivity|].
    split; [apply str_all_strip, Hlo|]. split; [apply str_all_strip, Hraw|].
    intros Hplain.
    assert (Hspan : span in_band t = (t, "")) by apply span_whole, Hplain.
    assert (Hstrip : strip isspace t = t) by apply strip_idem.
    rewrite Hspan. simpl. split; [exact Hstrip|].
    destruct Hpre as [[-> _]|[Hp _]];
      [change ("" +:+ raw) with raw in Ht; rewrite <- Ht; exact Hstrip|].
    exfalso. rewrite Ht, str_all_app in Hplain.
    apply andb_true_iff in Hplain as [Hplain _].
    unfold in_band in Hplain. rewrite (ends_in_not_all _ _ Hp) in Hplain. discriminate.
Qed.

(** ** [coerce_float] and [_clean_header] *)

(** X21.  [coerce_float] never raises and reads nothing but the digits,
    dots and hyphens of the text: it is null on no text and on a text
    without any of these characters, and otherwise what [float] reads in
    these characters taken together, or null when [float] refuses them; so
    two texts with the same such characters in the same order have the
    same value. *)
Theorem coerce_float_reads_numeric_characters `{PyLib} (s : string) :
  let kept := str_filter numeric_char s in
  Pipeline.coerce_float None = Ret None
  /\ Pipeline.coerce_float (Some s)
     = Ret (if nonempty kept
            then match py_float kept with Ret f => Some f | Raise _ => None end
            else None)
  /\ Pipeline.coerce_float (Some kept) = Pipeline.coerce_float (Some s)
  /\ (forall s', str_filter numeric_char s' = kept ->
        Pipeline.coerce_float (Some s') = Pipeline.coerce_float (Some s)).
Proof.
  intros kept.
  assert (Hval : forall t, Pipeline.coerce_float (Some t)
            = Ret (if nonempty (str_filter numeric_char t)
                   then match py_float (str_filter numeric_char t) with
                        | Ret f => Some f
                        | Raise _ => None
                        end
                   else None)).
  { intros t. unfold Pipeline.coerce_float. fold numeric_char.
    destruct (nonempty (str_filter numeric_char t)); [|reflexivity].
    destruct (py_float _); reflexivity. }
  split; [reflexivity|]. split; [apply Hval|]. split.
  - rewrite !Hval. unfold kept. rewrite str_filter_filter by auto. reflexivity.
  - intros s' Hs'. rewrite !Hval, Hs'. reflexivity.
Qed.

Lemma drop_final_colon_last (t : string) :
  Spider.drop_final_colon (t +:+ ":") = t.
Proof.
  induction t as [|c t IH].
  - reflexivity.
  - change (String c t +:+ ":") with (String c (t +:+ ":")).
    cbn [Spider.drop_final_colon]. rewrite str_all_app. cbn [str_all].
    change (isspace ":") with false. rewrite andb_false_r, andb_false_r, IH.
    reflexivity.
Qed.

Lemma str_all_rstrip_nil (p : ascii -> bool) (r : string) :
  str_all p r = true -> rstrip p r = "".
Proof.
  induction r as [|c r IH]; simpl; [reflexivity|].
  intros [Hc Hr]%andb_true_iff. rewrite (IH Hr), Hc. reflexivity.
Qed.

Lemma drop_final_colon_none (u : string) :
  rstrip isspace u = u -> ends_with ":" u = false -> Spider.drop_final_colon u = u.
Proof.
  induction u as [|c u IH]; [reflexivity|]. intros Hfix Hend.
  apply rstrip_fixed_cons in Hfix as [Hu Hc].
  cbn [ends_with] in Hend. apply orb_false_elim in Hend as [Hhere Hend].
  cbn [Spider.drop_final_colon].
  destruct (bool_decide (c = ":"%char) && str_all isspace u) eqn:E.
  - apply andb_true_iff in E as [Ec Esp]. apply bool_decide_eq_true in Ec. subst c.
    rewrite (str_all_rstrip_nil _ _ Esp) in Hu. subst u.
    rewrite bool_decide_eq_true_2 in Hhere by reflexivity. discriminate.
  - rewrite (IH Hu Hend). reflexivity.
Qed.

(** X22.  [_clean_header] is [_norm] followed by the removal of one final
    colon: when the normalised text ends with a colon the header name is
    the text before it (which may itself end with a space or a colon), and
    otherwise the normalised text itself. *)
Theorem clean_header_drops_one_colon (s : string) :
  (forall t, Spider._norm s = t +:+ ":" -> Spider._clean_header s = t)
  /\ (ends_with ":" (Spider._norm s) = false -> Spider._clean_header s = Spider._norm s)
  /\ Spider._clean_header "Name :" = "Name "
  /\ Spider._clean_header "Note::" = "Note:".
Proof.
  unfold Spider._clean_header. fold (Spider._norm s).
  split; [|split; [|split; reflexivity]].
  - intros t ->. apply drop_final_colon_last.
  - intros Hend. apply drop_final_colon_none; [|exact Hend].
    apply spaced_rstrip, norm_spaced.
Qed.

(** ** The storage key of an attachment, in full *)

Lemma rstrip_ends (p : ascii -> bool) (s : string) :
  ends_in (fun c => negb (p c)) s = true -> rstrip p s = s.
Proof.
  induction s as [|c s IH]; [discriminate|].
  cbn [ends_in rstrip]. destruct s as [|c' s'].
  - intros Hc%negb_true_iff. simpl. rewrite Hc. reflexivity.
  - intros Hs. rewrite (IH Hs). reflexivity.
Qed.

Lemma ends_in_app (p : ascii -> bool) (s t : string) :
  t <> "" -> ends_in p (s +:+ t) = ends_in p t.
Proof.
  intros Ht. induction s as [|c s IH]; [reflexivity|].
  change (String c s +:+ t) with (String c (s +:+ t)). cbn [ends_in].
  destruct (s +:+ t) as [|c' r] eqn:E; [|exact IH].
  destruct s; [|discriminate E]. cbn [append] in E. contradiction.
Qed.

Lemma ends_in_impl (p q : ascii -> bool) (s : string) :
  (forall c, p c = true -> q c = true) -> ends_in p s = true -> ends_in q s = true.
Proof.
  intros Hpq. induction s as [|c s IH]; [discriminate|].
  cbn [ends_in]. destruct s; [apply Hpq|exact IH].
Qed.

Lemma ends_in_all (p : ascii -> bool) (s : string) :
  s <> "" -> str_all p s = true -> ends_in p s = true.
Proof.
  induction s as [|c s IH]; [contradiction|]. intros _ [Hc Hs]%andb_true_iff.
  cbn [ends_in]. destruct s; [exact Hc|]. apply IH; [discriminate|exact Hs].
Qed.

Lemma word_is_no_space c : isword c = true -> isspace c = false.
Proof.
  intros Hw. destruct (isspace c) eqn:E; [|reflexivity].
  rewrite (isspace_not_word c E) in Hw. discriminate.
Qed.

Lemma word_is_no_hyphen c : isword c = true -> is_hyphen c = false.
Proof.
  intros Hw. destruct (is_hyphen c) eqn:E; [|reflexivity].
  rewrite (hyphen_not_word c E) in Hw. discriminate.
Qed.

Lemma sub_runs_app_none p rep b a s :
  a <> "" -> str_all (fun c => negb (p c)) a = true ->
  sub_runs p rep b (a +:+ s) = a +:+ sub_runs p rep false s.
Proof.
  revert b. induction a as [|c a IH]; intros b Hne; [contradiction|].
  intros [Hc Ha]%andb_true_iff. apply negb_true_iff in Hc.
  change (String c a +:+ s) with (String c (a +:+ s)).
  cbn [sub_runs]. rewrite Hc.
  change (String c a +:+ sub_runs p rep false s)
    with (String c (a +:+ sub_runs p rep false s)).
  f_equal. destruct a as [|c' a']; [reflexivity|]. apply IH; [discriminate|exact Ha].
Qed.

Lemma sub_runs_app_run p rep g s :
  str_all p g = true ->
  sub_runs p rep true (g +:+ s) = sub_runs p rep true s
  /\ (g <> "" -> sub_runs p rep false (g +:+ s) = rep +:+ sub_runs p rep true s).
Proof.
  induction g as [|c g IH]; [intros _; split; [reflexivity|contradiction]|].
  intros [Hc Hg]%andb_true_iff. destruct (IH Hg) as [IH1 _].
  change (String c g +:+ s) with (String c (g +:+ s)).
  cbn [sub_runs]. rewrite Hc. split; [exact IH1|]. intros _. rewrite IH1. reflexivity.
Qed.

Lemma sub_runs_head p rep c r :
  p c = false -> sub_runs p rep true (String c r) = sub_runs p rep false (String c r).
Proof. intros Hc. cbn [sub_runs]. rewrite Hc. reflexivity. Qed.

Lemma spaced_words_head w rest :
  is_word w -> exists c r, spaced_words w rest = String c r /\ isword c = true.
Proof.
  intros [Hne Hw]. destruct w as [|c w]; [contradiction|].
  apply andb_true_iff in Hw as [Hc _]. exists c.
  destruct rest as [|[g w'] rest]; cbn [spaced_words]; eauto.
Qed.

Lemma spaced_words_chars w rest :
  is_word w -> Forall (fun p => is_gap p.1 /\ is_word p.2) rest ->
  str_all (fun c => isword c || isspace c || is_hyphen c) (spaced_words w rest) = true
  /\ ends_in isword (spaced_words w rest) = true.
Proof.
  intros Hw Hrest. revert w Hw.
  induction Hrest as [|[g w'] rest [[Hg1 Hg2] Hw'] _ IH]; intros w [Hw1 Hw2];
    cbn [spaced_words].
  - split; [|apply ends_in_all; assumption].
    eapply str_all_impl; [|exact Hw2]. intros c ->. reflexivity.
  - destruct (IH w' Hw') as [Hc He]. simpl in Hw'.
    destruct (spaced_words_head w' rest Hw') as (c & r & Hhead & _).
    rewrite !str_all_app, Hc, andb_true_r. split.
    + apply andb_true_iff. split.
      * eapply str_all_impl; [|exact Hw2]. intros x ->. reflexivity.
      * eapply str_all_impl; [|exact Hg2]. intros x ->. rewrite orb_true_r. reflexivity.
    + rewrite !ends_in_app; [exact He|rewrite Hhead; discriminate|].
      rewrite Hhead. destruct g; discriminate.
Qed.

Lemma sub_runs_spaced_words w rest :
  is_word w -> Forall (fun p => is_gap p.1 /\ is_word p.2) rest ->
  sub_runs isspace "-" false (spaced_words w rest) = join "-" (w :: rest.*2).
Proof.
  intros Hw Hrest. revert w Hw.
  induction Hrest as [|[g w'] rest [[Hg1 Hg2] Hw'] _ IH]; intros w [Hw1 Hw2];
    cbn [spaced_words fmap list_fmap snd].
  - cbn [join]. apply sub_runs_none.
    eapply str_all_impl; [|exact Hw2]. intros c Hc. rewrite (word_is_no_space c Hc).
    reflexivity.
  - simpl in Hw'. destruct (spaced_words_head w' rest Hw') as (c & r & Hhead & Hc).
    rewrite sub_runs_app_none; [|exact Hw1|].
    2:{ eapply str_all_impl; [|exact Hw2]. intros x Hx. rewrite (word_is_no_space x Hx).
        reflexivity. }
    destruct (sub_runs_app_run isspace "-" g (spaced_words w' rest) Hg2) as [_ Hrun].
    rewrite (Hrun Hg1), Hhead, sub_runs_head by (apply word_is_no_space, Hc).
    rewrite <- Hhead, (IH w' Hw').
    change (join "-" (w :: w' :: rest.*2)) with (w +:+ "-" +:+ join "-" (w' :: rest.*2)).
    reflexivity.
Qed.

Lemma join_words_ends (w : string) (ws : list string) :
  is_word w -> Forall is_word ws ->
  (exists c r, join "-" (w :: ws) = String c r /\ isword c = true)
  /\ ends_in isword (join "-" (w :: ws)) = true.
Proof.
  intros Hw Hws. revert w Hw. induction Hws as [|w' ws Hw' _ IH]; intros w [Hw1 Hw2].
  - cbn [join]. split; [|apply ends_in_all; assumption].
    destruct w as [|c w]; [contradiction|]. apply andb_true_iff in Hw2 as [Hc _]. eauto.
  - change (join "-" (w :: w' :: ws)) with (w +:+ "-" +:+ join "-" (w' :: ws)).
    destruct (IH w' Hw') as [(c & r & Hhead & Hc) He]. split.
    + destruct w as [|x w]; [contradiction|]. apply andb_true_iff in Hw2 as [Hx _].
      exists x. eexists. split; [reflexivity|exact Hx].
    + rewrite !ends_in_app; [exact He|rewrite Hhead; discriminate|discriminate].
Qed.

Lemma slugify_spaced_words (w : string) (rest : list (string * string)) :
  is_word w -> Forall (fun p => is_gap p.1 /\ is_word p.2) rest ->
  Pipeline.slugify (Some (spaced_words w rest)) = join "-" (w :: rest.*2).
Proof.
  intros Hw Hrest. unfold Pipeline.slugify. cbv zeta.
  destruct (spaced_words_head w rest Hw) as (c & r & Hhead & Hc).
  destruct (spaced_words_chars w rest Hw Hrest) as [Hchars Hends].
  assert (H1 : or_str (Some (spaced_words w rest)) "" = spaced_words w rest).
  { rewrite Hhead. reflexivity. }
  assert (H2 : strip isspace (spaced_words w rest) = spaced_words w rest).
  { unfold strip. rewrite Hhead, lstrip_fixed by (apply word_is_no_space, Hc).
    rewrite <- Hhead. apply rstrip_ends.
    eapply ends_in_impl; [|exact Hends]. intros x Hx. rewrite (word_is_no_space x Hx).
    reflexivity. }
  rewrite H1, H2, (str_filter_all _ _ Hchars), (sub_runs_spaced_words w rest Hw Hrest).
  assert (Hws : Forall is_word rest.*2).
  { apply Forall_fmap. eapply Forall_impl; [exact Hrest|]. intros p [_ Hp]. exact Hp. }
  destruct (join_words_ends w rest.*2 Hw Hws) as [(x & t & Hj & Hx) He].
  assert (H3 : strip is_hyphen (join "-" (w :: rest.*2)) = join "-" (w :: rest.*2)).
  { unfold strip. rewrite Hj, lstrip_fixed by (apply word_is_no_hyphen, Hx).
    rewrite <- Hj. apply rstrip_ends.
    eapply ends_in_impl; [|exact He]. intros y Hy. rewrite (word_is_no_hyphen y Hy).
    reflexivity. }
  rewrite H3, Hj. reflexivity.
Qed.

Lemma guess_ext_first `{PyLib} (u : string) :
  Pipeline.guess_ext_from_url u
  = default ".bin"
      (List.find (fun suf => ends_with suf (lower (urlparse_path u))) known_suffixes).
Proof.
  unfold Pipeline.guess_ext_from_url, known_suffixes. cbv zeta. cbn [List.find].
  destruct (ends_with ".pdf" _); [reflexivity|].
  destruct (ends_with ".docx" _); [reflexivity|].
  destruct (ends_with ".xlsx" _); [reflexivity|].
  destruct (ends_with ".xls" _); reflexivity.
Qed.

(** C9, amended.  The storage key that [file_path] derives is a function
    of the request's entity, date text, label and URL alone: the other
    arguments are not read, nor is the category that the request carries,
    and two requests that agree on the four give the same key.  The key is
    [issues/<slug(entity)>/<ISO date or undated>/<slug(label)>_<hash><ext>]
    with the literal [issues]; an absent or empty entity is replaced by
    [Unknown] and a label that is empty once stripped by [document] before
    they are slugged; the date folder is the ISO form of the date that
    [to_iso_date] reads, or [undated]; the hash is the first six
    hexadecimal digits of the SHA-1 of the URL in UTF-8; the extension is
    the first of [.pdf], [.docx], [.xlsx], [.xls] that the lower-cased URL
    path ends with, and [.bin] when it ends with none.  A slug is never
    empty, holds word characters and hyphens only, keeps the word
    characters of its input, joins words that white space separates by
    single hyphens, and is [unknown] when the input has no word
    character. *)
Theorem file_path_shape `{PyLib} {R I T R' I' T' : Type}
    (request : Pipeline.media_request)
    (response : option R) (info : option I) (item : option T)
    (response' : option R') (info' : option I') (item' : option T') :
  let ctx := default Pipeline.empty_ctx (Pipeline.meta_ctx request) in
  let entity := or_str (Pipeline.company ctx) "Unknown" in
  let stripped := strip isspace (or_str (Pipeline.meta_label request) "") in
  let label := or_str (Some stripped) "document" in
  let path := lower (urlparse_path (Pipeline.url request)) in
  let hash := str_take 6 (SHA1.hexdigest (encode_utf8 (Pipeline.url request))) in
  let ext := default ".bin" (List.find (fun suf => ends_with suf path) known_suffixes) in
  exists d : option date,
    Pipeline.file_path request response info item
    = Ret ("issues/" +:+ Pipeline.slugify (Some entity) +:+ "/"
           +:+ (match d with Some d => isoformat d | None => "undated" end) +:+ "/"
           +:+ Pipeline.slugify (Some label) +:+ "_" +:+ hash +:+ ext)
    /\ Pipeline.to_iso_date (Pipeline.dt ctx) = Ret d
    /\ Pipeline.file_path request response' info' item'
       = Pipeline.file_path request response info item
    /\ (forall request' : Pipeline.media_request,
          Pipeline.url request' = Pipeline.url request ->
          Pipeline.meta_label request' = Pipeline.meta_label request ->
          Pipeline.company (default Pipeline.empty_ctx (Pipeline.meta_ctx request'))
            = Pipeline.company ctx ->
          Pipeline.dt (default Pipeline.empty_ctx (Pipeline.meta_ctx request'))
            = Pipeline.dt ctx ->
          Pipeline.file_path request' response info item
          = Pipeline.file_path request response info item)
    /\ (Pipeline.company ctx = None \/ Pipeline.company ctx = Some "" ->
        Pipeline.slugify (Some entity) = "Unknown")
    /\ (stripped = "" -> Pipeline.slugify (Some label) = "document")
    /\ String.length hash = 6%nat
    /\ str_all is_hex hash = true
    /\ SHA1.hexdigest (encode_utf8 "abc") = "a9993e364706816aba3e25717850c26c9cd0d89d"
    /\ SHA1.hexdigest
         (encode_utf8 "abcdbcdecdefdefgefghfghighijhijkijkljklmklmnlmnomnopnopq")
       = "84983e441c3bd26ebaae4aa1f95129e5e54670f1"
    /\ SHA1.hexdigest
         (encode_utf8 ("https://www.bseindia.com/downloads/ipo/Caf"
                       +:+ String (ascii_of_N 233) " RHP.PDF?v=2#top"))
       = "4a4e5660de3220ae543a4b8177068ab64a165e05"
    /\ (forall suf, suf ∈ known_suffixes -> ext = suf -> ends_with suf path = true)
    /\ (ends_with ".pdf" path = true -> ext = ".pdf")
    /\ (Forall (fun suf => ends_with suf path = false) known_suffixes -> ext = ".bin")
    /\ (forall s : option string,
          Pipeline.slugify s <> ""
          /\ str_all (fun c => isword c || is_hyphen c) (Pipeline.slugify s) = true)
    /\ (forall s : string,
          (str_filter isword s <> "" ->
           str_filter isword (Pipeline.slugify (Some s)) = str_filter isword s)
          /\ (str_filter isword s = "" -> Pipeline.slugify (Some s) = "unknown"))
    /\ (forall (w : string) (rest : list (string * string)),
          is_word w -> Forall (fun p => is_gap p.1 /\ is_word p.2) rest ->
          Pipeline.slugify (Some (spaced_words w rest)) = join "-" (w :: rest.*2))
    /\ Pipeline.slugify (Some "  ACME  Ltd. (India) ") = "ACME-Ltd-India"
    /\ Pipeline.slugify (Some " - a - ") = "a"
    /\ Pipeline.slugify None = "unknown".
Proof.
  intros ctx entity stripped label path hash ext.
  destruct (to_iso_date_returns (Pipeline.dt ctx)) as [d Hd].
  exists d.
  pose proof (guess_ext_first (Pipeline.url request)) as Hext. fold path ext in Hext.
  destruct (guess_ext_cases (Pipeline.url request)) as (Hin & Hsuf & Hbin).
  fold path in Hsuf, Hbin. rewrite Hext in Hsuf, Hbin.
  split; [|split; [exact Hd|split; [reflexivity|split]]].
  - unfold Pipeline.file_path. fold ctx. rewrite Hd, Hext. reflexivity.
  - intros request' Hu Hl Hc Hdt. unfold Pipeline.file_path.
    fold ctx. rewrite Hu, Hl, Hc, Hdt. reflexivity.
  - split; [intros [Hc|Hc]; unfold entity; rewrite Hc; reflexivity|].
    split; [intros Hs; unfold label; rewrite Hs; reflexivity|].
    split; [apply str_take_length; rewrite hexdigest_length; lia|].
    split; [apply str_take_all, hexdigest_all_hex|].
    split; [vm_compute; reflexivity|]. split; [vm_compute; reflexivity|].
    split; [vm_compute; reflexivity|]. split; [exact Hsuf|].
    split; [intros Hp; unfold ext, known_suffixes; cbn [List.find]; rewrite Hp;
            reflexivity|].
    split; [exact Hbin|].
    split; [intros s; split; [apply slug_nonempty|apply slug_chars]|].
    split; [apply slug_words|]. split; [apply slugify_spaced_words|].
    split; [vm_compute; reflexivity|]. split; [vm_compute; reflexivity|reflexivity].
Qed.

(** C9 as stated fails on a request with an empty entity: its category
    [notice] is not in the key, whose first segment is [issues], and the
    entity segment is [Unknown], while the slug of the empty entity is
    [unknown]; likewise the empty label gives [document], not the slug
    [unknown]. *)
Lemma empty_entity_is_not_slugged :
  Pipeline.file_path (H := PyRef.lib) (R := unit) (I := unit) (T := unit)
    {| Pipeline.url := "https://www.bseindia.com/x";
       Pipeline.meta_ctx :=
         Some {| Pipeline.parent_type := Some "notice";
                 Pipeline.company := Some "";
                 Pipeline.dt := None |};
       Pipeline.meta_label := Some "" |} None None None
  = Ret "issues/Unknown/undated/document_469ce2.bin"
  /\ Pipeline.slugify (Some "") = "unknown"
  /\ Pipeline.slugify (Some "notice") = "notice".
Proof. vm_compute. repeat split; reflexivity. Qed.

(** ** Runs of the model *)

Example file_path_sample :
  Pipeline.file_path (H := PyRef.lib) (R := unit) (I := unit) (T := unit)
    {| Pipeline.url := "https://www.bseindia.com/downloads/ipo/abc.pdf";
       Pipeline.meta_ctx :=
         Some {| Pipeline.parent_type := Some "issue";
                 Pipeline.company := Some "ACME Ltd.";
                 Pipeline.dt := Some "2024-03-05" |};
       Pipeline.meta_label := Some " Red Herring Prospectus " |} None None None
  = Ret "issues/ACME-Ltd/2024-03-05/Red-Herring-Prospectus_9c8fed.pdf".
Proof. vm_compute. reflexivity. Qed.

Example file_path_defaults :
  Pipeline.file_path (H := PyRef.lib) (R := unit) (I := unit) (T := unit)
    {| Pipeline.url := "https://www.bseindia.com/x";
       Pipeline.meta_ctx := None;
       Pipeline.meta_label := None |} None None None
  = Ret "issues/Unknown/undated/document_469ce2.bin".
Proof. vm_compute. reflexivity. Qed.
(** A refused INSERT takes a value of the sequence: the row that is
    inserted after it has the primary key 2. *)
Example refused_insert_takes_an_id :
  let out :=
    Pipeline.process_item (H := PyRef.lib) Examples.self Examples.item_nameless
      Pipeline.empty_db in
  out = (Raise IntegrityError, {| Pipeline.rows := []; Pipeline.next_id := 2 |})
  /\ Pipeline.id
       <$> Pipeline.rows
             (snd (Pipeline.process_item (H := PyRef.lib) Examples.self
                     Examples.item_acme (snd out)))
     = [Some 2].
Proof. vm_compute. split; reflexivity. Qed.

(** A text that is too long for its column: the INSERT is refused and
    nothing is stored. *)
Example overlong_insert_stores_nothing :
  Pipeline.process_item (H := PyRef.lib) Examples.self Examples.item_acme_overlong
    Pipeline.empty_db
  = (Raise DataError, Pipeline.empty_db).
Proof. vm_compute. reflexivity. Qed.

(** A name of 515 characters whose last three are spaces is stored without
    them; the lookup of the same record does not find the row, and, a date
    being null, the record is stored a second time. *)
Example padded_name_is_stored_twice :
  let upsert1 :=
    Pipeline.process_item (H := PyRef.lib) Examples.self Examples.item_padded
      Pipeline.empty_db in
  let upsert2 :=
    Pipeline.process_item (H := PyRef.lib) Examples.self Examples.item_padded
      (snd upsert1) in
  fst upsert1 = Ret Examples.item_padded
  /\ fst upsert2 = Ret Examples.item_padded
  /\ Pipeline.identity <$> Pipeline.rows (snd upsert2)
     = [(Some (zeros 512), None, None, Some "https://www.bseindia.com/d/3");
        (Some (zeros 512), None, None, Some "https://www.bseindia.com/d/3")].
Proof. vm_compute. repeat split; reflexivity. Qed.

Example sha1_abc :
  SHA1.hexdigest (encode_utf8 "abc") = "a9993e364706816aba3e25717850c26c9cd0d89d".
Proof. vm_compute. reflexivity. Qed.

Example sha1_empty :
  SHA1.hexdigest (encode_utf8 "") = "da39a3ee5e6b4b0d3255bfef95601890afd80709".
Proof. vm_compute. reflexivity. Qed.

Example sha1_two_blocks :
  SHA1.hexdigest
    (encode_utf8 "abcdbcdecdefdefgefghfghighijhijkijkljklmklmnlmnomnopnopq")
  = "84983e441c3bd26ebaae4aa1f95129e5e54670f1".
Proof. vm_compute. reflexivity. Qed.
